(** * httprouter: a shallow embedding of the router facade

    The Go package [httprouter] (module github.com/n-r-w/httprouter) wraps
    gorilla/mux, gorilla/sessions and a logger behind the [Router]
    interface.  This file embeds the package's functions as Rocq functions
    over an explicit request state and proves properties of them.

    Two revisions of the implementation are present in the sources: the
    current one (string user identifiers, caller-supplied cookie name and
    key, structured error envelope) and an earlier one (uint64 user
    identifiers, fixed cookie name, flat error envelope).  Functions that
    are the same in both are embedded once; the responders, which differ
    in how they report errors, take a [Revision]; the earlier session
    manager is in [Module Legacy]. *)

From stdpp Require Import base gmap strings pretty list fin_maps.
From Stdlib Require Import ZArith Strings.Ascii Strings.Byte.

Set Warnings "-register-all".
Local Open Scope Z_scope.

(** ** Values that cross the package boundary *)

(** [*nerr.Error] (github.com/n-r-w/nerr) as the package observes it:
    through [TopCode], [Trace], [TopOp] and [Error]. *)
Record nerrError := {
  TopCode : Z;
  Trace : list string;
  TopOp : string;
  nerrText : string
}.

(** A Go [error] value: either a [*nerr.Error] or an error of another
    dynamic type, of which only the message is observable. *)
Inductive error :=
  | ErrNerr (ne : nerrError)
  | ErrPlain (msg : string).

Definition Error (e : error) : string :=
  match e with
  | ErrNerr ne => nerrText ne
  | ErrPlain msg => msg
  end.

(** The arguments the package hands to [nerr.New]. *)
Inductive nerrArg :=
  | NMsg (s : string)
  | NWrap (e : error)
  | NCode (c : Z).

(** A dynamically typed Go value ([any]) as far as the package builds
    one: integers, strings, string slices, string-keyed maps, and any
    other value, named by a tag. *)
Inductive any :=
  | AInt (z : Z)
  | AStr (s : string)
  | AStrs (l : list string)
  | AMap (m : gmap string any)
  | AOther (tag : string).

(** The [data interface{}] argument of the responders, by the cases of
    their type switches; a nil interface is [None] of [option Data].  A
    [[]byte] is [option (list byte)]: the nil slice is [None]. *)
Inductive Data :=
  | DString (s : string)
  | DBytes (b : option (list byte))
  | DValue (v : any).

(** interface.go: [type CompressionType int] with its iota constants. *)
Definition CompressionType := Z.
Definition CompressionNo : CompressionType := 0.
Definition CompressionGzip : CompressionType := 1.
Definition CompressionDeflate : CompressionType := 2.

(** [lg.Level], the three levels the package uses. *)
Inductive Level := LevelError | LevelWarn | LevelInfo.

Inductive logArg :=
  | ArgStr (s : string)
  | ArgInt (z : Z)
  | ArgDuration (d : Z)
  | ArgErr (e : error).

(** One call on the [lg.Logger]: [Err(err)], [Error(format, args...)] or
    [Level(level, format, args...)]. *)
Inductive logEntry :=
  | LogErr (e : error)
  | LogError (format : string) (args : list logArg)
  | LogLevel (lv : Level) (format : string) (args : list logArg).

(** The collaborators outside the module: encoding/json, n-r-w/tools,
    n-r-w/nerr, n-r-w/eno and net/http's status table. *)
Class Externals := {
  json_Marshal : Data -> list byte + error;
  CompressData : bool -> list byte -> list byte + error;
  nerr_New : nerrArg -> nerrError;
  eno_ErrInternal : Z;
  http_StatusText : Z -> string
}.

Definition StatusInternalServerError : Z := 500.
Definition StatusBadRequest : Z := 400.
Definition StatusOK : Z := 200.

(** ** Strings *)

Definition dquote : ascii := ascii_of_nat 34.
Definition comma : ascii := ascii_of_nat 44.

(** [strings.Contains(s, substr)] *)
Fixpoint strings_Contains (s substr : string) : bool :=
  String.prefix substr s ||
  match s with
  | EmptyString => false
  | String _ s' => strings_Contains s' substr
  end.

(** [strings.Split(s, sep)] for a one-byte separator: the pieces between
    the separators, one piece (possibly empty) more than there are
    separators. *)
Fixpoint strings_Split (s : string) (sep : ascii) : list string :=
  match s with
  | EmptyString => [EmptyString]
  | String c s' =>
      if Ascii.eqb c sep then EmptyString :: strings_Split s' sep
      else match strings_Split s' sep with
           | piece :: rest => String c piece :: rest
           | [] => [String c EmptyString]
           end
  end.

(** [slices.Contains(s, v)] *)
Definition slices_Contains (s : list string) (v : string) : bool :=
  bool_decide (v ∈ s).

(** [strings.ReplaceAll] with the double quote as the old text and the
    empty string as the new one: every double quote is dropped. *)
Fixpoint strip_quotes (s : string) : string :=
  match s with
  | EmptyString => EmptyString
  | String c s' =>
      if Ascii.eqb c dquote then strip_quotes s' else String c (strip_quotes s')
  end.

(** [fmt.Sprintf] with the format of an error object whose one key,
    error, maps to the quoted [%v] of the argument. *)
Definition sprintf_error (e : error) : string :=
  "{" +:+ String dquote "error" +:+ String dquote ": " +:+
  String dquote (Error e) +:+ String dquote "}".

(** ** The response writer *)

Abbreviation header := (gmap string (list string)).

(** [http.Header.Set] *)
Definition header_Set (k v : string) (h : header) : header := <[k := [v]]> h.

(** The writer the server hands to the outermost handler, modelled as a
    recording writer: the first [WriteHeader] wins and freezes the headers
    that are sent, [Write] appends to the body.  [sent] is the status and
    the header snapshot once the header has gone out; [broken] makes
    every [Write] fail with that error. *)
Record ResponseRecorder := {
  HeaderMap : header;
  sent : option (Z * header);
  Body : list byte;
  broken : option error
}.

(** [responseWriterEx]: the embedded writer, the captured status code and
    the error attached by [RespondError]. *)
Record responseWriterEx := {
  ResponseWriter : ResponseRecorder;
  code : Z;
  err : option error
}.

(** What a [panic] carries. *)
Inductive panicValue :=
  | PanicError (e : error)
  | PanicString (s : string)
  | PanicRuntime (s : string).

(** The dynamic type behind an [http.ResponseWriter] argument: the
    request's [*responseWriterEx], or the bare writer. *)
Inductive httpResponseWriter := AsEx | AsBare.

(** What the package reads of an [*http.Request]: [r.RemoteAddr] and
    [r.Header.Get] of Accept-Encoding (empty when the header is absent). *)
Record Request := {
  RemoteAddr : string;
  AcceptEncoding : string
}.

(** ** Sessions (gorilla/sessions) *)

(** A value stored in [Session.Values], by its dynamic type. *)
Inductive sessionValue :=
  | VString (s : string)
  | VUint64 (n : Z)
  | VOther (tag : string).

Record Options := {
  Path : string;
  Domain : string;
  MaxAge : Z;
  Secure : bool;
  HttpOnly : bool;
  SameSite : Z
}.

(** [sessions.Session]; [Options] is a pointer and may be nil. *)
Record Session := {
  Values : gmap string sessionValue;
  SessionOptions : option Options
}.

(** ** Request state

    Everything one request can read or change: the capture wrapper with
    the writer under it, the lines handed to the logger, the clock read by
    [time.Now], the session objects that [*sessions.Session] pointers
    refer to, and the private state of the session store. *)
Record State {S : Type} := {
  rw : responseWriterEx;
  logger : list logEntry;
  clock : Z;
  sessions : gmap nat Session;
  store : S
}.
Arguments State : clear implicits.

Inductive outcome (S A : Type) :=
  | Done (a : A) (st : State S)
  | Panicked (p : panicValue) (st : State S).
Arguments Done {S A} a st.
Arguments Panicked {S A} p st.

(** A computation that reads and changes the request state and either
    returns or panics. *)
Definition M (S A : Type) := State S -> outcome S A.

Definition ret {S A} (a : A) : M S A := fun st => Done a st.

Definition bind {S A B} (m : M S A) (k : A -> M S B) : M S B :=
  fun st =>
    match m st with
    | Done a st' => k a st'
    | Panicked p st' => Panicked p st'
    end.

Definition panic {S A} (p : panicValue) : M S A := fun st => Panicked p st.

Definition modify {S} (f : State S -> State S) : M S unit :=
  fun st => Done tt (f st).

Definition get {S} : M S (State S) := fun st => Done st st.

Definition final {S A} (o : outcome S A) : State S :=
  match o with
  | Done _ st => st
  | Panicked _ st => st
  end.

Declare Scope go_scope.
Delimit Scope go_scope with go.
Notation "x <- m ;; k" := (bind m (fun x => k))
  (at level 100, m at next level, right associativity) : go_scope.
Notation "m ;;; k" := (bind m (fun _ => k))
  (at level 100, right associativity) : go_scope.
Local Open Scope go_scope.

Definition with_rw {S} (f : responseWriterEx -> responseWriterEx) (st : State S) : State S :=
  {| rw := f (rw st); logger := logger st; clock := clock st;
     sessions := sessions st; store := store st |}.

Definition with_writer (f : ResponseRecorder -> ResponseRecorder) (w : responseWriterEx) : responseWriterEx :=
  {| ResponseWriter := f (ResponseWriter w); code := code w; err := err w |}.

Definition with_code (c : Z) (w : responseWriterEx) : responseWriterEx :=
  {| ResponseWriter := ResponseWriter w; code := c; err := err w |}.

Definition with_err (e : option error) (w : responseWriterEx) : responseWriterEx :=
  {| ResponseWriter := ResponseWriter w; code := code w; err := e |}.

Definition log {S} (e : logEntry) : M S unit :=
  modify (fun st =>
    {| rw := rw st; logger := logger st ++ [e]; clock := clock st;
       sessions := sessions st; store := store st |}).

(** [w.Header().Set(k, v)], on the header map of the embedded writer. *)
Definition Header_Set {S} (k v : string) : M S unit :=
  modify (with_rw (with_writer (fun w =>
    {| HeaderMap := header_Set k v (HeaderMap w); sent := sent w;
       Body := Body w; broken := broken w |}))).

(** The embedded writer's [WriteHeader]: a second call changes nothing, a
    code outside 100..999 panics (net/http's check), otherwise the status
    goes out with the headers as they are now. *)
Definition recorder_WriteHeader (statusCode : Z) (w : ResponseRecorder) : ResponseRecorder + panicValue :=
  match sent w with
  | Some _ => inl w
  | None =>
      if (statusCode <? 100) || (999 <? statusCode)
      then inr (PanicString "invalid WriteHeader code")
      else inl {| HeaderMap := HeaderMap w; sent := Some (statusCode, HeaderMap w);
                  Body := Body w; broken := broken w |}
  end.

(** The embedded writer's [Write]: sends status 200 first when no header
    has gone out, then appends, or fails when the writer is broken. *)
Definition recorder_Write (data : list byte) (w : ResponseRecorder) : ResponseRecorder * (Z * option error) :=
  let hdr := match sent w with Some s => Some s | None => Some (StatusOK, HeaderMap w) end in
  match broken w with
  | Some e =>
      ({| HeaderMap := HeaderMap w; sent := hdr; Body := Body w; broken := broken w |},
       (0, Some e))
  | None =>
      ({| HeaderMap := HeaderMap w; sent := hdr; Body := Body w ++ data; broken := None |},
       (Z.of_nat (length data), None))
  end.

Definition inner_WriteHeader {S} (statusCode : Z) : M S unit :=
  fun st =>
    match recorder_WriteHeader statusCode (ResponseWriter (rw st)) with
    | inl w' => Done tt (with_rw (with_writer (fun _ => w')) st)
    | inr p => Panicked p st
    end.

Definition inner_Write {S} (data : list byte) : M S (Z * option error) :=
  fun st =>
    let '(w', r) := recorder_Write data (ResponseWriter (rw st)) in
    Done r (with_rw (with_writer (fun _ => w')) st).

(** ** The capture wrapper and the responders *)

(** Which of the two revisions of the implementation is meant. *)
Inductive Revision := Current | Earlier.

Section Responder.
Context `{Ext : Externals} {S : Type}.

(** [nerr.New] of a message and of an error, as error values. *)
Definition nerr_msg (s : string) : error := ErrNerr (nerr_New (NMsg s)).
Definition nerr_wrap (e : error) : error := ErrNerr (nerr_New (NWrap e)).

(** The current revision wraps errors it reports in [nerr.New]; the
    earlier one passes them on as they are. *)
Definition reported (rev : Revision) (e : error) : error :=
  match rev with
  | Current => nerr_wrap e
  | Earlier => e
  end.

(** [responseWriterEx.WriteHeader] *)
Definition WriteHeader (statusCode : Z) : M S unit :=
  if statusCode <=? 0 then panic (PanicError (nerr_msg "invalid status code"))
  else
    modify (with_rw (with_code statusCode)) ;;;
    inner_WriteHeader statusCode.

(** [responseWriterEx.WriteHeaderAndData]; [data] is [None] for nil. *)
Definition WriteHeaderAndData (statusCode : Z) (data : option (list byte)) : M S (Z * option error) :=
  if statusCode <=? 0 then panic (PanicError (nerr_msg "invalid status code"))
  else
    modify (with_rw (with_code statusCode)) ;;;
    inner_WriteHeader statusCode ;;;
    match data with
    | None => ret (0, None)
    | Some d => inner_Write d
    end.

Definition set_content_type (contentType : string) : M S unit :=
  if (0 <? String.length contentType)%nat
  then Header_Set "Content-Type" contentType
  else ret tt.

(** [RespondData] *)
Definition RespondData (rev : Revision) (w : httpResponseWriter) (code : Z)
    (contentType : string) (data : option Data) : M S unit :=
  match w with
  | AsBare => panic (PanicString "internal error")
  | AsEx =>
      r <- match data with
           | None => WriteHeaderAndData code None
           | Some d =>
               if strings_Contains contentType "application/json" then
                 set_content_type contentType ;;;
                 match json_Marshal d with
                 | inr err1 =>
                     WriteHeaderAndData StatusInternalServerError
                       (Some (String.list_byte_of_string (sprintf_error (reported rev err1))))
                 | inl jData => WriteHeaderAndData code (Some jData)
                 end
               else
                 match d with
                 | DString s =>
                     set_content_type contentType ;;;
                     WriteHeaderAndData code (Some (String.list_byte_of_string s))
                 | DBytes b =>
                     set_content_type contentType ;;;
                     WriteHeaderAndData code b
                 | DValue _ =>
                     Header_Set "Content-Type" "text/html; charset=utf-8" ;;;
                     WriteHeaderAndData StatusInternalServerError
                       (Some (String.list_byte_of_string "unknown data type"))
                 end
           end ;;
      match snd r with
      | Some e => log (LogErr (reported rev e))
      | None => ret tt
      end
  end.

(** The map the current [RespondError] fills in before it responds. *)
Definition errorMap (e : error) : gmap string any :=
  match e with
  | ErrNerr ne =>
      let m0 : gmap string any := ∅ in
      let m1 := if TopCode ne =? 0 then m0 else <["code" := AInt (TopCode ne)]> m0 in
      let m2 := if (0 <? length (Trace ne))%nat then <["trace" := AStrs (Trace ne)]> m1 else m1 in
      <["detail" := AStr (TopOp ne)]> m2
  | ErrPlain _ => {["detail" := AStr (Error e)]}
  end.

(** The value [RespondError] passes to [RespondData]:
    [map[string]any{error: errorMap}] in the current revision,
    [map[string]string{error: err.Error()}] in the earlier one. *)
Definition errorEnvelope (rev : Revision) (e : error) : any :=
  match rev with
  | Current => AMap {["error" := AMap (errorMap e)]}
  | Earlier => AMap {["error" := AStr (Error e)]}
  end.

(** [RespondError] *)
Definition RespondError (rev : Revision) (w : httpResponseWriter) (code : Z) (e : error) : M S unit :=
  match w with
  | AsBare => panic (PanicString "internal error")
  | AsEx =>
      modify (with_rw (with_err (Some e))) ;;;
      RespondData rev AsEx code "application/json; charset=utf-8"
        (Some (DValue (errorEnvelope rev e)))
  end.

(** The compression [RespondCompressed] settles on: the caller's choice
    when the Accept-Encoding header, split at commas, has that very token
    among its pieces. *)
Definition chosen_compression (r : Request) (compType : CompressionType) : CompressionType :=
  let accepted := strings_Split (AcceptEncoding r) comma in
  if slices_Contains accepted "gzip" && (compType =? CompressionGzip) then CompressionGzip
  else if slices_Contains accepted "deflate" && (compType =? CompressionDeflate) then CompressionDeflate
  else CompressionNo.

(** The type switch that fills [sourceData]: the [string] case has an
    empty body (a Go case does not fall through), so [sourceData] keeps
    its zero value there. *)
Definition sourceData (d : Data) : list byte + error :=
  match d with
  | DString _ => inl []
  | DBytes b => inl (default [] b)
  | DValue _ => json_Marshal d
  end.

(** [RespondCompressed] *)
Definition RespondCompressed (rev : Revision) (w : httpResponseWriter) (r : Request)
    (code : Z) (compType : CompressionType) (contentType : string)
    (data : option Data) : M S unit :=
  match data with
  | None => RespondData rev w code contentType None
  | Some d =>
      match w with
      | AsBare => panic (PanicString "internal error")
      | AsEx =>
          let compressionType := chosen_compression r compType in
          if compressionType =? CompressionNo then RespondData rev w code contentType data
          else
            match sourceData d with
            | inr errJSON =>
                RespondError rev w StatusInternalServerError (reported rev errJSON)
            | inl src =>
                (if compressionType =? CompressionGzip
                 then Header_Set "Content-Encoding" "gzip"
                 else Header_Set "Content-Encoding" "deflate") ;;;
                match CompressData (compressionType =? CompressionDeflate) src with
                | inr e => RespondError rev w StatusInternalServerError e
                | inl compressedData =>
                    Header_Set "Content-Type" contentType ;;;
                    _ <- WriteHeaderAndData code (Some compressedData) ;;
                    ret tt
                end
            end
      end
  end.

End Responder.

(** ** The access logger *)

(** An [http.Handler]: it is called with a writer and a request. *)
Definition Handler (S : Type) := httpResponseWriter -> Request -> M S unit.

(** The severity switch of [logRequest]. *)
Definition level_of (code : Z) : Level :=
  if StatusInternalServerError <=? code then LevelError
  else if StatusBadRequest <=? code then LevelWarn
  else LevelInfo.

Definition errorText (e : option error) : string :=
  match e with
  | Some e => strip_quotes (Error e)
  | None => "-"
  end.

Definition logRequest_format : string := "addr: %s, completed with %d %s in %v, %s".

(** The line [logRequest] hands to the logger for a request from [r]
    that started at [start] and left the wrapper as [w] at time [now]. *)
Definition access_entry `{Ext : Externals} (r : Request) (w : responseWriterEx) (start now : Z) : logEntry :=
  LogLevel (level_of (code w)) logRequest_format
    [ArgStr (RemoteAddr r); ArgInt (code w); ArgStr (http_StatusText (code w));
     ArgDuration (now - start); ArgStr (errorText (err w))].

(** [logRequest]: a fresh wrapper around the incoming writer, with code
    200 and no error, is what the next handler writes to. *)
Definition logRequest `{Ext : Externals} {S} (next : Handler S) : Handler S :=
  fun w r =>
    st0 <- get ;;
    let start := clock st0 in
    modify (with_rw (fun w0 =>
      {| ResponseWriter := ResponseWriter w0; code := StatusOK; err := None |})) ;;;
    next AsEx r ;;;
    st <- get ;;
    let level := level_of (code (rw st)) in
    match level with
    | LevelError | LevelWarn => log (access_entry r (rw st) start (clock st))
    | LevelInfo => ret tt
    end.

(** ** The session manager *)

(** [sessions.Store]: the three methods of the interface, each free to
    read and change the request state (session objects, its own state,
    the response headers).  A session pointer is a key of [sessions];
    [None] is the nil pointer. *)
Record Store (S : Type) := {
  store_Get : Request -> string -> State S -> (option nat * option error) * State S;
  store_New : Request -> string -> State S -> (option nat * option error) * State S;
  store_Save : Request -> httpResponseWriter -> nat -> State S -> option error * State S
}.
Arguments store_Get {S} _ _ _ _.
Arguments store_New {S} _ _ _ _.
Arguments store_Save {S} _ _ _ _ _.

Definition call {S A} (f : State S -> A * State S) : M S A :=
  fun st => let '(a, st') := f st in Done a st'.

Definition with_sessions {S} (f : gmap nat Session -> gmap nat Session) (st : State S) : State S :=
  {| rw := rw st; logger := logger st; clock := clock st;
     sessions := f (sessions st); store := store st |}.

(** [delete(session.Values, key)] on the object behind the pointer. *)
Definition delete_value (key : string) (s : Session) : Session :=
  {| Values := delete key (Values s); SessionOptions := SessionOptions s |}.

(** [session.Values[key] = v] followed by [session.Options = &o]. *)
Definition login_session (key : string) (v : sessionValue) (o : Options) (s : Session) : Session :=
  {| Values := <[key := v]> (Values s); SessionOptions := Some o |}.

Definition nil_dereference : panicValue :=
  PanicRuntime "invalid memory address or nil pointer dereference".

Definition failed_assertion : panicValue :=
  PanicRuntime "interface conversion".

(** Reading through a [*sessions.Session]. *)
Definition deref {S} (p : option nat) : M S Session :=
  fun st =>
    match p with
    | None => Panicked nil_dereference st
    | Some l =>
        match sessions st !! l with
        | Some s => Done s st
        | None => Panicked nil_dereference st
        end
    end.

Section Sessions.
Context `{Ext : Externals} {S : Type} (sessionStore : Store S).

(** [CloseSession], current revision *)
Definition CloseSession (w : httpResponseWriter) (r : Request) (cookieName cookieKey : string) : M S unit :=
  res <- call (store_Get sessionStore r cookieName) ;;
  match fst res with
  | Some sessionMain =>
      modify (with_sessions (alter (delete_value cookieKey) sessionMain)) ;;;
      e <- call (store_Save sessionStore r w sessionMain) ;;
      match e with
      | Some _ => log (LogError "session save error" [])
      | None => ret tt
      end
  | None => ret tt
  end.

(** [StartSession], current revision *)
Definition StartSession (w : httpResponseWriter) (r : Request) (userID : string) (sessionAge : Z)
    (cookieName cookieKey : string) (secure httpOnly : bool) : M S (option error) :=
  CloseSession w r cookieName cookieKey ;;;
  res <- call (store_New sessionStore r cookieName) ;;
  match fst res with
  | None => ret (Some (ErrNerr (nerr_New (NCode eno_ErrInternal))))
  | Some session =>
      modify (with_sessions (alter
        (login_session cookieKey (VString userID)
           {| Path := "/"; Domain := EmptyString; MaxAge := sessionAge;
              Secure := secure; HttpOnly := httpOnly; SameSite := 0 |}) session)) ;;;
      e <- call (store_Save sessionStore r w session) ;;
      match e with
      | Some e => ret (Some (nerr_wrap e))
      | None => ret None
      end
  end.

(** [CheckSession], current revision *)
Definition CheckSession (r : Request) (cookieName cookieKey : string) : M S (string * option error) :=
  res <- call (store_Get sessionStore r cookieName) ;;
  match snd res with
  | Some e => ret (EmptyString, Some (nerr_wrap e))
  | None =>
      session <- deref (fst res) ;;
      match Values session !! cookieKey with
      | None => ret (EmptyString, Some (nerr_msg "unauthorized"))
      | Some ID =>
          match SessionOptions session with
          | None => panic nil_dereference
          | Some o =>
              if MaxAge o <? 0 then ret (EmptyString, Some (nerr_msg "unauthorized"))
              else match ID with
                   | VString userID => ret (userID, None)
                   | _ => panic failed_assertion
                   end
          end
      end
  end.

End Sessions.

(** The earlier revision of the session manager: one fixed cookie name
    and key, and [uint64] user identifiers. *)
Module Legacy.

Definition sessionName : string := "logserver".
Definition userIDKeyName : string := "user_id".

Section Sessions.
Context `{Ext : Externals} {S : Type} (sessionStore : Store S).

Definition StartSession (w : httpResponseWriter) (r : Request) (userID : Z) (sessionAge : Z) : M S (option error) :=
  res <- call (store_New sessionStore r sessionName) ;;
  match snd res with
  | Some e => ret (Some e)
  | None =>
      match fst res with
      | None => panic nil_dereference
      | Some session =>
          modify (with_sessions (alter
            (login_session userIDKeyName (VUint64 userID)
               {| Path := "/"; Domain := EmptyString; MaxAge := sessionAge;
                  Secure := false; HttpOnly := false; SameSite := 0 |}) session)) ;;;
          call (store_Save sessionStore r w session)
      end
  end.

Definition CheckSession (r : Request) : M S (Z * option error) :=
  res <- call (store_Get sessionStore r sessionName) ;;
  match snd res with
  | Some e => ret (0, Some e)
  | None =>
      session <- deref (fst res) ;;
      match Values session !! userIDKeyName with
      | None => ret (0, Some (nerr_msg "unauthorized"))
      | Some ID =>
          match SessionOptions session with
          | None => panic nil_dereference
          | Some o =>
              if MaxAge o <? 0 then ret (0, Some (nerr_msg "unauthorized"))
              else match ID with
                   | VUint64 userID => ret (userID, None)
                   | _ => panic failed_assertion
                   end
          end
      end
  end.

Definition CloseSession (w : httpResponseWriter) (r : Request) : M S unit :=
  res <- call (store_Get sessionStore r sessionName) ;;
  match snd res with
  | Some e => log (LogError "session store get error %v" [ArgErr e])
  | None =>
      match fst res with
      | None => ret tt
      | Some session =>
          modify (with_sessions (alter (delete_value userIDKeyName) session)) ;;;
          e <- call (store_Save sessionStore r w session) ;;
          match e with
          | Some _ => log (LogError "session save error" [])
          | None => ret tt
          end
      end
  end.

End Sessions.
End Legacy.

(** ** The route and middleware registrar *)

Section Registrar.
(** [H] is the type of handlers; a middleware is a function on it. *)
Context {H : Type}.

(** What gorilla/mux keeps for a router: its routes, each a handler with
    a path and methods or a sub-router under a path prefix, and the
    middlewares given to [Use], in order. *)
Inductive muxRoute :=
  | Handle (path : string) (handler : H) (methods : list string)
  | PathPrefix (tpl : string) (subrouter : nat).

Record muxRouter := {
  routes : list muxRoute;
  middlewares : list (H -> H)
}.

Definition mux_NewRouter : muxRouter := {| routes := []; middlewares := [] |}.

Definition mux_Use (mwf : list (H -> H)) (m : muxRouter) : muxRouter :=
  {| routes := routes m; middlewares := middlewares m ++ mwf |}.

Definition mux_HandleFunc (path : string) (f : H) (methods : list string) (m : muxRouter) : muxRouter :=
  {| routes := routes m ++ [Handle path f methods]; middlewares := middlewares m |}.

(** The registration state of [RouterData]: the root router, the cache
    of sub-routers by path prefix, and the sub-router objects the cached
    pointers refer to. *)
Record RouterData := {
  mux : muxRouter;
  subrouters : gmap string nat;
  routers : gmap nat muxRouter
}.

(** [New], with the middlewares it installs on the root router
    ([setRequestID], [logRequest] and the CORS handler) as [builtin]. *)
Definition New (builtin : list (H -> H)) : RouterData :=
  {| mux := mux_Use builtin mux_NewRouter; subrouters := ∅; routers := ∅ |}.

(** [getSubrouter]: the cached pointer, or a new sub-router of the root,
    cached under [path]. *)
Definition getSubrouter (path : string) (d : RouterData) : nat * RouterData :=
  match subrouters d !! path with
  | Some sr => (sr, d)
  | None =>
      let sr := fresh (dom (routers d)) in
      (sr,
       {| mux := {| routes := routes (mux d) ++ [PathPrefix path sr];
                    middlewares := middlewares (mux d) |};
          subrouters := <[path := sr]> (subrouters d);
          routers := <[sr := mux_NewRouter]> (routers d) |})
  end.

Definition on_router (sr : nat) (f : muxRouter -> muxRouter) (d : RouterData) : RouterData :=
  {| mux := mux d; subrouters := subrouters d; routers := alter f sr (routers d) |}.

Definition on_mux (f : muxRouter -> muxRouter) (d : RouterData) : RouterData :=
  {| mux := f (mux d); subrouters := subrouters d; routers := routers d |}.

(** [AddRoute] *)
Definition AddRoute (subroute route : string) (handler : H) (methods : list string)
    (d : RouterData) : RouterData :=
  if (String.length subroute =? 0)%nat
  then on_mux (mux_HandleFunc route handler methods) d
  else
    let '(r, d') := getSubrouter subroute d in
    on_router r (mux_HandleFunc route handler methods) d'.

(** The loop of [AddMiddleware] that fills [funcs].  The module declares
    go 1.18, where the range variable [f] is a single variable for the
    whole loop and a function literal captures the variable itself.  A
    captured closure is therefore a function of what [f] holds when the
    closure is called; the loop returns the closures together with the
    last content of [f]. *)
Fixpoint range_mwf (mwf : list (H -> H)) (f : option (H -> H))
    (funcs : list ((H -> H) -> H -> H)) : option (H -> H) * list ((H -> H) -> H -> H) :=
  match mwf with
  | [] => (f, funcs)
  | x :: rest => range_mwf rest (Some x) (funcs ++ [fun f h => f h])
  end.

(** The functions [AddMiddleware] passes to [Use], as they behave when
    mux calls them, which is after the loop has ended. *)
Definition captured_funcs (mwf : list (H -> H)) : list (H -> H) :=
  match range_mwf mwf None [] with
  | (Some f, funcs) => map (fun closure => closure f) funcs
  | (None, _) => []
  end.

(** [AddMiddleware] *)
Definition AddMiddleware (subroute : string) (mwf : list (H -> H)) (d : RouterData) : RouterData :=
  let funcs := captured_funcs mwf in
  if (String.length subroute =? 0)%nat
  then on_mux (mux_Use funcs) d
  else
    let '(r, d') := getSubrouter subroute d in
    on_router r (mux_Use funcs) d'.

(** mux wraps a matched handler in the middlewares of the router that
    matched it, the first registered outermost. *)
Definition chain (mws : list (H -> H)) (h : H) : H :=
  fold_right (fun m next => m next) h mws.

(** The handlers registered on the group behind [sr], as served: wrapped
    in the group's middlewares and then in the root's. *)
Definition handlers_of (m : muxRouter) : list H :=
  omap (fun rt => match rt with Handle _ h _ => Some h | PathPrefix _ _ => None end) (routes m).

Definition served (d : RouterData) (sr : nat) : list H :=
  match routers d !! sr with
  | Some m => map (fun h => chain (middlewares (mux d)) (chain (middlewares m) h)) (handlers_of m)
  | None => []
  end.

(** A registration call, and a sequence of them run in order. *)
Inductive registration :=
  | RegRoute (subroute route : string) (handler : H) (methods : list string)
  | RegMiddleware (subroute : string) (mwf : list (H -> H)).

Definition register (d : RouterData) (op : registration) : RouterData :=
  match op with
  | RegRoute subroute route handler methods => AddRoute subroute route handler methods d
  | RegMiddleware subroute mwf => AddMiddleware subroute mwf d
  end.

Definition register_all (ops : list registration) (d : RouterData) : RouterData :=
  fold_left register ops d.

(** The sub-routers the root has under the prefix [path]. *)
Definition groups_under (path : string) (d : RouterData) : list nat :=
  omap (fun rt => match rt with
                  | PathPrefix tpl sr => if decide (tpl = path) then Some sr else None
                  | Handle _ _ _ => None
                  end) (routes (mux d)).

End Registrar.
Arguments muxRoute : clear implicits.
Arguments muxRouter : clear implicits.
Arguments RouterData : clear implicits.
Arguments registration : clear implicits.

(** ** Reading a response off the state *)

Definition response_of {S} (st : State S) : ResponseRecorder := ResponseWriter (rw st).

(** The headers the client sees: those frozen when the status went out. *)
Definition sent_headers (w : ResponseRecorder) : header :=
  match sent w with
  | Some (_, h) => h
  | None => ∅
  end.

Definition sent_status (w : ResponseRecorder) : option Z := fst <$> sent w.

(** The token of the Accept-Encoding header that stands for a requested
    compression kind; no token stands for [CompressionNo] or for a value
    that is none of the three constants. *)
Definition token_of (compType : CompressionType) : option string :=
  if compType =? CompressionGzip then Some "gzip"
  else if compType =? CompressionDeflate then Some "deflate"
  else None.

(** ** Stand-ins for the collaborators

    Small executable instances of the external interfaces, on which the
    embedded functions can be run. *)
Module Demo.

Definition quote (s : string) : string := String dquote s +:+ String dquote EmptyString.

Definition join (l : list string) : string :=
  match l with
  | [] => EmptyString
  | x :: rest => fold_left (fun acc y => acc +:+ "," +:+ y) rest x
  end.

(** A JSON rendering of [any], to a nesting depth of [n]. *)
Fixpoint render (n : nat) (v : any) : string :=
  match n with
  | O => "null"
  | Datatypes.S n =>
      match v with
      | AInt z => pretty z
      | AStr s => quote s
      | AStrs l => "[" +:+ join (quote <$> l) +:+ "]"
      | AMap m =>
          "{" +:+ join ((fun kv => quote (fst kv) +:+ ":" +:+ render n (snd kv)) <$> map_to_list m) +:+ "}"
      | AOther tag => tag
      end
  end.

(** Values tagged through [AOther] do not marshal. *)
Definition marshal (d : Data) : list byte + error :=
  match d with
  | DString s => inl (String.list_byte_of_string (quote s))
  | DBytes b => inl (String.list_byte_of_string (quote (String.string_of_list_byte (default [] b))))
  | DValue (AOther tag) => inr (ErrPlain ("json: unsupported type: " +:+ tag))
  | DValue v => inl (String.list_byte_of_string (render 8 v))
  end.

(** A framing codec: one tag byte, then the data as it is; it refuses
    more than 16 bytes. *)
Definition tag (deflate : bool) : byte := if deflate then x78 else x1f.

Definition compress (deflate : bool) (src : list byte) : list byte + error :=
  if (16 <? length src)%nat then inr (ErrPlain "short buffer")
  else inl (tag deflate :: src).

Definition decompress (deflate : bool) (b : list byte) : option (list byte) :=
  match b with
  | t :: rest => if Byte.eqb t (tag deflate) then Some rest else None
  | [] => None
  end.

Definition new_error (a : nerrArg) : nerrError :=
  match a with
  | NMsg s => {| TopCode := 0; Trace := []; TopOp := s; nerrText := s |}
  | NWrap (ErrNerr ne) => ne
  | NWrap (ErrPlain msg) => {| TopCode := 0; Trace := []; TopOp := msg; nerrText := msg |}
  | NCode c => {| TopCode := c; Trace := []; TopOp := "internal"; nerrText := "internal" |}
  end.

Definition status_text (c : Z) : string :=
  if c =? 200 then "OK"
  else if c =? 404 then "Not Found"
  else if c =? 500 then "Internal Server Error"
  else EmptyString.

Definition externals : Externals := {|
  json_Marshal := marshal;
  CompressData := compress;
  nerr_New := new_error;
  eno_ErrInternal := 1;
  http_StatusText := status_text
|}.

Definition recorder : ResponseRecorder :=
  {| HeaderMap := ∅; sent := None; Body := []; broken := None |}.

(** A request state with a fresh writer, nothing logged, no sessions. *)
Definition fresh_state {S} (s : S) : State S :=
  {| rw := {| ResponseWriter := recorder; code := StatusOK; err := None |};
     logger := []; clock := 0; sessions := ∅; store := s |}.

Definition request (accept : string) : Request :=
  {| RemoteAddr := "10.0.0.1:4242"; AcceptEncoding := accept |}.

(** An in-memory session store: its state maps a cookie name to the
    session registered under it.  [Get] registers a new empty session
    when there is none, [New] always does, [Save] has nothing to do. *)
Definition new_session {S} (name : string) (reg : S -> string -> nat -> S) (st : State S) : nat * State S :=
  let p := fresh (dom (sessions st)) in
  (p, {| rw := rw st; logger := logger st; clock := clock st;
         sessions := <[p := {| Values := ∅;
                               SessionOptions := Some {| Path := "/"; Domain := EmptyString;
                                 MaxAge := 86400 * 30; Secure := false; HttpOnly := false;
                                 SameSite := 0 |} |}]> (sessions st);
         store := reg (store st) name p |}).

Definition memory_store : Store (gmap string nat) := {|
  store_Get := fun _ name st =>
    match store st !! name with
    | Some p => ((Some p, None), st)
    | None => let '(p, st') := new_session name (fun m k v => <[k := v]> m) st in
              ((Some p, None), st')
    end;
  store_New := fun _ name st =>
    let '(p, st') := new_session name (fun m k v => <[k := v]> m) st in ((Some p, None), st');
  store_Save := fun _ _ _ st => (None, st)
|}.

(** A store whose backend is down: [Get] and [New] still hand out the
    registered session, with an error, and [Save] fails. *)
Definition failing_store : Store (gmap string nat) := {|
  store_Get := fun _ name st => ((store st !! name, Some (ErrPlain "backend down")), st);
  store_New := fun _ name st => ((store st !! name, Some (ErrPlain "backend down")), st);
  store_Save := fun _ _ _ st => (Some (ErrPlain "backend down"), st)
|}.

End Demo.

(** ** Vocabulary of the properties *)

(** [m] keeps [P]: from a state with [P], the state [m] ends in, by
    returning or by panicking, has [P]. *)
Definition keeps {S A} (P : State S -> Prop) (m : M S A) : Prop :=
  forall st, P st -> P (final (m st)).

(** The response of [st] has no header [k], neither in the header map
    nor among the headers already sent. *)
Definition lacks_header {S} (k : string) (st : State S) : Prop :=
  HeaderMap (response_of st) !! k = None /\
  sent_headers (response_of st) !! k = None.

(** The writer is fresh: no header has gone out and writes succeed. *)
Definition fresh_writer {S} (st : State S) : Prop :=
  sent (response_of st) = None /\ broken (response_of st) = None.

(** The state after the status [c] and the bytes [d] have gone out on a
    fresh writer with the headers [h]. *)
Definition written {S} (c : Z) (h : header) (d : list byte) (st : State S) : State S :=
  with_rw (fun w =>
    {| ResponseWriter :=
         {| HeaderMap := h; sent := Some (c, h);
            Body := Body (ResponseWriter w) ++ d; broken := None |};
       code := c; err := err w |}) st.

(** The state in which a header has been set. *)
Definition header_set {S} (k v : string) (st : State S) : State S :=
  with_rw (with_writer (fun w =>
    {| HeaderMap := header_Set k v (HeaderMap w); sent := sent w;
       Body := Body w; broken := broken w |})) st.

Definition json_content_type : string := "application/json; charset=utf-8".

(** The bytes [RespondData] writes for a JSON payload and the status it
    writes them under: the marshalled payload under the given status,
    or the formatted marshalling error under 500. *)
Definition json_response `{Ext : Externals} (rev : Revision) (c : Z) (d : Data) : Z * list byte :=
  match json_Marshal d with
  | inl jData => (c, jData)
  | inr err1 =>
      (StatusInternalServerError,
       String.list_byte_of_string (sprintf_error (reported rev err1)))
  end.

(** The envelope as the interface description words it: an object under
    the key error for an error with structured fields, the bare message
    under that key otherwise. *)
Definition described_envelope (e : error) : any :=
  match e with
  | ErrNerr _ => AMap {["error" := AMap (errorMap e)]}
  | ErrPlain msg => AMap {["error" := AStr msg]}
  end.

Definition member (k : string) (v : any) : option any :=
  match v with
  | AMap m => m !! k
  | _ => None
  end.

Definition detail_of (e : error) : string :=
  match e with
  | ErrNerr ne => TopOp ne
  | ErrPlain msg => msg
  end.

(** The state [logRequest] hands to the next handler: the wrapper is new,
    with code 200 and no error, around the writer that came in. *)
Definition wrapped {S} (st : State S) : State S :=
  with_rw (fun w0 =>
    {| ResponseWriter := ResponseWriter w0; code := StatusOK; err := None |}) st.

(** [st] with one more line handed to the logger. *)
Definition logged {S} (e : logEntry) (st : State S) : State S :=
  {| rw := rw st; logger := logger st ++ [e]; clock := clock st;
     sessions := sessions st; store := store st |}.

(** A handler that answers every request with the status [c] and a
    short text, after [elapsed] ticks of the clock. *)
Definition answering (c elapsed : Z) : Handler unit :=
  fun w r =>
    bind (modify (fun st =>
            {| rw := rw st; logger := logger st; clock := clock st + elapsed;
               sessions := sessions st; store := store st |}))
         (fun _ => RespondData (Ext := Demo.externals) Current w c "text/plain"
                     (Some (DString "done"))).

(** The state after a login as u1 under the cookie sid and the key uid,
    on the in-memory store; and after a login as user 42 in the earlier
    revision. *)
Definition logged_in : State (gmap string nat) :=
  final (StartSession (Ext := Demo.externals) Demo.memory_store AsEx (Demo.request EmptyString)
           "u1" 3600 "sid" "uid" false true (Demo.fresh_state ∅)).

Definition legacy_logged_in : State (gmap string nat) :=
  final (Legacy.StartSession Demo.memory_store AsEx (Demo.request EmptyString)
           42 3600 (Demo.fresh_state ∅)).

Definition demo_options (age : Z) (httpOnly : bool) : Options :=
  {| Path := "/"; Domain := EmptyString; MaxAge := age; Secure := false;
     HttpOnly := httpOnly; SameSite := 0 |}.

(** ** Vocabulary of the registrar's properties *)

Section RegistrarVocabulary.
Context {H : Type}.

Definition subroute_of (op : registration H) : string :=
  match op with
  | RegRoute subroute _ _ _ => subroute
  | RegMiddleware subroute _ => subroute
  end.

(** What a registration does to the router it lands on. *)
Definition apply_registration (op : registration H) (m : muxRouter H) : muxRouter H :=
  match op with
  | RegRoute _ route handler methods => mux_HandleFunc route handler methods m
  | RegMiddleware _ mwf => mux_Use (captured_funcs mwf) m
  end.

(** The shape [AddRoute] and [AddMiddleware] share: act on the root for
    an empty sub-path, on the sub-path's group otherwise. *)
Definition on_group (subroute : string) (f : muxRouter H -> muxRouter H)
    (d : RouterData H) : RouterData H :=
  if (String.length subroute =? 0)%nat
  then on_mux f d
  else
    let '(r, d') := getSubrouter subroute d in
    on_router r f d'.

(** The router that the registrations made under [path] build up, one
    after the other, from [init]. *)
Definition view (init : muxRouter H) (path : string) (ops : list (registration H)) : muxRouter H :=
  fold_left (fun m op => if decide (subroute_of op = path) then apply_registration op m else m)
    ops init.

(** The middleware functions installed under [path], in the order of the
    calls, each call contributing what its loop captured. *)
Definition installed (path : string) (ops : list (registration H)) : list (H -> H) :=
  concat (omap (fun op => match op with
                          | RegMiddleware subroute mwf =>
                              if decide (subroute = path) then Some (captured_funcs mwf) else None
                          | RegRoute _ _ _ _ => None
                          end) ops).

(** The middleware functions the callers passed under [path], in the
    order of the calls and, within a call, of the arguments. *)
Definition passed (path : string) (ops : list (registration H)) : list (H -> H) :=
  concat (omap (fun op => match op with
                          | RegMiddleware subroute mwf =>
                              if decide (subroute = path) then Some mwf else None
                          | RegRoute _ _ _ _ => None
                          end) ops).

(** The handlers added under [path], in order. *)
Definition added (path : string) (ops : list (registration H)) : list H :=
  omap (fun op => match op with
                  | RegRoute subroute _ handler _ =>
                      if decide (subroute = path) then Some handler else None
                  | RegMiddleware _ _ => None
                  end) ops.

(** The state of the registrar agrees with the history [ops] of
    registrations since [New builtin]. *)
Record agrees (builtin : list (H -> H)) (ops : list (registration H)) (d : RouterData H) : Prop := {
  agrees_root_key : subrouters d !! EmptyString = None;
  agrees_groups : forall path, groups_under path d = option_list (subrouters d !! path);
  agrees_inj : forall p1 p2 sr,
    subrouters d !! p1 = Some sr -> subrouters d !! p2 = Some sr -> p1 = p2;
  agrees_cached : forall path sr,
    subrouters d !! path = Some sr -> routers d !! sr = Some (view mux_NewRouter path ops);
  agrees_absent : forall path,
    path <> EmptyString -> subrouters d !! path = None ->
    view mux_NewRouter path ops = mux_NewRouter;
  agrees_root_mw :
    middlewares (mux d) = middlewares (view (mux_Use builtin mux_NewRouter) EmptyString ops);
  agrees_root_handlers :
    handlers_of (mux d) = handlers_of (view (mux_Use builtin mux_NewRouter) EmptyString ops)
}.

End RegistrarVocabulary.

(** ** Vocabulary of the further properties *)

(** The state after the status [c] has gone out with the headers as they
    are, and nothing was written to the body. *)
Definition status_sent {S} (c : Z) (st : State S) : State S :=
  with_rw (fun w =>
    {| ResponseWriter :=
         {| HeaderMap := HeaderMap (ResponseWriter w);
            sent := Some (c, HeaderMap (ResponseWriter w));
            Body := Body (ResponseWriter w); broken := broken (ResponseWriter w) |};
       code := c; err := err w |}) st.

(** The headers after [RespondData] has dealt with the content type of a
    string or byte payload: set when it is not empty. *)
Definition with_content_type (contentType : string) (h : header) : header :=
  if (0 <? String.length contentType)%nat then header_Set "Content-Type" contentType h else h.

(** [P] is kept by every step the responders are made of: setting a
    header, recording a code or an error on the wrapper, the embedded
    writer's [WriteHeader] and [Write], and a line to the logger. *)
Definition kept_by_steps {S} (P : State S -> Prop) : Prop :=
  (forall k v, keeps P (Header_Set k v)) /\
  (forall c, keeps P (modify (with_rw (with_code c)))) /\
  (forall e, keeps P (modify (with_rw (with_err e)))) /\
  (forall c, keeps P (inner_WriteHeader c)) /\
  (forall d, keeps P (inner_Write d)) /\
  (forall e, keeps P (log e)).

(** [st] has the session objects and the store state of [st0], and its
    log is the log of [st0] with lines added at the end. *)
Definition responded_from {S} (st0 st : State S) : Prop :=
  sessions st = sessions st0 /\ store st = store st0 /\
  exists more, logger st = logger st0 ++ more.

(** The state with the capture wrapper's code and error replaced. *)
Definition with_capture {S} (c : Z) (e : option error) (st : State S) : State S :=
  with_rw (fun w => {| ResponseWriter := ResponseWriter w; code := c; err := e |}) st.

(** A handler that answers with [RespondError]. *)
Definition failing_with `{Ext : Externals} {S} (rev : Revision) (c : Z) (e : error) : Handler S :=
  fun w _ => RespondError rev w c e.

(** A handler that answers with a text and then, once more, with an
    error. *)
Definition answering_twice `{Ext : Externals} {S} (rev : Revision)
    (c1 : Z) (contentType text : string) (c2 : Z) (e : error) : Handler S :=
  fun w _ =>
    bind (RespondData rev w c1 contentType (Some (DString text)))
         (fun _ => RespondError rev w c2 e).

(** The options [StartSession] gives a session in the current revision. *)
Definition login_options (sessionAge : Z) (secure httpOnly : bool) : Options :=
  {| Path := "/"; Domain := EmptyString; MaxAge := sessionAge;
     Secure := secure; HttpOnly := httpOnly; SameSite := 0 |}.

(** The handlers registered on the root, as served: wrapped in the
    root's middlewares. *)
Definition served_root {H : Type} (d : RouterData H) : list H :=
  map (chain (middlewares (mux d))) (handlers_of (mux d)).

(** What [RespondData] settles on for a payload, before it writes: the
    status, the header map, and the bytes to write ([None] when
    [WriteHeaderAndData] is given a nil slice).  [h] is the header map
    it found. *)
Definition plain_response `{Ext : Externals} (rev : Revision) (c : Z) (contentType : string)
    (d : Data) (h : header) : Z * header * option (list byte) :=
  if strings_Contains contentType "application/json" then
    (fst (json_response rev c d), with_content_type contentType h,
     Some (snd (json_response rev c d)))
  else
    match d with
    | DString s => (c, with_content_type contentType h, Some (String.list_byte_of_string s))
    | DBytes b => (c, with_content_type contentType h, b)
    | DValue _ =>
        (StatusInternalServerError,
         header_Set "Content-Type" "text/html; charset=utf-8" h,
         Some (String.list_byte_of_string "unknown data type"))
    end.

(** The state with the header map of the writer replaced. *)
Definition with_headers {S} (h : header) (st : State S) : State S :=
  with_rw (with_writer (fun w =>
    {| HeaderMap := h; sent := sent w; Body := Body w; broken := broken w |})) st.

(** A request state whose writer fails every write. *)
Definition broken_state : State unit :=
  {| rw := {| ResponseWriter :=
                {| HeaderMap := ∅; sent := None; Body := [];
                   broken := Some (ErrPlain "broken pipe") |};
              code := StatusOK; err := None |};
     logger := []; clock := 0; sessions := ∅; store := tt |}.

(** The state after the bytes [d] were written, under the code [c], on
    a response whose status had already gone out. *)
Definition appended {S} (c : Z) (d : list byte) (st : State S) : State S :=
  with_rw (fun w =>
    {| ResponseWriter :=
         {| HeaderMap := HeaderMap (ResponseWriter w); sent := sent (ResponseWriter w);
            Body := Body (ResponseWriter w) ++ d; broken := None |};
       code := c; err := err w |}) st.

(** * Properties *)

Local Ltac run :=
  unfold bind, ret, modify, panic, log, get, call, Header_Set, set_content_type,
    inner_WriteHeader, inner_Write; simpl.

Section WrapperFacts.
Context `{Ext : Externals} {S : Type}.
Implicit Types (st : State S) (c : Z).

Lemma WriteHeader_nonpositive c st :
  c <= 0 -> WriteHeader c st = Panicked (PanicError (nerr_msg "invalid status code")) st.
Proof.
  intros Hc. unfold WriteHeader.
  destruct (Z.leb_spec c 0) as [_|Hlt]; [reflexivity | lia].
Qed.

Lemma WriteHeaderAndData_nonpositive c data st :
  c <= 0 ->
  WriteHeaderAndData c data st = Panicked (PanicError (nerr_msg "invalid status code")) st.
Proof.
  intros Hc. unfold WriteHeaderAndData.
  destruct (Z.leb_spec c 0) as [_|Hlt]; [reflexivity | lia].
Qed.

(** Past the guard, [WriteHeader] is the assignment followed by the
    embedded writer's [WriteHeader]. *)
Lemma WriteHeader_positive c st :
  0 < c ->
  WriteHeader c st = inner_WriteHeader c (with_rw (with_code c) st).
Proof.
  intros Hc. unfold WriteHeader.
  destruct (Z.leb_spec c 0) as [Hle|_]; [lia | reflexivity].
Qed.

Lemma inner_WriteHeader_code c st :
  code (rw (final (inner_WriteHeader c st))) = code (rw st).
Proof.
  unfold inner_WriteHeader.
  destruct (recorder_WriteHeader c (ResponseWriter (rw st))); reflexivity.
Qed.

Lemma inner_WriteHeader_panic c st p st' :
  inner_WriteHeader c st = Panicked p st' -> p = PanicString "invalid WriteHeader code".
Proof.
  unfold inner_WriteHeader, recorder_WriteHeader.
  destruct (sent (ResponseWriter (rw st))); [discriminate|].
  destruct ((c <? 100) || (999 <? c)); [|discriminate].
  intros [= <- _]. reflexivity.
Qed.

Lemma WriteHeaderAndData_positive c data st :
  0 < c ->
  WriteHeaderAndData c data st =
    match inner_WriteHeader c (with_rw (with_code c) st) with
    | Done _ st1 =>
        match data with
        | None => Done (0, None) st1
        | Some d => inner_Write d st1
        end
    | Panicked p st1 => Panicked p st1
    end.
Proof.
  intros Hc. unfold WriteHeaderAndData.
  destruct (Z.leb_spec c 0) as [Hle|_]; [lia|].
  run. destruct (recorder_WriteHeader _ _); [|reflexivity].
  destruct data; reflexivity.
Qed.

Lemma inner_Write_code d st :
  code (rw (final (inner_Write d st))) = code (rw st).
Proof.
  unfold inner_Write, recorder_Write.
  destruct (broken (ResponseWriter (rw st))); reflexivity.
Qed.

Lemma inner_Write_done d st : exists r st', inner_Write d st = Done r st'.
Proof.
  unfold inner_Write. destruct (recorder_Write d (ResponseWriter (rw st))) as [w' r].
  eauto.
Qed.

End WrapperFacts.

(** C6.  A status code [c <= 0] given to the wrapper's [WriteHeader] or
    [WriteHeaderAndData] makes it panic with the request state exactly
    as it was: no status recorded, nothing written.  For [c > 0] neither
    method raises that panic, and the state they leave, whether the
    embedded writer accepted the code or not, has [c] as the recorded
    status. *)
Theorem C6_nonpositive_status_aborts `{Ext : Externals} {S : Type}
    (c : Z) (data : option (list byte)) (st : State S) :
  (c <= 0 ->
     WriteHeader c st = Panicked (PanicError (nerr_msg "invalid status code")) st /\
     WriteHeaderAndData c data st = Panicked (PanicError (nerr_msg "invalid status code")) st) /\
  (0 < c ->
     (forall st', WriteHeader c st <> Panicked (PanicError (nerr_msg "invalid status code")) st') /\
     (forall st', WriteHeaderAndData c data st <> Panicked (PanicError (nerr_msg "invalid status code")) st') /\
     code (rw (final (WriteHeader c st))) = c /\
     code (rw (final (WriteHeaderAndData c data st))) = c).
Proof.
  split.
  - intros Hc. split.
    + by apply WriteHeader_nonpositive.
    + by apply WriteHeaderAndData_nonpositive.
  - intros Hc.
    rewrite (WriteHeader_positive c st Hc), (WriteHeaderAndData_positive c data st Hc).
    repeat split.
    + intros st' Hp. apply inner_WriteHeader_panic in Hp. discriminate.
    + intros st'.
      destruct (inner_WriteHeader c (with_rw (with_code c) st)) as [[] st1|p st1] eqn:Hw.
      * destruct data as [d|]; [|discriminate].
        destruct (inner_Write_done d st1) as (r & st2 & ->). discriminate.
      * intros [= -> _]. apply inner_WriteHeader_panic in Hw. discriminate.
    + by rewrite inner_WriteHeader_code.
    + pose proof (inner_WriteHeader_code c (with_rw (with_code c) st)) as Hcode.
      destruct (inner_WriteHeader c (with_rw (with_code c) st)) as [[] st1|p st1];
        simpl in Hcode.
      * destruct data as [d|]; [|exact Hcode].
        by rewrite inner_Write_code.
      * exact Hcode.
Qed.

(** C6 at the codes 0 and 404 on a fresh writer. *)
Lemma C6_nonpositive_status_aborts_witness :
  let st := Demo.fresh_state tt in
  let abort := PanicError (nerr_msg (Ext := Demo.externals) "invalid status code") in
  (WriteHeader (Ext := Demo.externals) 0 st = Panicked abort st /\
   WriteHeaderAndData (Ext := Demo.externals) 0 (Some [x61]) st = Panicked abort st) /\
  code (rw (final (WriteHeaderAndData (Ext := Demo.externals) 404 (Some [x61]) st))) = 404.
Proof.
  intros st abort. split.
  - apply (proj1 (C6_nonpositive_status_aborts (Ext := Demo.externals) 0 (Some [x61]) st)). lia.
  - apply (proj2 (C6_nonpositive_status_aborts (Ext := Demo.externals) 404 (Some [x61]) st)). lia.
Defined.

(** ** State predicates kept by a computation *)

Section Preservation.
Context {S : Type}.
Implicit Types (P : State S -> Prop).

Lemma keeps_ret {A} P (a : A) : keeps P (ret a).
Proof. intros st HP. exact HP. Qed.

Lemma keeps_panic {A} P p : keeps P (panic (A := A) p).
Proof. intros st HP. exact HP. Qed.

Lemma keeps_bind {A B} P (m : M S A) (k : A -> M S B) :
  keeps P m -> (forall a, keeps P (k a)) -> keeps P (bind m k).
Proof.
  intros Hm Hk st HP. unfold bind.
  specialize (Hm st HP). destruct (m st) as [a st1|p st1]; simpl in *.
  - by apply Hk.
  - exact Hm.
Qed.

Lemma keeps_modify P (f : State S -> State S) :
  (forall st, P st -> P (f st)) -> keeps P (modify f).
Proof. intros Hf st HP. by apply Hf. Qed.

Lemma keeps_if {A} P (b : bool) (m1 m2 : M S A) :
  keeps P m1 -> keeps P m2 -> keeps P (if b then m1 else m2).
Proof. by destruct b. Qed.

End Preservation.

(** ** The plain path sets no header but Content-Type *)

Section ResponderFacts.
Context `{Ext : Externals} {S : Type}.
Implicit Types (st : State S) (k : string).

Lemma keeps_Header_Set k k' v :
  k <> k' -> keeps (S := S) (lacks_header k) (Header_Set k' v).
Proof.
  intros Hne. apply keeps_modify. intros st [Hm Hs]. split; simpl.
  - unfold header_Set. by rewrite lookup_insert_ne.
  - exact Hs.
Qed.

Lemma keeps_set_content_type k ct :
  k <> "Content-Type" -> keeps (S := S) (lacks_header k) (set_content_type ct).
Proof.
  intros Hne. unfold set_content_type. apply keeps_if.
  - by apply keeps_Header_Set.
  - apply keeps_ret.
Qed.

Lemma keeps_inner_WriteHeader k c : keeps (S := S) (lacks_header k) (inner_WriteHeader c).
Proof.
  intros st [Hm Hs]. unfold inner_WriteHeader, recorder_WriteHeader.
  unfold lacks_header, response_of, sent_headers in *.
  destruct (sent (ResponseWriter (rw st))) as [[c0 h0]|] eqn:Hsent; simpl.
  - rewrite Hsent. by split.
  - destruct ((c <? 100) || (999 <? c)); simpl.
    + rewrite Hsent. by split.
    + by split.
Qed.

Lemma keeps_inner_Write k d : keeps (S := S) (lacks_header k) (inner_Write d).
Proof.
  intros st [Hm Hs]. unfold inner_Write, recorder_Write.
  unfold lacks_header, response_of, sent_headers in *.
  destruct (broken (ResponseWriter (rw st)));
    destruct (sent (ResponseWriter (rw st))) as [[c0 h0]|]; simpl; by split.
Qed.

Lemma keeps_with_code k c : keeps (S := S) (lacks_header k) (modify (with_rw (with_code c))).
Proof. apply keeps_modify. by intros st [Hm Hs]. Qed.

Lemma keeps_with_err k e : keeps (S := S) (lacks_header k) (modify (with_rw (with_err e))).
Proof. apply keeps_modify. by intros st [Hm Hs]. Qed.

Lemma keeps_log k e : keeps (S := S) (lacks_header k) (log e).
Proof. apply keeps_modify. by intros st [Hm Hs]. Qed.

Lemma keeps_WriteHeaderAndData k c data :
  keeps (S := S) (lacks_header k) (WriteHeaderAndData c data).
Proof.
  unfold WriteHeaderAndData. apply keeps_if; [apply keeps_panic|].
  apply keeps_bind; [apply keeps_with_code|intros _].
  apply keeps_bind; [apply keeps_inner_WriteHeader|intros _].
  destruct data; [apply keeps_inner_Write | apply keeps_ret].
Qed.

(** [RespondData] touches no header other than Content-Type. *)
Lemma keeps_RespondData k rev w c ct data :
  k <> "Content-Type" -> keeps (S := S) (lacks_header k) (RespondData rev w c ct data).
Proof.
  intros Hne. unfold RespondData. destruct w; [|apply keeps_panic].
  apply keeps_bind.
  - destruct data as [d|]; [|apply keeps_WriteHeaderAndData].
    apply keeps_if.
    + apply keeps_bind; [by apply keeps_set_content_type|intros _].
      destruct (json_Marshal d); apply keeps_WriteHeaderAndData.
    + destruct d.
      * apply keeps_bind; [by apply keeps_set_content_type|intros _].
        apply keeps_WriteHeaderAndData.
      * apply keeps_bind; [by apply keeps_set_content_type|intros _].
        apply keeps_WriteHeaderAndData.
      * apply keeps_bind; [by apply keeps_Header_Set|intros _].
        apply keeps_WriteHeaderAndData.
  - intros r. destruct (snd r); [apply keeps_log | apply keeps_ret].
Qed.

Lemma keeps_RespondError k rev w c e :
  k <> "Content-Type" -> keeps (S := S) (lacks_header k) (RespondError rev w c e).
Proof.
  intros Hne. unfold RespondError. destruct w; [|apply keeps_panic].
  apply keeps_bind; [apply keeps_with_err|intros _].
  by apply keeps_RespondData.
Qed.

(** The header lacks the requested token exactly when no compression is
    chosen. *)
Lemma chosen_compression_No r compType :
  chosen_compression r compType = CompressionNo <->
  (forall t, token_of compType = Some t -> t ∉ strings_Split (AcceptEncoding r) comma).
Proof.
  unfold chosen_compression, token_of, slices_Contains,
    CompressionNo, CompressionGzip, CompressionDeflate.
  destruct (Z.eqb_spec compType 1) as [->|Hg]; simpl.
  - rewrite andb_true_r, andb_false_r.
    case_bool_decide as Hin; split.
    + discriminate.
    + intros Hno. exfalso. by apply (Hno "gzip").
    + intros _ t [= <-]. exact Hin.
    + done.
  - rewrite andb_false_r.
    destruct (Z.eqb_spec compType 2) as [->|Hd]; simpl.
    + rewrite andb_true_r.
      case_bool_decide as Hin; split.
      * discriminate.
      * intros Hno. exfalso. by apply (Hno "deflate").
      * intros _ t [= <-]. exact Hin.
      * done.
    + rewrite andb_false_r. split; [|done]. intros _ t. discriminate.
Qed.

(** Without a chosen compression, [RespondCompressed] is [RespondData]. *)
Lemma RespondCompressed_plain rev w r c compType ct data st :
  chosen_compression r compType = CompressionNo ->
  RespondCompressed rev w r c compType ct data st = RespondData rev w c ct data st.
Proof.
  intros Hno. unfold RespondCompressed.
  destruct data as [d|]; [|reflexivity].
  destruct w; [|reflexivity].
  by rewrite Hno.
Qed.

End ResponderFacts.

(** C7.  When the pieces of the request's Accept-Encoding header do not
    include the token of the requested compression kind,
    [RespondCompressed] does exactly what [RespondData] does with the
    same arguments: the same outcome and the same final state, so the
    same status, headers and body.  A response that had no
    Content-Encoding header before has none after, neither in its header
    map nor among the headers sent. *)
Theorem C7_fallback_is_plain_response `{Ext : Externals} {S : Type}
    (rev : Revision) (w : httpResponseWriter) (r : Request) (c : Z)
    (compType : CompressionType) (contentType : string) (data : option Data)
    (st : State S) :
  (forall t, token_of compType = Some t -> t ∉ strings_Split (AcceptEncoding r) comma) ->
  RespondCompressed rev w r c compType contentType data st =
    RespondData rev w c contentType data st /\
  (lacks_header "Content-Encoding" st ->
   lacks_header "Content-Encoding"
     (final (RespondCompressed rev w r c compType contentType data st))).
Proof.
  intros Hno. apply chosen_compression_No in Hno.
  rewrite (RespondCompressed_plain rev w r c compType contentType data st Hno).
  split; [reflexivity|].
  by apply keeps_RespondData.
Qed.

(** C7 for a client that accepts only deflate while gzip is requested. *)
Lemma C7_fallback_is_plain_response_witness :
  let st := Demo.fresh_state tt in
  let r := Demo.request "deflate" in
  RespondCompressed (Ext := Demo.externals) Current AsEx r 200 CompressionGzip "text/plain"
      (Some (DString "hello")) st =
    RespondData (Ext := Demo.externals) Current AsEx 200 "text/plain" (Some (DString "hello")) st /\
  lacks_header "Content-Encoding"
    (final (RespondCompressed (Ext := Demo.externals) Current AsEx r 200 CompressionGzip
              "text/plain" (Some (DString "hello")) st)).
Proof.
  intros st r.
  assert (Hno : forall t, token_of CompressionGzip = Some t ->
                  t ∉ strings_Split (AcceptEncoding r) comma).
  { intros t Ht. vm_compute in Ht. injection Ht as <-.
    vm_compute. intros Hin. apply list_elem_of_In in Hin. simpl in Hin.
    destruct Hin as [Heq|[]]. discriminate Heq. }
  pose proof (C7_fallback_is_plain_response (Ext := Demo.externals) Current AsEx r 200
                CompressionGzip "text/plain" (Some (DString "hello")) st Hno) as [Heq Hkeep].
  split; [exact Heq|].
  apply Hkeep. split; reflexivity.
Defined.

(** ** The compressed path *)

Section CompressedPath.
Context `{Ext : Externals} {S : Type}.
Implicit Types (st : State S) (c : Z).

Lemma WriteHeaderAndData_fresh c d st :
  fresh_writer st -> 100 <= c <= 999 ->
  WriteHeaderAndData c (Some d) st =
    Done (Z.of_nat (length d), None) (written c (HeaderMap (response_of st)) d st).
Proof.
  intros [Hsent Hbroken] Hc. unfold response_of in *.
  rewrite WriteHeaderAndData_positive by lia.
  unfold inner_WriteHeader, recorder_WriteHeader, inner_Write, recorder_Write. simpl.
  rewrite Hsent.
  destruct (Z.ltb_spec c 100) as [?|_]; [lia|].
  destruct (Z.ltb_spec 999 c) as [?|_]; [lia|]. simpl.
  rewrite Hbroken. reflexivity.
Qed.

Lemma fresh_writer_header_set k v st : fresh_writer st -> fresh_writer (header_set k v st).
Proof. by intros [Hs Hb]. Qed.

Lemma fresh_writer_with_err e st : fresh_writer st -> fresh_writer (with_rw (with_err e) st).
Proof. by intros [Hs Hb]. Qed.

(** A requested kind whose token is among the pieces of the header is
    the compression chosen. *)
Lemma chosen_compression_token r compType t :
  token_of compType = Some t ->
  t ∈ strings_Split (AcceptEncoding r) comma ->
  chosen_compression r compType = compType /\
  (compType = CompressionGzip /\ t = "gzip" \/ compType = CompressionDeflate /\ t = "deflate").
Proof.
  unfold chosen_compression, token_of, slices_Contains,
    CompressionNo, CompressionGzip, CompressionDeflate.
  destruct (Z.eqb_spec compType 1) as [->|Hg]; simpl.
  - intros [= <-] Hin. rewrite bool_decide_eq_true_2 by done. simpl. by split; [|left].
  - destruct (Z.eqb_spec compType 2) as [->|Hd]; [|discriminate].
    intros [= <-] Hin. rewrite andb_false_r.
    rewrite bool_decide_eq_true_2 by done. simpl. by split; [|right].
Qed.

(** What [RespondCompressed] does once a compression is chosen and the
    source bytes are there. *)
Lemma RespondCompressed_chosen rev r c compType ct d src t st :
  token_of compType = Some t ->
  t ∈ strings_Split (AcceptEncoding r) comma ->
  sourceData d = inl src ->
  RespondCompressed rev AsEx r c compType ct (Some d) st =
    match CompressData (compType =? CompressionDeflate) src with
    | inr e => RespondError rev AsEx StatusInternalServerError e (header_set "Content-Encoding" t st)
    | inl compressedData =>
        bind (WriteHeaderAndData c (Some compressedData)) (fun _ => ret tt)
          (header_set "Content-Type" ct (header_set "Content-Encoding" t st))
    end.
Proof.
  intros Ht Hin Hsrc.
  destruct (chosen_compression_token r compType t Ht Hin) as [Hch Hkind].
  unfold RespondCompressed. rewrite Hch, Hsrc.
  destruct Hkind as [[-> ->]|[-> ->]]; simpl;
    destruct (CompressData _ src); reflexivity.
Qed.

(** On a fresh writer and with an acceptable status code, the body of
    the compressed response is the output of [CompressData] on the
    source bytes, under the matching Content-Encoding header. *)
Lemma RespondCompressed_written rev r c compType ct d src out t st :
  token_of compType = Some t ->
  t ∈ strings_Split (AcceptEncoding r) comma ->
  sourceData d = inl src ->
  CompressData (compType =? CompressionDeflate) src = inl out ->
  fresh_writer st -> 100 <= c <= 999 ->
  RespondCompressed rev AsEx r c compType ct (Some d) st =
    Done tt (written c
               (header_Set "Content-Type" ct
                  (header_Set "Content-Encoding" t (HeaderMap (response_of st))))
               out st).
Proof.
  intros Ht Hin Hsrc Hout Hfresh Hc.
  rewrite (RespondCompressed_chosen rev r c compType ct d src t st Ht Hin Hsrc), Hout.
  unfold bind.
  rewrite WriteHeaderAndData_fresh; [reflexivity| |exact Hc].
  by do 2 apply fresh_writer_header_set.
Qed.

End CompressedPath.

(** What does hold of the compressed path: for a byte slice and for a
    value that marshals, decompressing the body gives the slice, or the
    JSON of the value.  [Decompress] is any inverse of [CompressData]. *)
Lemma compressed_roundtrip_bytes_and_values `{Ext : Externals} {S : Type}
    (Decompress : bool -> list byte -> option (list byte))
    (rev : Revision) (r : Request) (c : Z) (compType : CompressionType)
    (contentType t : string) (d : Data) (src out : list byte) (st : State S) :
  (forall deflate src out, CompressData deflate src = inl out -> Decompress deflate out = Some src) ->
  token_of compType = Some t ->
  t ∈ strings_Split (AcceptEncoding r) comma ->
  match d with
  | DString _ => False
  | DBytes b => src = default [] b
  | DValue _ => json_Marshal d = inl src
  end ->
  CompressData (compType =? CompressionDeflate) src = inl out ->
  fresh_writer st -> Body (response_of st) = [] -> 100 <= c <= 999 ->
  let st' := final (RespondCompressed rev AsEx r c compType contentType (Some d) st) in
  Decompress (compType =? CompressionDeflate) (Body (response_of st')) = Some src /\
  HeaderMap (response_of st') !! "Content-Encoding" = Some [t].
Proof.
  intros Hinv Ht Hin Hd Hout Hfresh Hbody Hc.
  assert (Hsrc : sourceData d = inl src).
  { destruct d; simpl; [done | by subst | done]. }
  rewrite (RespondCompressed_written rev r c compType contentType d src out t st
             Ht Hin Hsrc Hout Hfresh Hc).
  simpl. unfold response_of in Hbody. rewrite Hbody. simpl. split.
  - by apply Hinv.
  - unfold header_Set. rewrite lookup_insert_ne by done. by rewrite lookup_insert_eq.
Qed.

(** C1, at a string payload.  With the token of the requested kind in
    the Accept-Encoding header, a fresh writer and an acceptable status,
    [RespondCompressed] of a string writes the compression of the empty
    byte sequence: the type switch leaves the source bytes empty for a
    string.  Decompressing the body therefore gives no bytes at all, and
    not the bytes of the string unless the string is empty. *)
Theorem C1_string_payload_compressed_as_empty `{Ext : Externals} {S : Type}
    (Decompress : bool -> list byte -> option (list byte))
    (rev : Revision) (r : Request) (c : Z) (compType : CompressionType)
    (contentType t s : string) (out : list byte) (st : State S) :
  (forall deflate src out, CompressData deflate src = inl out -> Decompress deflate out = Some src) ->
  token_of compType = Some t ->
  t ∈ strings_Split (AcceptEncoding r) comma ->
  CompressData (compType =? CompressionDeflate) [] = inl out ->
  fresh_writer st -> Body (response_of st) = [] -> 100 <= c <= 999 ->
  let st' := final (RespondCompressed rev AsEx r c compType contentType (Some (DString s)) st) in
  Body (response_of st') = out /\
  Decompress (compType =? CompressionDeflate) (Body (response_of st')) = Some [] /\
  (s <> EmptyString ->
   Decompress (compType =? CompressionDeflate) (Body (response_of st')) <>
     Some (String.list_byte_of_string s)).
Proof.
  intros Hinv Ht Hin Hout Hfresh Hbody Hc.
  rewrite (RespondCompressed_written rev r c compType contentType (DString s) [] out t st
             Ht Hin eq_refl Hout Hfresh Hc).
  simpl. unfold response_of in Hbody. rewrite Hbody. simpl.
  assert (Hd : Decompress (compType =? CompressionDeflate) out = Some []) by by apply Hinv.
  split; [reflexivity|]. split; [exact Hd|].
  intros Hs. rewrite Hd. intros [= Hnil]. apply Hs.
  rewrite <- (String.string_of_list_byte_of_string s), <- Hnil. reflexivity.
Qed.

(** C1 at the payload hello, gzip requested and accepted. *)
Lemma C1_string_payload_compressed_as_empty_witness :
  let st' := final (RespondCompressed (Ext := Demo.externals) Current AsEx
                      (Demo.request "gzip,deflate") 200 CompressionGzip "text/plain"
                      (Some (DString "hello")) (Demo.fresh_state tt)) in
  Body (response_of st') = [x1f] /\
  Demo.decompress false (Body (response_of st')) = Some [] /\
  Demo.decompress false (Body (response_of st')) <> Some (String.list_byte_of_string "hello").
Proof.
  pose proof (C1_string_payload_compressed_as_empty (Ext := Demo.externals) Demo.decompress
                Current (Demo.request "gzip,deflate") 200 CompressionGzip "text/plain"
                "gzip" "hello" [x1f] (Demo.fresh_state tt)) as H.
  simpl. simpl in H.
  destruct H as (Hb & Hd & Hne).
  - intros deflate src out. unfold Demo.compress. simpl. unfold Demo.compress.
    destruct (16 <? length src)%nat; [discriminate|].
    intros [= <-]. simpl. destruct deflate; reflexivity.
  - reflexivity.
  - vm_compute. apply list_elem_of_In. simpl. by left.
  - reflexivity.
  - split; reflexivity.
  - reflexivity.
  - lia.
  - split; [exact Hb|]. split; [exact Hd|]. apply Hne. discriminate.
Defined.

(** ** The error response *)

Section ErrorResponse.
Context `{Ext : Externals} {S : Type}.
Implicit Types (st : State S) (c : Z).

Lemma RespondData_json_fresh rev c ct d st :
  strings_Contains ct "application/json" = true ->
  fresh_writer st -> 100 <= c <= 999 ->
  RespondData rev AsEx c ct (Some d) st =
    Done tt (written (fst (json_response rev c d))
               (header_Set "Content-Type" ct (HeaderMap (response_of st)))
               (snd (json_response rev c d)) st).
Proof.
  intros Hct Hfresh Hc. unfold RespondData, json_response. rewrite Hct.
  assert (Hlen : (0 <? String.length ct)%nat = true).
  { destruct ct; [discriminate Hct | reflexivity]. }
  unfold set_content_type. rewrite Hlen.
  unfold bind at 1. unfold bind at 1. unfold Header_Set at 1. unfold modify at 1.
  fold (header_set "Content-Type" ct st).
  pose proof (fresh_writer_header_set "Content-Type" ct st Hfresh) as Hfresh'.
  destruct (json_Marshal d) as [jData|err1].
  - by rewrite WriteHeaderAndData_fresh.
  - by rewrite WriteHeaderAndData_fresh.
Qed.

(** [RespondError] on a fresh writer: the error is attached to the
    wrapper and the envelope goes out as JSON. *)
Lemma RespondError_fresh rev c e st :
  fresh_writer st -> 100 <= c <= 999 ->
  RespondError rev AsEx c e st =
    Done tt (written (fst (json_response rev c (DValue (errorEnvelope rev e))))
               (header_Set "Content-Type" json_content_type (HeaderMap (response_of st)))
               (snd (json_response rev c (DValue (errorEnvelope rev e))))
               (with_rw (with_err (Some e)) st)).
Proof.
  intros Hfresh Hc. unfold RespondError.
  unfold bind at 1. unfold modify at 1.
  rewrite RespondData_json_fresh; [reflexivity|reflexivity| |exact Hc].
  by apply fresh_writer_with_err.
Qed.

End ErrorResponse.

(** C4, at a compression that fails.  With the token of the requested
    kind in the Accept-Encoding header and a fresh writer, when
    [CompressData] returns an error the response that goes out has the
    status of the error response (500 when the envelope marshals), the
    uncompressed error body, and still the Content-Encoding header that
    was set before compressing. *)
Theorem C4_failed_compression_keeps_encoding_header `{Ext : Externals} {S : Type}
    (rev : Revision) (r : Request) (c : Z) (compType : CompressionType)
    (contentType t : string) (d : Data) (src : list byte) (e : error) (st : State S) :
  token_of compType = Some t ->
  t ∈ strings_Split (AcceptEncoding r) comma ->
  sourceData d = inl src ->
  CompressData (compType =? CompressionDeflate) src = inr e ->
  fresh_writer st ->
  let st' := final (RespondCompressed rev AsEx r c compType contentType (Some d) st) in
  let envelope := DValue (errorEnvelope rev e) in
  sent_status (response_of st') = Some StatusInternalServerError /\
  Body (response_of st') =
    Body (response_of st) ++ snd (json_response rev StatusInternalServerError envelope) /\
  sent_headers (response_of st') !! "Content-Encoding" = Some [t].
Proof.
  intros Ht Hin Hsrc Herr Hfresh.
  rewrite (RespondCompressed_chosen rev r c compType contentType d src t st Ht Hin Hsrc), Herr.
  rewrite RespondError_fresh;
    [|by apply fresh_writer_header_set|unfold StatusInternalServerError; lia].
  simpl. unfold sent_status, sent_headers, json_response. simpl.
  split; [|split].
  - by destruct (json_Marshal _).
  - reflexivity.
  - unfold header_Set. rewrite lookup_insert_ne by done. by rewrite lookup_insert_eq.
Qed.

(** C4 for a payload the codec refuses. *)
Lemma C4_failed_compression_keeps_encoding_header_witness :
  let payload := String.list_byte_of_string "seventeen bytes.." in
  let st' := final (RespondCompressed (Ext := Demo.externals) Current AsEx
                      (Demo.request "gzip") 200 CompressionGzip "text/plain"
                      (Some (DBytes (Some payload))) (Demo.fresh_state tt)) in
  sent_status (response_of st') = Some 500 /\
  String.string_of_list_byte (Body (response_of st')) =
    "{" +:+ Demo.quote "error" +:+ ":{" +:+ Demo.quote "detail" +:+ ":" +:+
    Demo.quote "short buffer" +:+ "}}" /\
  sent_headers (response_of st') !! "Content-Encoding" = Some ["gzip"].
Proof.
  intros payload.
  pose proof (C4_failed_compression_keeps_encoding_header (Ext := Demo.externals)
                Current (Demo.request "gzip") 200 CompressionGzip "text/plain" "gzip"
                (DBytes (Some payload)) payload (ErrPlain "short buffer")
                (Demo.fresh_state tt)) as H.
  destruct H as (Hs & Hb & Hh).
  - reflexivity.
  - vm_compute. apply list_elem_of_In. simpl. by left.
  - reflexivity.
  - reflexivity.
  - split; reflexivity.
  - cbv zeta. split; [exact Hs|]. split; [|exact Hh].
    rewrite Hb. vm_compute. reflexivity.
Defined.

Lemma errorMap_lookup (e : error) :
  errorMap e !! "detail" = Some (AStr (detail_of e)) /\
  errorMap e !! "code" =
    match e with
    | ErrNerr ne => if TopCode ne =? 0 then None else Some (AInt (TopCode ne))
    | ErrPlain _ => None
    end /\
  errorMap e !! "trace" =
    match e with
    | ErrNerr ne => match Trace ne with [] => None | _ :: _ => Some (AStrs (Trace ne)) end
    | ErrPlain _ => None
    end /\
  (forall k, k <> "detail" -> k <> "code" -> k <> "trace" -> errorMap e !! k = None).
Proof.
  destruct e as [ne|msg]; simpl.
  - destruct (TopCode ne =? 0); destruct (Trace ne) as [|x tr]; simpl;
      repeat split; intros; by simplify_map_eq.
  - repeat split; intros; by simplify_map_eq.
Qed.

(** C5, as it holds.  [RespondError] with a status code the writer
    accepts, on a fresh writer, attaches the error to the wrapper and
    writes the JSON of an envelope (when that marshals).  In the current
    revision the envelope is an object whose one key, error, maps to an
    object: with detail always (the top operation of a [*nerr.Error],
    the message of any other error), code exactly when the top code of a
    [*nerr.Error] is not zero, trace exactly when its trace is not
    empty, and no other key; a plain error is not mapped to its bare
    message.  In the earlier revision the key maps to the message
    string for every error. *)
Theorem C5_error_envelope `{Ext : Externals} {S : Type}
    (rev : Revision) (c : Z) (e : error) (j : list byte) (st : State S) :
  fresh_writer st -> 100 <= c <= 999 ->
  json_Marshal (DValue (errorEnvelope rev e)) = inl j ->
  (exists st', RespondError rev AsEx c e st = Done tt st' /\
     Body (response_of st') = Body (response_of st) ++ j /\
     sent_status (response_of st') = Some c /\
     sent_headers (response_of st') !! "Content-Type" = Some [json_content_type] /\
     code (rw st') = c /\ err (rw st') = Some e) /\
  match rev with
  | Current =>
      exists m, errorEnvelope rev e = AMap {["error" := AMap m]} /\
        m !! "detail" = Some (AStr (detail_of e)) /\
        m !! "code" =
          match e with
          | ErrNerr ne => if TopCode ne =? 0 then None else Some (AInt (TopCode ne))
          | ErrPlain _ => None
          end /\
        m !! "trace" =
          match e with
          | ErrNerr ne => match Trace ne with [] => None | _ :: _ => Some (AStrs (Trace ne)) end
          | ErrPlain _ => None
          end /\
        (forall k, k <> "detail" -> k <> "code" -> k <> "trace" -> m !! k = None)
  | Earlier => errorEnvelope rev e = AMap {["error" := AStr (Error e)]}
  end.
Proof.
  intros Hfresh Hc Hj. split.
  - eexists. split; [by apply RespondError_fresh|].
    unfold json_response. rewrite Hj. simpl.
    unfold sent_status, sent_headers, header_Set. simpl.
    repeat split. by rewrite lookup_insert_eq.
  - destruct rev; [|reflexivity].
    exists (errorMap e). split; [reflexivity|]. apply errorMap_lookup.
Qed.

(** C5 for a plain error and status 400. *)
Lemma C5_error_envelope_witness :
  let e := ErrPlain "boom" in
  let st := Demo.fresh_state tt in
  exists st', RespondError (Ext := Demo.externals) Current AsEx 400 e st = Done tt st' /\
    String.string_of_list_byte (Body (response_of st')) =
      "{" +:+ Demo.quote "error" +:+ ":{" +:+ Demo.quote "detail" +:+ ":" +:+
      Demo.quote "boom" +:+ "}}" /\
    sent_status (response_of st') = Some 400.
Proof.
  intros e st.
  destruct (C5_error_envelope (Ext := Demo.externals) Current 400 e
              (String.list_byte_of_string (Demo.render 8 (errorEnvelope Current e))) st)
    as [(st' & Hrun & Hbody & Hstatus & _) _].
  - split; reflexivity.
  - lia.
  - reflexivity.
  - exists st'. split; [exact Hrun|]. split; [|exact Hstatus].
    rewrite Hbody. vm_compute. reflexivity.
Defined.

(** C5 as worded fails for a plain error in the current revision: the
    key error maps to an object with a detail member, not to the
    message; and in the earlier revision for a [*nerr.Error]: the key
    maps to the message, not to an object. *)
Lemma C5_plain_error_counterexample :
  let ne := {| TopCode := 7; Trace := ["op"]; TopOp := "load"; nerrText := "load: failed" |} in
  member "error" (errorEnvelope Current (ErrPlain "boom")) =
    Some (AMap {["detail" := AStr "boom"]}) /\
  member "error" (described_envelope (ErrPlain "boom")) = Some (AStr "boom") /\
  errorEnvelope Current (ErrPlain "boom") <> described_envelope (ErrPlain "boom") /\
  errorEnvelope Earlier (ErrNerr ne) <> described_envelope (ErrNerr ne).
Proof.
  intros ne. split; [|split; [|split]].
  - unfold errorEnvelope, member, errorMap. by rewrite lookup_singleton_eq.
  - unfold described_envelope, member. by rewrite lookup_singleton_eq.
  - intros Heq. apply (f_equal (member "error")) in Heq.
    unfold errorEnvelope, described_envelope, member in Heq.
    rewrite !lookup_singleton_eq in Heq. discriminate.
  - intros Heq. apply (f_equal (member "error")) in Heq.
    unfold errorEnvelope, described_envelope, member in Heq.
    rewrite !lookup_singleton_eq in Heq. discriminate.
Qed.

(** ** The access logger *)

Section AccessLog.
Context `{Ext : Externals} {S : Type}.
Implicit Types (st : State S) (next : Handler S).

(** When the next handler returns, [logRequest] returns, having handed
    the logger one line if the captured status is 400 or more and none
    otherwise. *)
Lemma logRequest_returns next w r st st' :
  next AsEx r (wrapped st) = Done tt st' ->
  logRequest next w r st =
    Done tt (if StatusBadRequest <=? code (rw st')
             then logged (access_entry r (rw st') (clock st) (clock st')) st'
             else st').
Proof.
  intros Hnext. unfold logRequest. run. fold (wrapped st). rewrite Hnext.
  unfold level_of, StatusInternalServerError, StatusBadRequest.
  destruct (Z.leb_spec 500 (code (rw st'))) as [H5|H5].
  - destruct (Z.leb_spec 400 (code (rw st'))) as [_|H4]; [reflexivity|lia].
  - destruct (Z.leb_spec 400 (code (rw st'))) as [_|H4]; reflexivity.
Qed.

(** A panic of the next handler passes through: nothing is logged. *)
Lemma logRequest_panics next w r st p st' :
  next AsEx r (wrapped st) = Panicked p st' ->
  logRequest next w r st = Panicked p st'.
Proof.
  intros Hnext. unfold logRequest. run. fold (wrapped st). by rewrite Hnext.
Qed.

End AccessLog.

(** C3, as it holds.  When the handler returns leaving the captured
    status 404, [logRequest] hands the logger exactly one line, at the
    warning level; when it leaves 500, exactly one line at the error
    level.  Either line carries the remote address, the status and its
    text, the time elapsed between the two readings of the clock, and
    the error text.  The same holds of every status: each status from
    400 to 499 gives exactly one line at the warning level, each status
    of 500 or more exactly one line at the error level, and no line is
    emitted exactly when the status is below 400. *)
Theorem C3_access_log_tiers `{Ext : Externals} {S : Type}
    (next : Handler S) (w : httpResponseWriter) (r : Request) (st st' : State S) :
  next AsEx r (wrapped st) = Done tt st' ->
  let line lv c :=
    LogLevel lv logRequest_format
      [ArgStr (RemoteAddr r); ArgInt c; ArgStr (http_StatusText c);
       ArgDuration (clock st' - clock st); ArgStr (errorText (err (rw st')))] in
  (code (rw st') = 404 ->
     logRequest next w r st = Done tt (logged (line LevelWarn 404) st')) /\
  (code (rw st') = 500 ->
     logRequest next w r st = Done tt (logged (line LevelError 500) st')) /\
  (code (rw st') < 400 -> logRequest next w r st = Done tt st') /\
  (400 <= code (rw st') < 500 ->
     logRequest next w r st = Done tt (logged (line LevelWarn (code (rw st'))) st')) /\
  (500 <= code (rw st') ->
     logRequest next w r st = Done tt (logged (line LevelError (code (rw st'))) st')) /\
  (logger (final (logRequest next w r st)) = logger st' <-> code (rw st') < 400).
Proof.
  intros Hnext line.
  rewrite (logRequest_returns next w r st st' Hnext).
  unfold StatusBadRequest, access_entry, line, level_of,
    StatusInternalServerError, StatusBadRequest.
  split; [|split; [|split; [|split; [|split]]]].
  - intros Hc. by rewrite Hc.
  - intros Hc. by rewrite Hc.
  - intros Hc. destruct (Z.leb_spec 400 (code (rw st'))); [lia|reflexivity].
  - intros Hc. destruct (Z.leb_spec 400 (code (rw st'))); [|lia].
    destruct (Z.leb_spec 500 (code (rw st'))); [lia|reflexivity].
  - intros Hc. destruct (Z.leb_spec 400 (code (rw st'))); [|lia].
    destruct (Z.leb_spec 500 (code (rw st'))); [reflexivity|lia].
  - destruct (Z.leb_spec 400 (code (rw st'))) as [Hge|Hlt]; simpl.
    + split; [|lia]. intros Heq.
      apply (f_equal length) in Heq. rewrite length_app in Heq. simpl in Heq. lia.
    + split; [intros _; exact Hlt|reflexivity].
Qed.

(** C3 for handlers answering 404, 500, 403 and 503 after three ticks,
    and 302, which leaves no line. *)
Lemma C3_access_log_tiers_witness :
  let r := Demo.request EmptyString in
  let st := Demo.fresh_state tt in
  let line lv c text :=
    LogLevel lv logRequest_format
      [ArgStr "10.0.0.1:4242"; ArgInt c; ArgStr text; ArgDuration 3; ArgStr "-"] in
  logger (final (logRequest (Ext := Demo.externals) (answering 404 3) AsBare r st)) =
    [line LevelWarn 404 "Not Found"] /\
  logger (final (logRequest (Ext := Demo.externals) (answering 500 3) AsBare r st)) =
    [line LevelError 500 "Internal Server Error"] /\
  logger (final (logRequest (Ext := Demo.externals) (answering 403 3) AsBare r st)) =
    [line LevelWarn 403 EmptyString] /\
  logger (final (logRequest (Ext := Demo.externals) (answering 503 3) AsBare r st)) =
    [line LevelError 503 EmptyString] /\
  logger (final (logRequest (Ext := Demo.externals) (answering 302 3) AsBare r st)) = [].
Proof.
  intros r st line.
  split; [|split; [|split; [|split]]].
  - destruct (answering 404 3 AsEx r (wrapped st)) as [[] st'|p st'] eqn:Hrun;
      [|discriminate Hrun].
    pose proof (C3_access_log_tiers (Ext := Demo.externals) (answering 404 3) AsBare r st st' Hrun)
      as (H404 & _).
    injection Hrun as <-.
    rewrite H404; reflexivity.
  - destruct (answering 500 3 AsEx r (wrapped st)) as [[] st'|p st'] eqn:Hrun;
      [|discriminate Hrun].
    pose proof (C3_access_log_tiers (Ext := Demo.externals) (answering 500 3) AsBare r st st' Hrun)
      as (_ & H500 & _).
    injection Hrun as <-.
    rewrite H500; reflexivity.
  - destruct (answering 403 3 AsEx r (wrapped st)) as [[] st'|p st'] eqn:Hrun;
      [|discriminate Hrun].
    pose proof (C3_access_log_tiers (Ext := Demo.externals) (answering 403 3) AsBare r st st' Hrun)
      as (_ & _ & _ & Hwarn & _).
    injection Hrun as <-.
    rewrite Hwarn; [reflexivity|simpl; lia].
  - destruct (answering 503 3 AsEx r (wrapped st)) as [[] st'|p st'] eqn:Hrun;
      [|discriminate Hrun].
    pose proof (C3_access_log_tiers (Ext := Demo.externals) (answering 503 3) AsBare r st st' Hrun)
      as (_ & _ & _ & _ & Herror & _).
    injection Hrun as <-.
    rewrite Herror; [reflexivity|simpl; lia].
  - destruct (answering 302 3 AsEx r (wrapped st)) as [[] st'|p st'] eqn:Hrun;
      [|discriminate Hrun].
    pose proof (C3_access_log_tiers (Ext := Demo.externals) (answering 302 3) AsBare r st st' Hrun)
      as (_ & _ & Hnone & _).
    injection Hrun as <-.
    rewrite Hnone; [reflexivity|simpl; lia].
Defined.

(** C3 as worded fails at 404: the handler leaves the captured status
    404 and the logger has received a line. *)
Lemma C3_not_found_is_logged_counterexample :
  let r := Demo.request EmptyString in
  let st := Demo.fresh_state tt in
  code (rw (final (answering 404 3 AsEx r (wrapped st)))) = 404 /\
  logger (final (logRequest (Ext := Demo.externals) (answering 404 3) AsBare r st)) <> [].
Proof.
  intros r st. split; [reflexivity|]. vm_compute. discriminate.
Qed.

(** ** The session manager *)

Section SessionFacts.
Context `{Ext : Externals} {S : Type} (sessionStore : Store S).
Implicit Types (st : State S) (r : Request) (session : Session).

(** [CheckSession] after a retrieval without error, by the cases of the
    session the pointer refers to. *)
Lemma CheckSession_retrieved r cookieName cookieKey st st1 p session :
  store_Get sessionStore r cookieName st = ((Some p, None), st1) ->
  sessions st1 !! p = Some session ->
  CheckSession sessionStore r cookieName cookieKey st =
    match Values session !! cookieKey with
    | None => Done (EmptyString, Some (nerr_msg "unauthorized")) st1
    | Some ID =>
        match SessionOptions session with
        | None => Panicked nil_dereference st1
        | Some o =>
            if MaxAge o <? 0 then Done (EmptyString, Some (nerr_msg "unauthorized")) st1
            else match ID with
                 | VString userID => Done (userID, None) st1
                 | _ => Panicked failed_assertion st1
                 end
        end
    end.
Proof.
  intros Hget Hp. unfold CheckSession, deref. run. rewrite Hget. simpl. rewrite Hp.
  destruct (Values session !! cookieKey) as [ID|]; [|reflexivity].
  destruct (SessionOptions session) as [o|]; [|reflexivity].
  destruct (MaxAge o <? 0); [reflexivity|].
  destruct ID; reflexivity.
Qed.

Lemma Legacy_CheckSession_retrieved r st st1 p session :
  store_Get sessionStore r Legacy.sessionName st = ((Some p, None), st1) ->
  sessions st1 !! p = Some session ->
  Legacy.CheckSession sessionStore r st =
    match Values session !! Legacy.userIDKeyName with
    | None => Done (0, Some (nerr_msg "unauthorized")) st1
    | Some ID =>
        match SessionOptions session with
        | None => Panicked nil_dereference st1
        | Some o =>
            if MaxAge o <? 0 then Done (0, Some (nerr_msg "unauthorized")) st1
            else match ID with
                 | VUint64 userID => Done (userID, None) st1
                 | _ => Panicked failed_assertion st1
                 end
        end
    end.
Proof.
  intros Hget Hp. unfold Legacy.CheckSession, deref. run. rewrite Hget. simpl. rewrite Hp.
  destruct (Values session !! Legacy.userIDKeyName) as [ID|]; [|reflexivity].
  destruct (SessionOptions session) as [o|]; [|reflexivity].
  destruct (MaxAge o <? 0); [reflexivity|].
  destruct ID; reflexivity.
Qed.

End SessionFacts.

(** C8.  After a retrieval without error, [CheckSession] returns the
    unauthorized error exactly when the session has no entry under the
    cookie key or its max-age is negative; and when the entry is a user
    identifier and the max-age is not negative it returns that
    identifier with a nil error.  The same holds of the earlier
    revision, with its fixed cookie name and key and [uint64]
    identifiers. *)
Theorem C8_CheckSession_unauthorized `{Ext : Externals} {S : Type}
    (sessionStore : Store S) (r : Request) (st st1 : State S)
    (p : nat) (session : Session) :
  sessions st1 !! p = Some session ->
  let expired := exists o, SessionOptions session = Some o /\ MaxAge o < 0 in
  (forall cookieName cookieKey,
     store_Get sessionStore r cookieName st = ((Some p, None), st1) ->
     ((exists userID st',
         CheckSession sessionStore r cookieName cookieKey st =
           Done (userID, Some (nerr_msg "unauthorized")) st') <->
      Values session !! cookieKey = None \/ expired) /\
     (forall userID o,
        Values session !! cookieKey = Some (VString userID) ->
        SessionOptions session = Some o -> 0 <= MaxAge o ->
        CheckSession sessionStore r cookieName cookieKey st = Done (userID, None) st1)) /\
  (store_Get sessionStore r Legacy.sessionName st = ((Some p, None), st1) ->
     ((exists userID st',
         Legacy.CheckSession sessionStore r st =
           Done (userID, Some (nerr_msg "unauthorized")) st') <->
      Values session !! Legacy.userIDKeyName = None \/ expired) /\
     (forall userID o,
        Values session !! Legacy.userIDKeyName = Some (VUint64 userID) ->
        SessionOptions session = Some o -> 0 <= MaxAge o ->
        Legacy.CheckSession sessionStore r st = Done (userID, None) st1)).
Proof.
  intros Hp expired. split.
  - intros cookieName cookieKey Hget.
    rewrite (CheckSession_retrieved sessionStore r cookieName cookieKey st st1 p session Hget Hp).
    split.
    + split.
      * intros (userID & st' & Hrun).
        destruct (Values session !! cookieKey) as [ID|]; [|by left].
        right. destruct (SessionOptions session) as [o|]; [|discriminate].
        destruct (Z.ltb_spec (MaxAge o) 0) as [Hneg|_]; [by exists o|].
        destruct ID; discriminate.
      * intros [Hnone|(o & Ho & Hneg)].
        -- rewrite Hnone. eauto.
        -- destruct (Values session !! cookieKey) as [ID|]; [|eauto].
           rewrite Ho. destruct (Z.ltb_spec (MaxAge o) 0); [eauto|lia].
    + intros userID o Hv Ho Hage. rewrite Hv, Ho.
      destruct (Z.ltb_spec (MaxAge o) 0); [lia|reflexivity].
  - intros Hget.
    rewrite (Legacy_CheckSession_retrieved sessionStore r st st1 p session Hget Hp).
    split.
    + split.
      * intros (userID & st' & Hrun).
        destruct (Values session !! Legacy.userIDKeyName) as [ID|]; [|by left].
        right. destruct (SessionOptions session) as [o|]; [|discriminate].
        destruct (Z.ltb_spec (MaxAge o) 0) as [Hneg|_]; [by exists o|].
        destruct ID; discriminate.
      * intros [Hnone|(o & Ho & Hneg)].
        -- rewrite Hnone. eauto.
        -- destruct (Values session !! Legacy.userIDKeyName) as [ID|]; [|eauto].
           rewrite Ho. destruct (Z.ltb_spec (MaxAge o) 0); [eauto|lia].
    + intros userID o Hv Ho Hage. rewrite Hv, Ho.
      destruct (Z.ltb_spec (MaxAge o) 0); [lia|reflexivity].
Qed.

(** C8 on the in-memory store: after a login the identifier comes back,
    in either revision; without one the answer is unauthorized. *)
Lemma C8_CheckSession_unauthorized_witness :
  let r := Demo.request EmptyString in
  CheckSession (Ext := Demo.externals) Demo.memory_store r "sid" "uid" logged_in =
    Done ("u1", None) logged_in /\
  Legacy.CheckSession (Ext := Demo.externals) Demo.memory_store r legacy_logged_in =
    Done (42, None) legacy_logged_in /\
  exists userID st',
    CheckSession (Ext := Demo.externals) Demo.memory_store r "sid" "other" logged_in =
      Done (userID, Some (nerr_msg (Ext := Demo.externals) "unauthorized")) st'.
Proof.
  intros r.
  pose proof (C8_CheckSession_unauthorized (Ext := Demo.externals) Demo.memory_store r
                logged_in logged_in 1%nat
                {| Values := {["uid" := VString "u1"]};
                   SessionOptions := Some (demo_options 3600 true) |} eq_refl) as [Hcur _].
  pose proof (C8_CheckSession_unauthorized (Ext := Demo.externals) Demo.memory_store r
                legacy_logged_in legacy_logged_in 0%nat
                {| Values := {["user_id" := VUint64 42]};
                   SessionOptions := Some (demo_options 3600 false) |} eq_refl) as [_ Hleg].
  split; [|split].
  - apply (proj2 (Hcur "sid" "uid" eq_refl) "u1" (demo_options 3600 true)).
    + reflexivity.
    + reflexivity.
    + simpl. lia.
  - apply (proj2 (Hleg eq_refl) 42 (demo_options 3600 false)).
    + reflexivity.
    + reflexivity.
    + simpl. lia.
  - apply (proj1 (Hcur "sid" "other" eq_refl)). left. reflexivity.
Defined.

(** C10.  After a retrieval without error, when the session has under
    the cookie key a value that is not a string (not a [uint64] in the
    earlier revision) and its max-age is not negative, [CheckSession]
    panics at the type assertion; it returns neither an identifier nor
    an error. *)
Theorem C10_CheckSession_assertion_panics `{Ext : Externals} {S : Type}
    (sessionStore : Store S) (r : Request) (st st1 : State S)
    (p : nat) (session : Session) (o : Options) (ID : sessionValue) :
  sessions st1 !! p = Some session ->
  SessionOptions session = Some o -> 0 <= MaxAge o ->
  (forall cookieName cookieKey,
     store_Get sessionStore r cookieName st = ((Some p, None), st1) ->
     Values session !! cookieKey = Some ID ->
     (forall s, ID <> VString s) ->
     CheckSession sessionStore r cookieName cookieKey st = Panicked failed_assertion st1) /\
  (store_Get sessionStore r Legacy.sessionName st = ((Some p, None), st1) ->
   Values session !! Legacy.userIDKeyName = Some ID ->
   (forall n, ID <> VUint64 n) ->
   Legacy.CheckSession sessionStore r st = Panicked failed_assertion st1).
Proof.
  intros Hp Ho Hage. split.
  - intros cookieName cookieKey Hget Hv Hty.
    rewrite (CheckSession_retrieved sessionStore r cookieName cookieKey st st1 p session Hget Hp).
    rewrite Hv, Ho. destruct (Z.ltb_spec (MaxAge o) 0); [lia|].
    destruct ID; try reflexivity. by destruct (Hty s).
  - intros Hget Hv Hty.
    rewrite (Legacy_CheckSession_retrieved sessionStore r st st1 p session Hget Hp).
    rewrite Hv, Ho. destruct (Z.ltb_spec (MaxAge o) 0); [lia|].
    destruct ID; try reflexivity. by destruct (Hty n).
Qed.

(** C10 on the in-memory store: a session written by one revision and
    checked by the other holds an identifier of the wrong type. *)
Lemma C10_CheckSession_assertion_panics_witness :
  let r := Demo.request EmptyString in
  CheckSession (Ext := Demo.externals) Demo.memory_store r "logserver" "user_id" legacy_logged_in =
    Panicked failed_assertion legacy_logged_in /\
  Legacy.CheckSession (Ext := Demo.externals) Demo.memory_store r
      (final (StartSession (Ext := Demo.externals) Demo.memory_store AsEx r
                "u1" 3600 "logserver" "user_id" false true (Demo.fresh_state ∅))) =
    Panicked failed_assertion
      (final (StartSession (Ext := Demo.externals) Demo.memory_store AsEx r
                "u1" 3600 "logserver" "user_id" false true (Demo.fresh_state ∅))).
Proof.
  intros r.
  pose proof (C10_CheckSession_assertion_panics (Ext := Demo.externals) Demo.memory_store r
                legacy_logged_in legacy_logged_in 0%nat
                {| Values := {["user_id" := VUint64 42]};
                   SessionOptions := Some (demo_options 3600 false) |}
                (demo_options 3600 false) (VUint64 42)) as Hleg.
  pose proof (C10_CheckSession_assertion_panics (Ext := Demo.externals) Demo.memory_store r
                (final (StartSession (Ext := Demo.externals) Demo.memory_store AsEx r
                          "u1" 3600 "logserver" "user_id" false true (Demo.fresh_state ∅)))
                (final (StartSession (Ext := Demo.externals) Demo.memory_store AsEx r
                          "u1" 3600 "logserver" "user_id" false true (Demo.fresh_state ∅)))
                1%nat
                {| Values := {["user_id" := VString "u1"]};
                   SessionOptions := Some (demo_options 3600 true) |}
                (demo_options 3600 true) (VString "u1")) as Hcur.
  split.
  - apply Hleg.
    + reflexivity.
    + reflexivity.
    + simpl. lia.
    + reflexivity.
    + reflexivity.
    + intros s. discriminate.
  - apply Hcur.
    + reflexivity.
    + reflexivity.
    + simpl. lia.
    + reflexivity.
    + reflexivity.
    + intros n. discriminate.
Defined.

(** ** Closing a session *)

Section CloseSessionFacts.
Context `{Ext : Externals} {S : Type} (sessionStore : Store S).
Implicit Types (st : State S) (r : Request).

(** After the deletion, the object behind the pointer has no entry
    under the key. *)
Lemma deleted_key_absent (key : string) (p : nat) st (s : Session) :
  sessions (with_sessions (alter (delete_value key) p) st) !! p = Some s ->
  Values s !! key = None.
Proof.
  simpl. rewrite lookup_alter_eq.
  destruct (sessions st !! p) as [s0|]; simpl; [|discriminate].
  intros [= <-]. simpl. apply lookup_delete_eq.
Qed.

Lemma CloseSession_retrieved w r cookieName cookieKey st p e st1 :
  store_Get sessionStore r cookieName st = ((Some p, e), st1) ->
  CloseSession sessionStore w r cookieName cookieKey st =
    let st2 := with_sessions (alter (delete_value cookieKey) p) st1 in
    match store_Save sessionStore r w p st2 with
    | (Some _, st3) => Done tt (logged (LogError "session save error" []) st3)
    | (None, st3) => Done tt st3
    end.
Proof.
  intros Hget. unfold CloseSession. run. rewrite Hget. simpl.
  destruct (store_Save sessionStore r w p _) as [[e'|] st3]; reflexivity.
Qed.

Lemma CloseSession_nil w r cookieName cookieKey st e st1 :
  store_Get sessionStore r cookieName st = ((None, e), st1) ->
  CloseSession sessionStore w r cookieName cookieKey st = Done tt st1.
Proof.
  intros Hget. unfold CloseSession. run. by rewrite Hget.
Qed.

Lemma Legacy_CloseSession_retrieved w r st p st1 :
  store_Get sessionStore r Legacy.sessionName st = ((Some p, None), st1) ->
  Legacy.CloseSession sessionStore w r st =
    let st2 := with_sessions (alter (delete_value Legacy.userIDKeyName) p) st1 in
    match store_Save sessionStore r w p st2 with
    | (Some _, st3) => Done tt (logged (LogError "session save error" []) st3)
    | (None, st3) => Done tt st3
    end.
Proof.
  intros Hget. unfold Legacy.CloseSession. run. rewrite Hget. simpl.
  destruct (store_Save sessionStore r w p _) as [[e'|] st3]; reflexivity.
Qed.

Lemma Legacy_CloseSession_failed w r st p e st1 :
  store_Get sessionStore r Legacy.sessionName st = ((p, Some e), st1) ->
  Legacy.CloseSession sessionStore w r st =
    Done tt (logged (LogError "session store get error %v" [ArgErr e]) st1).
Proof.
  intros Hget. unfold Legacy.CloseSession. run. by rewrite Hget.
Qed.

Lemma Legacy_CloseSession_nil w r st st1 :
  store_Get sessionStore r Legacy.sessionName st = ((None, None), st1) ->
  Legacy.CloseSession sessionStore w r st = Done tt st1.
Proof.
  intros Hget. unfold Legacy.CloseSession. run. by rewrite Hget.
Qed.

End CloseSessionFacts.

(** C9.  [CloseSession] always returns, with no value, whatever the
    store answers.  When the store hands out a session (in the earlier
    revision: without an error), the entry under the key is deleted from
    that session object and the store's [Save] is called on it in that
    state; a failure of [Save] leaves one line with the logger and
    nothing else.  When no session is handed out nothing is changed
    beyond what the store's [Get] did (the earlier revision logs the
    error of [Get], the current one drops it). *)
Theorem C9_CloseSession_best_effort `{Ext : Externals} {S : Type}
    (sessionStore : Store S) (w : httpResponseWriter) (r : Request)
    (cookieName cookieKey : string) (st : State S) :
  (exists st', CloseSession sessionStore w r cookieName cookieKey st = Done tt st') /\
  (exists st', Legacy.CloseSession sessionStore w r st = Done tt st') /\
  (forall p e st1,
     store_Get sessionStore r cookieName st = ((Some p, e), st1) ->
     let st2 := with_sessions (alter (delete_value cookieKey) p) st1 in
     (forall s, sessions st2 !! p = Some s -> Values s !! cookieKey = None) /\
     CloseSession sessionStore w r cookieName cookieKey st =
       Done tt (match store_Save sessionStore r w p st2 with
                | (Some _, st3) => logged (LogError "session save error" []) st3
                | (None, st3) => st3
                end)) /\
  (forall p st1,
     store_Get sessionStore r Legacy.sessionName st = ((Some p, None), st1) ->
     let st2 := with_sessions (alter (delete_value Legacy.userIDKeyName) p) st1 in
     (forall s, sessions st2 !! p = Some s -> Values s !! Legacy.userIDKeyName = None) /\
     Legacy.CloseSession sessionStore w r st =
       Done tt (match store_Save sessionStore r w p st2 with
                | (Some _, st3) => logged (LogError "session save error" []) st3
                | (None, st3) => st3
                end)) /\
  (forall e st1,
     store_Get sessionStore r cookieName st = ((None, e), st1) ->
     CloseSession sessionStore w r cookieName cookieKey st = Done tt st1) /\
  (forall p e st1,
     store_Get sessionStore r Legacy.sessionName st = ((p, Some e), st1) ->
     Legacy.CloseSession sessionStore w r st =
       Done tt (logged (LogError "session store get error %v" [ArgErr e]) st1)).
Proof.
  split; [|split; [|split; [|split; [|split]]]].
  - destruct (store_Get sessionStore r cookieName st) as [[[p|] e] st1] eqn:Hget.
    + rewrite (CloseSession_retrieved sessionStore w r cookieName cookieKey st p e st1 Hget).
      simpl. destruct (store_Save _ _ _ _ _) as [[e'|] st3]; eauto.
    + rewrite (CloseSession_nil sessionStore w r cookieName cookieKey st e st1 Hget). eauto.
  - destruct (store_Get sessionStore r Legacy.sessionName st) as [[p [e|]] st1] eqn:Hget.
    + rewrite (Legacy_CloseSession_failed sessionStore w r st p e st1 Hget). eauto.
    + destruct p as [p|].
      * rewrite (Legacy_CloseSession_retrieved sessionStore w r st p st1 Hget).
        simpl. destruct (store_Save _ _ _ _ _) as [[e'|] st3]; eauto.
      * rewrite (Legacy_CloseSession_nil sessionStore w r st st1 Hget). eauto.
  - intros p e st1 Hget st2. split.
    + intros s. apply deleted_key_absent.
    + rewrite (CloseSession_retrieved sessionStore w r cookieName cookieKey st p e st1 Hget).
      simpl. fold st2. by destruct (store_Save _ _ _ _ _) as [[e'|] st3].
  - intros p st1 Hget st2. split.
    + intros s. apply deleted_key_absent.
    + rewrite (Legacy_CloseSession_retrieved sessionStore w r st p st1 Hget).
      simpl. fold st2. by destruct (store_Save _ _ _ _ _) as [[e'|] st3].
  - intros e st1 Hget. by apply CloseSession_nil with e.
  - intros p e st1 Hget. by apply Legacy_CloseSession_failed with p.
Qed.

(** C9 on the in-memory store after a login, and on a store whose
    backend is down: the key is gone, and the failure to save is a line
    with the logger. *)
Lemma C9_CloseSession_best_effort_witness :
  let r := Demo.request EmptyString in
  let closed := final (CloseSession Demo.memory_store AsEx r "sid" "uid" logged_in) in
  CloseSession Demo.memory_store AsEx r "sid" "uid" logged_in = Done tt closed /\
  (Values <$> sessions closed !! 1%nat) = Some ∅ /\
  CloseSession Demo.failing_store AsEx r "sid" "uid" logged_in =
    Done tt (logged (LogError "session save error" [])
               (with_sessions (alter (delete_value "uid") 1%nat) logged_in)).
Proof.
  intros r closed.
  pose proof (C9_CloseSession_best_effort (Ext := Demo.externals) Demo.memory_store AsEx r
                "sid" "uid" logged_in) as (_ & _ & Hmem & _).
  pose proof (C9_CloseSession_best_effort (Ext := Demo.externals) Demo.failing_store AsEx r
                "sid" "uid" logged_in) as (_ & _ & Hfail & _).
  destruct (Hmem 1%nat None logged_in eq_refl) as [_ Hrun].
  destruct (Hfail 1%nat (Some (ErrPlain "backend down")) logged_in eq_refl) as [_ Hrun'].
  split; [|split].
  - rewrite Hrun. reflexivity.
  - reflexivity.
  - rewrite Hrun'. reflexivity.
Defined.

(** ** The registrar *)

Section RegistrarFacts.
Context {H : Type}.
Implicit Types (d : RouterData H) (m : muxRouter H) (op : registration H)
  (ops : list (registration H)) (mwf builtin : list (H -> H)) (path : string).

(** The loop leaves in [f] the last function of [mwf], and appends one
    closure per function. *)
Lemma range_mwf_spec mwf (f : option (H -> H)) funcs :
  range_mwf mwf f funcs =
    (match last mwf with Some x => Some x | None => f end,
     funcs ++ replicate (length mwf) (fun f h => f h)).
Proof.
  revert f funcs. induction mwf as [|x rest IH]; intros f funcs; simpl.
  - by rewrite app_nil_r.
  - rewrite IH, <- app_assoc, last_cons. simpl. f_equal.
    by destruct (last rest).
Qed.

(** Every function handed to [Use] is the last one of the call. *)
Lemma captured_funcs_spec mwf :
  captured_funcs mwf =
    match last mwf with
    | Some f => replicate (length mwf) f
    | None => []
    end.
Proof.
  unfold captured_funcs. rewrite range_mwf_spec. simpl.
  destruct (last mwf) as [f|]; [|reflexivity].
  induction (length mwf) as [|n IH]; simpl; [reflexivity|]. by rewrite IH.
Qed.

Lemma captured_funcs_singleton (f : H -> H) : captured_funcs [f] = [f].
Proof. reflexivity. Qed.

Lemma length_zero (s : string) : (String.length s =? 0)%nat = true <-> s = EmptyString.
Proof. destruct s; simpl; split; (done || discriminate). Qed.

Lemma register_on_group d op :
  register d op = on_group (subroute_of op) (apply_registration op) d.
Proof. destruct op; reflexivity. Qed.

Lemma register_all_snoc ops op d :
  register_all (ops ++ [op]) d = register (register_all ops d) op.
Proof. unfold register_all. by rewrite fold_left_app. Qed.

Lemma view_snoc m path ops op :
  view m path (ops ++ [op]) =
    if decide (subroute_of op = path) then apply_registration op (view m path ops)
    else view m path ops.
Proof. unfold view. by rewrite fold_left_app. Qed.

Lemma installed_snoc path ops op :
  installed path (ops ++ [op]) =
    installed path ops ++
    match op with
    | RegMiddleware subroute mwf => if decide (subroute = path) then captured_funcs mwf else []
    | RegRoute _ _ _ _ => []
    end.
Proof.
  unfold installed. rewrite omap_app, concat_app. f_equal.
  destruct op as [s rt h ms|s mwf]; simpl; [reflexivity|].
  destruct (decide (s = path)); simpl; [by rewrite app_nil_r|reflexivity].
Qed.

Lemma added_snoc path ops op :
  added path (ops ++ [op]) =
    added path ops ++
    match op with
    | RegRoute subroute _ handler _ => if decide (subroute = path) then [handler] else []
    | RegMiddleware _ _ => []
    end.
Proof.
  unfold added. rewrite omap_app. f_equal.
  destruct op as [s rt h ms|s mwf]; simpl; [|reflexivity].
  by destruct (decide (s = path)).
Qed.

Lemma middlewares_apply op m :
  middlewares (apply_registration op m) =
    middlewares m ++
    match op with
    | RegMiddleware _ mwf => captured_funcs mwf
    | RegRoute _ _ _ _ => []
    end.
Proof. destruct op; simpl; [by rewrite app_nil_r|reflexivity]. Qed.

Lemma handlers_apply op m :
  handlers_of (apply_registration op m) =
    handlers_of m ++
    match op with
    | RegRoute _ _ handler _ => [handler]
    | RegMiddleware _ _ => []
    end.
Proof.
  destruct op; unfold handlers_of; simpl; [|by rewrite app_nil_r].
  by rewrite omap_app.
Qed.

(** A registration adds no sub-router to the router it lands on. *)
Lemma groups_under_apply path op d :
  groups_under path (on_mux (apply_registration op) d) = groups_under path d.
Proof.
  unfold groups_under. destruct op; simpl; [|reflexivity].
  rewrite omap_app. simpl. by rewrite app_nil_r.
Qed.

(** The view of a path has the middlewares installed under it, and the
    handlers added under it, after those of the router it starts from. *)
Lemma view_middlewares m path ops :
  middlewares (view m path ops) = middlewares m ++ installed path ops.
Proof.
  induction ops as [|op ops IH] using rev_ind.
  - simpl. by rewrite app_nil_r.
  - rewrite view_snoc, installed_snoc, app_assoc, <- IH.
    destruct op as [s rt h ms|s mwf]; simpl.
    + rewrite app_nil_r. by destruct (decide (s = path)).
    + destruct (decide (s = path)); simpl; [reflexivity|by rewrite app_nil_r].
Qed.

Lemma view_handlers m path ops :
  handlers_of (view m path ops) = handlers_of m ++ added path ops.
Proof.
  induction ops as [|op ops IH] using rev_ind.
  - simpl. by rewrite app_nil_r.
  - rewrite view_snoc, added_snoc, app_assoc, <- IH.
    destruct (decide (subroute_of op = path)) as [Heq|Hne].
    + rewrite handlers_apply. f_equal.
      destruct op as [s rt h ms|s mwf]; simpl in *; [|reflexivity].
      by rewrite decide_True.
    + destruct op as [s rt h ms|s mwf]; simpl in *.
      * by rewrite decide_False, app_nil_r.
      * by rewrite app_nil_r.
Qed.

(** [getSubrouter] is a lookup-or-create: asked again, it returns the
    pointer it returned before and changes nothing. *)
Lemma getSubrouter_idempotent path d sr d' :
  getSubrouter path d = (sr, d') -> getSubrouter path d' = (sr, d').
Proof.
  unfold getSubrouter.
  destruct (subrouters d !! path) as [sr0|] eqn:Hl.
  - intros [= <- <-]. by rewrite Hl.
  - intros [= <- <-]. simpl. by rewrite lookup_insert_eq.
Qed.

Lemma agrees_New builtin : agrees builtin [] (New builtin).
Proof.
  split; simpl; done.
Qed.

(** The invariant is kept by a registration on the root. *)
Lemma agrees_on_root builtin ops op d :
  subroute_of op = EmptyString ->
  agrees builtin ops d ->
  agrees builtin (ops ++ [op]) (on_mux (apply_registration op) d).
Proof.
  intros Hroot [Hkey Hgroups Hinj Hcached Habsent Hmw Hh].
  split; simpl.
  - exact Hkey.
  - intros path. rewrite groups_under_apply. apply Hgroups.
  - exact Hinj.
  - intros path sr Hl. rewrite view_snoc, decide_False; [by apply Hcached|].
    rewrite Hroot. intros <-. by rewrite Hkey in Hl.
  - intros path Hne Hl. rewrite view_snoc, decide_False; [by apply Habsent|].
    by rewrite Hroot.
  - rewrite view_snoc, decide_True by done.
    by rewrite !middlewares_apply, Hmw.
  - rewrite view_snoc, decide_True by done.
    by rewrite !handlers_apply, Hh.
Qed.

(** The invariant is kept by a registration on a group that exists. *)
Lemma agrees_on_cached builtin ops op d sr :
  subrouters d !! subroute_of op = Some sr ->
  agrees builtin ops d ->
  agrees builtin (ops ++ [op]) (on_router sr (apply_registration op) d).
Proof.
  intros Hsr [Hkey Hgroups Hinj Hcached Habsent Hmw Hh].
  assert (Hnroot : subroute_of op <> EmptyString).
  { intros Heq. by rewrite Heq, Hkey in Hsr. }
  split; simpl.
  - exact Hkey.
  - exact Hgroups.
  - exact Hinj.
  - intros path sr' Hl. rewrite view_snoc.
    destruct (decide (subroute_of op = path)) as [<-|Hne].
    + assert (sr' = sr) as -> by congruence.
      by rewrite lookup_alter_eq, (Hcached _ _ Hsr).
    + rewrite lookup_alter_ne; [by apply Hcached|].
      intros <-. apply Hne. by apply (Hinj _ _ sr).
  - intros path Hne Hl. rewrite view_snoc, decide_False; [by apply Habsent|].
    intros <-. by rewrite Hsr in Hl.
  - by rewrite view_snoc, decide_False.
  - by rewrite view_snoc, decide_False.
Qed.

(** The invariant is kept by a registration that creates its group. *)
Lemma agrees_on_new builtin ops op d :
  subroute_of op <> EmptyString ->
  subrouters d !! subroute_of op = None ->
  agrees builtin ops d ->
  agrees builtin (ops ++ [op])
    (on_router (fst (getSubrouter (subroute_of op) d)) (apply_registration op)
       (snd (getSubrouter (subroute_of op) d))).
Proof.
  intros Hnroot Hnone [Hkey Hgroups Hinj Hcached Habsent Hmw Hh].
  unfold getSubrouter. rewrite Hnone. simpl.
  set (sr := fresh (dom (routers d))).
  assert (Hfresh : routers d !! sr = None).
  { apply not_elem_of_dom. apply is_fresh. }
  assert (Hother : forall path sr', subrouters d !! path = Some sr' -> sr' <> sr).
  { intros path sr' Hl ->. by rewrite (Hcached _ _ Hl) in Hfresh. }
  split; simpl.
  - by rewrite lookup_insert_ne.
  - intros path. unfold groups_under. simpl. rewrite omap_app. simpl.
    fold (groups_under path d). rewrite Hgroups.
    destruct (decide (subroute_of op = path)) as [<-|Hne].
    + by rewrite Hnone, lookup_insert_eq.
    + rewrite lookup_insert_ne by done. by rewrite app_nil_r.
  - intros p1 p2 sr'.
    destruct (decide (subroute_of op = p1)) as [<-|Hne1];
      destruct (decide (subroute_of op = p2)) as [<-|Hne2];
      rewrite ?lookup_insert_eq, ?lookup_insert_ne by done.
    + done.
    + intros [= <-] Hl. by destruct (Hother _ _ Hl).
    + intros Hl [= <-]. by destruct (Hother _ _ Hl).
    + apply Hinj.
  - intros path sr'. rewrite view_snoc.
    destruct (decide (subroute_of op = path)) as [<-|Hne].
    + rewrite lookup_insert_eq. intros [= <-].
      rewrite lookup_alter_eq, lookup_insert_eq. simpl.
      by rewrite (Habsent _ Hnroot Hnone).
    + rewrite lookup_insert_ne by done. intros Hl.
      pose proof (Hother _ _ Hl) as Hsr.
      rewrite lookup_alter_ne, lookup_insert_ne by done.
      by apply Hcached.
  - intros path Hne. rewrite view_snoc.
    destruct (decide (subroute_of op = path)) as [<-|Hne'].
    + by rewrite lookup_insert_eq.
    + rewrite lookup_insert_ne by done. by apply Habsent.
  - by rewrite view_snoc, decide_False.
  - rewrite view_snoc, decide_False by done.
    rewrite <- Hh. unfold handlers_of. simpl. rewrite omap_app. simpl.
    by rewrite app_nil_r.
Qed.

(** Every registration keeps the invariant. *)
Lemma agrees_register builtin ops op d :
  agrees builtin ops d -> agrees builtin (ops ++ [op]) (register d op).
Proof.
  intros Hd. rewrite register_on_group. unfold on_group.
  destruct (String.length (subroute_of op) =? 0)%nat eqn:Hlen.
  - apply length_zero in Hlen. by apply agrees_on_root.
  - assert (Hnroot : subroute_of op <> EmptyString).
    { intros Heq. apply length_zero in Heq. congruence. }
    destruct (subrouters d !! subroute_of op) as [sr|] eqn:Hl.
    + unfold getSubrouter. rewrite Hl. by apply agrees_on_cached.
    + pose proof (agrees_on_new builtin ops op d Hnroot Hl Hd) as Hnew.
      by destruct (getSubrouter (subroute_of op) d).
Qed.

(** So the registrar agrees with its history after any sequence of
    registrations. *)
Lemma agrees_register_all builtin ops :
  agrees builtin ops (register_all ops (New builtin)).
Proof.
  induction ops as [|op ops IH] using rev_ind.
  - apply agrees_New.
  - rewrite register_all_snoc. by apply agrees_register.
Qed.

(** A sub-path prefix has at most one group, whatever was registered. *)
Lemma group_created_once builtin ops path :
  (length (groups_under path (register_all ops (New builtin))) <= 1)%nat.
Proof.
  rewrite (agrees_groups _ _ _ (agrees_register_all builtin ops)).
  destruct (subrouters _ !! path); simpl; lia.
Qed.

(** A registration under a non-empty sub-path leaves its group cached. *)
Lemma register_caches op d :
  subroute_of op <> EmptyString ->
  is_Some (subrouters (register d op) !! subroute_of op).
Proof.
  intros Hnroot. rewrite register_on_group. unfold on_group.
  destruct (String.length (subroute_of op) =? 0)%nat eqn:Hlen.
  - apply length_zero in Hlen. congruence.
  - unfold getSubrouter.
    destruct (subrouters d !! subroute_of op) as [sr|] eqn:Hl; simpl.
    + by rewrite Hl.
    + by rewrite lookup_insert_eq.
Qed.

(** What the group of a sub-path serves: each handler added under the
    sub-path, in the middlewares installed under it, in the middlewares
    of the root. *)
Lemma served_spec builtin ops d path sr :
  agrees builtin ops d ->
  subrouters d !! path = Some sr ->
  served d sr =
    map (fun h => chain (builtin ++ installed EmptyString ops) (chain (installed path ops) h))
      (added path ops).
Proof.
  intros Hd Hl. unfold served.
  rewrite (agrees_cached _ _ _ Hd _ _ Hl).
  rewrite (agrees_root_mw _ _ _ Hd).
  by rewrite !view_middlewares, view_handlers.
Qed.

End RegistrarFacts.

Lemma installed_cons {H : Type} (path : string) (op : registration H) (ops : list (registration H)) :
  installed path (op :: ops) =
    match op with
    | RegMiddleware subroute mwf => if decide (subroute = path) then captured_funcs mwf else []
    | RegRoute _ _ _ _ => []
    end ++ installed path ops.
Proof.
  unfold installed. simpl. destruct op as [s rt h ms|s mwf]; [reflexivity|].
  by destruct (decide (s = path)).
Qed.

Lemma passed_cons {H : Type} (path : string) (op : registration H) (ops : list (registration H)) :
  passed path (op :: ops) =
    match op with
    | RegMiddleware subroute mwf => if decide (subroute = path) then mwf else []
    | RegRoute _ _ _ _ => []
    end ++ passed path ops.
Proof.
  unfold passed. simpl. destruct op as [s rt h ms|s mwf]; [reflexivity|].
  by destruct (decide (s = path)).
Qed.

(** When every call of [AddMiddleware] passes at most one function, what
    is installed under a path is what was passed, in order. *)
Lemma installed_single_calls {H : Type} (path : string) (ops : list (registration H)) :
  (forall subroute mwf, RegMiddleware subroute mwf ∈ ops -> (length mwf <= 1)%nat) ->
  installed path ops = passed path ops.
Proof.
  induction ops as [|op ops IH]; intros Hone; [reflexivity|].
  rewrite installed_cons, passed_cons.
  rewrite (IH (fun s mwf Hin => Hone s mwf (list_elem_of_further _ _ _ Hin))).
  f_equal. destruct op as [s rt h ms|s mwf]; [reflexivity|].
  destruct (decide (s = path)); [|reflexivity].
  assert (Hlen := Hone s mwf (list_elem_of_here _ _)).
  destruct mwf as [|f [|g rest]]; simpl in Hlen; [reflexivity|reflexivity|lia].
Qed.

(** Registrations under one path install nothing under another. *)
Lemma installed_elsewhere {H : Type} (path other : string) (ops : list (registration H)) :
  other <> path ->
  (forall op, op ∈ ops -> subroute_of op = path) ->
  installed other ops = [].
Proof.
  intros Hne. induction ops as [|op ops IH]; intros Hall; [reflexivity|].
  rewrite installed_cons.
  rewrite (IH (fun o Hin => Hall o (list_elem_of_further _ _ _ Hin))).
  assert (Hop := Hall op (list_elem_of_here _ _)).
  destruct op as [s rt h ms|s mwf]; [reflexivity|].
  simpl in Hop. rewrite decide_False; [reflexivity|congruence].
Qed.

(** C2, at one call with two functions.  One route and the chain
    [m1, m2] registered under the same non-empty sub-path, in either
    order, share one group: the prefix has exactly one sub-router and
    it is the cached one.  But the route is served as [m2 (m2 h)] inside
    the root's middlewares: the closures built by the loop of
    [AddMiddleware] all call the last function of the call, so [m1] is
    not applied at all. *)
Theorem C2_two_functions_in_one_call {H : Type} (builtin : list (H -> H))
    (m1 m2 : H -> H) (h : H) (path route : string) (methods : list string) :
  path <> EmptyString ->
  let before := AddMiddleware path [m1; m2] (AddRoute path route h methods (New builtin)) in
  let after := AddRoute path route h methods (AddMiddleware path [m1; m2] (New builtin)) in
  (exists sr, subrouters before !! path = Some sr /\
     groups_under path before = [sr] /\
     served before sr = [chain builtin (m2 (m2 h))]) /\
  (exists sr, subrouters after !! path = Some sr /\
     groups_under path after = [sr] /\
     served after sr = [chain builtin (m2 (m2 h))]).
Proof.
  intros Hpath before after.
  assert (Hempty : forall ops : list (registration H),
            (forall op, op ∈ ops -> subroute_of op = path) -> installed EmptyString ops = []).
  { intros ops. apply installed_elsewhere. congruence. }
  split.
  - pose (ops := [RegRoute path route h methods; RegMiddleware path [m1; m2]]).
    assert (Hd : agrees builtin ops before) by apply (agrees_register_all builtin ops).
    destruct (register_caches (RegMiddleware path [m1; m2])
                (AddRoute path route h methods (New builtin)) Hpath) as [sr Hsr].
    change (subrouters before !! path = Some sr) in Hsr.
    exists sr. split; [exact Hsr|]. split.
    + by rewrite (agrees_groups _ _ _ Hd), Hsr.
    + rewrite (served_spec builtin ops before path sr Hd Hsr).
      rewrite Hempty.
      * unfold added, installed, ops. simpl. rewrite !decide_True by done.
        simpl. by rewrite !app_nil_r.
      * intros op Hin. apply list_elem_of_In in Hin.
        destruct Hin as [<-|[<-|[]]]; reflexivity.
  - pose (ops := [RegMiddleware path [m1; m2]; RegRoute path route h methods]).
    assert (Hd : agrees builtin ops after) by apply (agrees_register_all builtin ops).
    destruct (register_caches (RegRoute path route h methods)
                (AddMiddleware path [m1; m2] (New builtin)) Hpath) as [sr Hsr].
    change (subrouters after !! path = Some sr) in Hsr.
    exists sr. split; [exact Hsr|]. split.
    + by rewrite (agrees_groups _ _ _ Hd), Hsr.
    + rewrite (served_spec builtin ops after path sr Hd Hsr).
      rewrite Hempty.
      * unfold added, installed, ops. simpl. rewrite !decide_True by done.
        simpl. by rewrite !app_nil_r.
      * intros op Hin. apply list_elem_of_In in Hin.
        destruct Hin as [<-|[<-|[]]]; reflexivity.
Qed.

(** C2 with handlers written as the list of names wrapped around them:
    the route under /api is served as m2, m2, h and not as m1, m2, h. *)
Lemma C2_two_functions_in_one_call_witness :
  let m1 := cons "m1" in
  let m2 := cons "m2" in
  let d := AddMiddleware "/api" [m1; m2] (AddRoute "/api" "/users" ["h"] ["GET"] (New [])) in
  exists sr, subrouters d !! "/api" = Some sr /\
    groups_under "/api" d = [sr] /\
    served d sr = [["m2"; "m2"; "h"]] /\
    served d sr <> [["m1"; "m2"; "h"]].
Proof.
  intros m1 m2 d.
  destruct (C2_two_functions_in_one_call (H := list string) [] m1 m2 ["h"] "/api" "/users" ["GET"])
    as [(sr & Hsr & Hgroups & Hserved) _].
  - discriminate.
  - exists sr. split; [exact Hsr|]. split; [exact Hgroups|].
    fold d in Hserved. rewrite Hserved. split; [reflexivity|discriminate].
Defined.

(** * Further properties of the responders *)

Section PlainResponse.
Context `{Ext : Externals} {S : Type}.
Implicit Types (st : State S) (c : Z).

(** [WriteHeaderAndData] when no header has gone out yet. *)
Lemma WriteHeaderAndData_unsent c data st :
  sent (response_of st) = None -> 100 <= c <= 999 ->
  WriteHeaderAndData c data st =
    match data with
    | None => Done (0, None) (status_sent c st)
    | Some d =>
        match broken (response_of st) with
        | Some e => Done (0, Some e) (status_sent c st)
        | None =>
            Done (Z.of_nat (length d), None) (written c (HeaderMap (response_of st)) d st)
        end
    end.
Proof.
  intros Hsent Hc. unfold response_of in *.
  rewrite WriteHeaderAndData_positive by lia.
  unfold inner_WriteHeader, recorder_WriteHeader, inner_Write, recorder_Write. simpl.
  rewrite Hsent.
  destruct (Z.ltb_spec c 100) as [?|_]; [lia|].
  destruct (Z.ltb_spec 999 c) as [?|_]; [lia|]. simpl.
  destruct data as [d|]; [|reflexivity].
  destruct (broken (ResponseWriter (rw st))) eqn:Hb; [|reflexivity].
  unfold status_sent, with_rw. simpl. by rewrite Hb.
Qed.

Lemma set_content_type_run ct st :
  set_content_type ct st =
    Done tt (with_headers (with_content_type ct (HeaderMap (response_of st))) st).
Proof.
  unfold set_content_type, with_content_type.
  destruct (0 <? String.length ct)%nat; [reflexivity|].
  unfold ret. f_equal. destruct st as [[[h s b br] c e] l k ss sto]. reflexivity.
Qed.

(** [RespondData] of a payload when no header has gone out yet and the
    status it settles on is one the writer accepts: the status goes out
    with the headers, the bytes are written, and a failed write is
    handed to the logger. *)
Lemma RespondData_unsent rev c ct d st :
  sent (response_of st) = None ->
  100 <= fst (fst (plain_response rev c ct d (HeaderMap (response_of st)))) <= 999 ->
  RespondData rev AsEx c ct (Some d) st =
    let '(c', h', body) := plain_response rev c ct d (HeaderMap (response_of st)) in
    match body with
    | None => Done tt (status_sent c' (with_headers h' st))
    | Some b =>
        match broken (response_of st) with
        | Some e => Done tt (logged (LogErr (reported rev e)) (status_sent c' (with_headers h' st)))
        | None => Done tt (written c' h' b st)
        end
    end.
Proof.
  intros Hsent. unfold RespondData, plain_response, json_response.
  assert (Hsent' : forall h, sent (response_of (with_headers h st)) = None) by (intros h; exact Hsent).
  destruct (strings_Contains ct "application/json").
  - unfold bind. cbv beta. rewrite set_content_type_run.
    destruct (json_Marshal d) as [jData|err1]; simpl; intros Hc;
      (rewrite WriteHeaderAndData_unsent; [|apply Hsent'|exact Hc]); simpl;
      unfold response_of; destruct (broken (ResponseWriter (rw st))); reflexivity.
  - destruct d as [s|b|v]; simpl; intros Hc; unfold bind; cbv beta.
    + rewrite set_content_type_run.
      (rewrite WriteHeaderAndData_unsent; [|apply Hsent'|exact Hc]). simpl.
      unfold response_of; destruct (broken (ResponseWriter (rw st))); reflexivity.
    + rewrite set_content_type_run.
      (rewrite WriteHeaderAndData_unsent; [|apply Hsent'|exact Hc]). simpl.
      destruct b as [b|]; [|reflexivity].
      unfold response_of; destruct (broken (ResponseWriter (rw st))); reflexivity.
    + unfold Header_Set at 1. unfold modify at 1.
      fold (with_headers (header_Set "Content-Type" "text/html; charset=utf-8"
                            (HeaderMap (response_of st))) st).
      (rewrite WriteHeaderAndData_unsent; [|apply Hsent'|exact Hc]). simpl.
      unfold response_of; destruct (broken (ResponseWriter (rw st))); reflexivity.
Qed.

Lemma RespondData_unsent_as rev c ct d st c' h' body :
  sent (response_of st) = None ->
  plain_response rev c ct d (HeaderMap (response_of st)) = (c', h', body) ->
  100 <= c' <= 999 ->
  RespondData rev AsEx c ct (Some d) st =
    match body with
    | None => Done tt (status_sent c' (with_headers h' st))
    | Some b =>
        match broken (response_of st) with
        | Some e => Done tt (logged (LogErr (reported rev e)) (status_sent c' (with_headers h' st)))
        | None => Done tt (written c' h' b st)
        end
    end.
Proof.
  intros Hsent Hp Hc.
  rewrite RespondData_unsent; [by rewrite Hp|exact Hsent|by rewrite Hp].
Qed.

(** Every step of the responders keeps what has already been sent. *)
Lemma sent_kept_by_steps (s : Z * header) :
  kept_by_steps (S := S) (fun st => sent (response_of st) = Some s).
Proof.
  refine (conj _ (conj _ (conj _ (conj _ (conj _ _))))).
  - intros k v st Hs. exact Hs.
  - intros c st Hs. exact Hs.
  - intros e st Hs. exact Hs.
  - intros c st Hs. unfold inner_WriteHeader, recorder_WriteHeader, response_of in *.
    rewrite Hs. simpl. exact Hs.
  - intros d st Hs. unfold inner_Write, recorder_Write, response_of in *.
    rewrite Hs. by destruct (broken (ResponseWriter (rw st))).
  - intros e st Hs. exact Hs.
Qed.

(** The responders leave the session objects and the store alone and
    only add lines to the log. *)
Lemma responded_from_kept_by_steps st0 :
  kept_by_steps (S := S) (responded_from st0).
Proof.
  refine (conj _ (conj _ (conj _ (conj _ (conj _ _))))).
  - intros k v st (Hs & Ht & Hl). by repeat split.
  - intros c st (Hs & Ht & Hl). by repeat split.
  - intros e st (Hs & Ht & Hl). by repeat split.
  - intros c st (Hs & Ht & Hl). unfold inner_WriteHeader.
    destruct (recorder_WriteHeader c (ResponseWriter (rw st))); by repeat split.
  - intros d st (Hs & Ht & Hl). unfold inner_Write.
    destruct (recorder_Write d (ResponseWriter (rw st))). by repeat split.
  - intros e st (Hs & Ht & [more Hl]). repeat split; [done|done|].
    exists (more ++ [e]). simpl. by rewrite Hl, app_assoc.
Qed.

(** What every step keeps, the three responders keep. *)
Lemma responders_keep (P : State S -> Prop) rev w r c compType ct data e :
  kept_by_steps P ->
  keeps P (RespondData rev w c ct data) /\
  keeps P (RespondError rev w c e) /\
  keeps P (RespondCompressed rev w r c compType ct data).
Proof.
  intros (Hh & Hc & He & Hwh & Hw & Hl).
  assert (HW : forall c data, keeps P (WriteHeaderAndData c data)).
  { intros c0 data0. unfold WriteHeaderAndData. apply keeps_if; [apply keeps_panic|].
    apply keeps_bind; [apply Hc|intros _].
    apply keeps_bind; [apply Hwh|intros _].
    destruct data0; [apply Hw | apply keeps_ret]. }
  assert (Hct : forall ct, keeps P (set_content_type ct)).
  { intros ct0. unfold set_content_type. apply keeps_if; [apply Hh|apply keeps_ret]. }
  assert (HD : forall w c ct data, keeps P (RespondData rev w c ct data)).
  { intros w0 c0 ct0 data0. unfold RespondData. destruct w0; [|apply keeps_panic].
    apply keeps_bind.
    - destruct data0 as [d|]; [|apply HW].
      apply keeps_if.
      + apply keeps_bind; [apply Hct|intros _]. destruct (json_Marshal d); apply HW.
      + destruct d; (apply keeps_bind; [first [apply Hct|apply Hh]|intros _; apply HW]).
    - intros res. destruct (snd res); [apply Hl|apply keeps_ret]. }
  assert (HE : forall w c e, keeps P (RespondError rev w c e)).
  { intros w0 c0 e0. unfold RespondError. destruct w0; [|apply keeps_panic].
    apply keeps_bind; [apply He|intros _]. apply HD. }
  split; [apply HD|]. split; [apply HE|].
  unfold RespondCompressed. destruct data as [d|]; [|apply HD].
  destruct w; [|apply keeps_panic].
  apply keeps_if; [apply HD|].
  destruct (sourceData d) as [src|errJSON]; [|apply HE].
  apply keeps_bind; [apply keeps_if; apply Hh|intros _].
  destruct (CompressData _ src); [|apply HE].
  apply keeps_bind; [apply Hh|intros _].
  apply keeps_bind; [apply HW|intros _]. apply keeps_ret.
Qed.

End PlainResponse.

(** X1.  [RespondData] with a nil payload, on a writer that has sent
    nothing yet and with a status the writer accepts, sends the status
    with the headers as they were and nothing else: it sets no
    Content-Type whatever the content type argument, writes no byte to
    the body, and logs nothing, also on a writer whose writes fail. *)
Theorem X1_nil_payload_sends_status_only `{Ext : Externals} {S : Type}
    (rev : Revision) (c : Z) (contentType : string) (st : State S) :
  sent (response_of st) = None -> 100 <= c <= 999 ->
  exists st', RespondData rev AsEx c contentType None st = Done tt st' /\
    sent (response_of st') = Some (c, HeaderMap (response_of st)) /\
    HeaderMap (response_of st') = HeaderMap (response_of st) /\
    Body (response_of st') = Body (response_of st) /\
    code (rw st') = c /\ err (rw st') = err (rw st) /\
    logger st' = logger st.
Proof.
  intros Hsent Hc. exists (status_sent c st). split; [|by repeat split].
  unfold RespondData, bind. by rewrite WriteHeaderAndData_unsent.
Qed.

(** X1 on a writer whose writes fail. *)
Lemma X1_nil_payload_sends_status_only_witness :
  exists st', RespondData (Ext := Demo.externals) Current AsEx 204 "text/plain" None broken_state =
      Done tt st' /\
    sent (response_of st') = Some (204, ∅) /\
    Body (response_of st') = [] /\ logger st' = [].
Proof.
  destruct (X1_nil_payload_sends_status_only (Ext := Demo.externals) Current 204 "text/plain"
              broken_state) as (st' & Hrun & Hsent & _ & Hbody & _ & _ & Hlog).
  - reflexivity.
  - lia.
  - exists st'. by repeat split.
Defined.

(** X2.  Under a content type that contains application/json,
    [RespondData] writes the JSON marshalling of the payload, of a
    string or a byte slice as of any other value, with the status given
    and the content type as the Content-Type header; it attaches no
    error to the wrapper and logs nothing. *)
Theorem X2_json_payload_is_marshalled `{Ext : Externals} {S : Type}
    (rev : Revision) (c : Z) (contentType : string) (d : Data) (j : list byte)
    (st : State S) :
  strings_Contains contentType "application/json" = true ->
  json_Marshal d = inl j ->
  fresh_writer st -> 100 <= c <= 999 ->
  exists st', RespondData rev AsEx c contentType (Some d) st = Done tt st' /\
    Body (response_of st') = Body (response_of st) ++ j /\
    sent (response_of st') =
      Some (c, header_Set "Content-Type" contentType (HeaderMap (response_of st))) /\
    code (rw st') = c /\ err (rw st') = err (rw st) /\
    logger st' = logger st.
Proof.
  intros Hct Hj Hfresh Hc.
  rewrite (RespondData_json_fresh rev c contentType d st Hct Hfresh Hc).
  unfold json_response. rewrite Hj. simpl.
  eexists. split; [reflexivity|]. by repeat split.
Qed.

(** X2 for a string payload: the body is the JSON string, not the text. *)
Lemma X2_json_payload_is_marshalled_witness :
  exists st', RespondData (Ext := Demo.externals) Current AsEx 200 "application/json"
                (Some (DString "hi")) (Demo.fresh_state tt) = Done tt st' /\
    String.string_of_list_byte (Body (response_of st')) = Demo.quote "hi" /\
    sent_headers (response_of st') !! "Content-Type" = Some ["application/json"].
Proof.
  destruct (X2_json_payload_is_marshalled (Ext := Demo.externals) Current 200 "application/json"
              (DString "hi") (String.list_byte_of_string (Demo.quote "hi"))
              (Demo.fresh_state tt)) as (st' & Hrun & Hbody & Hsent & _).
  - reflexivity.
  - reflexivity.
  - split; reflexivity.
  - lia.
  - exists st'. split; [exact Hrun|]. split.
    + rewrite Hbody. reflexivity.
    + unfold sent_headers. rewrite Hsent. reflexivity.
Defined.

(** X3.  Under a JSON content type, when the payload does not marshal,
    [RespondData] answers 500 whatever status it was given (a status
    that is zero or negative included), with the formatted marshalling
    error as the body.  The captured code is 500, but no error is
    attached to the wrapper and nothing is logged. *)
Theorem X3_marshal_failure_answers_500 `{Ext : Externals} {S : Type}
    (rev : Revision) (c : Z) (contentType : string) (d : Data) (err1 : error)
    (st : State S) :
  strings_Contains contentType "application/json" = true ->
  json_Marshal d = inr err1 ->
  fresh_writer st ->
  exists st', RespondData rev AsEx c contentType (Some d) st = Done tt st' /\
    sent_status (response_of st') = Some 500 /\
    Body (response_of st') =
      Body (response_of st) ++ String.list_byte_of_string (sprintf_error (reported rev err1)) /\
    code (rw st') = 500 /\ err (rw st') = err (rw st) /\
    logger st' = logger st.
Proof.
  intros Hct Hm [Hsent Hbroken].
  rewrite (RespondData_unsent_as rev c contentType d st StatusInternalServerError
             (with_content_type contentType (HeaderMap (response_of st)))
             (Some (String.list_byte_of_string (sprintf_error (reported rev err1)))) Hsent).
  - rewrite Hbroken. eexists. split; [reflexivity|]. by repeat split.
  - unfold plain_response, json_response. by rewrite Hct, Hm.
  - unfold StatusInternalServerError. lia.
Qed.

(** X3 for a value that does not marshal and the status 0. *)
Lemma X3_marshal_failure_answers_500_witness :
  exists st', RespondData (Ext := Demo.externals) Earlier AsEx 0 "application/json"
                (Some (DValue (AOther "chan int"))) (Demo.fresh_state tt) = Done tt st' /\
    sent_status (response_of st') = Some 500 /\
    err (rw st') = None /\ logger st' = [].
Proof.
  destruct (X3_marshal_failure_answers_500 (Ext := Demo.externals) Earlier 0 "application/json"
              (DValue (AOther "chan int")) (ErrPlain "json: unsupported type: chan int")
              (Demo.fresh_state tt)) as (st' & Hrun & Hs & _ & _ & He & Hl).
  - reflexivity.
  - reflexivity.
  - split; reflexivity.
  - exists st'. by repeat split.
Defined.

(** X4.  Under a content type that does not contain application/json,
    [RespondData] writes a string or a byte slice as it is, with the
    status given; the Content-Type header is set to the content type
    when that is not empty and left as it was otherwise. *)
Theorem X4_text_payload_is_verbatim `{Ext : Externals} {S : Type}
    (rev : Revision) (c : Z) (contentType : string) (d : Data) (st : State S) :
  strings_Contains contentType "application/json" = false ->
  (forall v, d <> DValue v) ->
  fresh_writer st -> 100 <= c <= 999 ->
  let payload :=
    match d with
    | DString s => String.list_byte_of_string s
    | DBytes b => default [] b
    | DValue _ => []
    end in
  exists st', RespondData rev AsEx c contentType (Some d) st = Done tt st' /\
    Body (response_of st') = Body (response_of st) ++ payload /\
    sent (response_of st') =
      Some (c, if decide (contentType = EmptyString) then HeaderMap (response_of st)
               else header_Set "Content-Type" contentType (HeaderMap (response_of st))) /\
    code (rw st') = c /\ logger st' = logger st.
Proof.
  intros Hct Hd [Hsent Hbroken] Hc payload.
  assert (Hh : with_content_type contentType (HeaderMap (response_of st)) =
               if decide (contentType = EmptyString) then HeaderMap (response_of st)
               else header_Set "Content-Type" contentType (HeaderMap (response_of st))).
  { unfold with_content_type. destruct contentType; reflexivity. }
  rewrite <- Hh.
  rewrite (RespondData_unsent_as rev c contentType d st c
             (with_content_type contentType (HeaderMap (response_of st)))
             (match d with
              | DString s => Some (String.list_byte_of_string s)
              | DBytes b => b
              | DValue _ => None
              end) Hsent); [| |exact Hc].
  - destruct d as [s|[b|]|v]; [| | |by destruct (Hd v)].
    + rewrite Hbroken. eexists. split; [reflexivity|]. by repeat split.
    + rewrite Hbroken. eexists. split; [reflexivity|]. by repeat split.
    + eexists. split; [reflexivity|]. unfold payload. simpl. rewrite app_nil_r.
      by repeat split.
  - unfold plain_response. rewrite Hct.
    destruct d as [s|b|v]; [reflexivity|reflexivity|by destruct (Hd v)].
Qed.

(** X4 for a text without a content type. *)
Lemma X4_text_payload_is_verbatim_witness :
  exists st', RespondData (Ext := Demo.externals) Current AsEx 200 EmptyString
                (Some (DString "pong")) (Demo.fresh_state tt) = Done tt st' /\
    Body (response_of st') = String.list_byte_of_string "pong" /\
    sent (response_of st') = Some (200, ∅).
Proof.
  destruct (X4_text_payload_is_verbatim (Ext := Demo.externals) Current 200 EmptyString
              (DString "pong") (Demo.fresh_state tt)) as (st' & Hrun & Hbody & Hsent & _).
  - reflexivity.
  - discriminate.
  - split; reflexivity.
  - lia.
  - exists st'. by repeat split.
Defined.

(** X5.  Under a content type that does not contain application/json, a
    payload that is neither a string nor a byte slice is refused:
    [RespondData] answers 500 with the text unknown data type as HTML,
    whatever status and content type it was given. *)
Theorem X5_other_payload_is_refused `{Ext : Externals} {S : Type}
    (rev : Revision) (c : Z) (contentType : string) (v : any) (st : State S) :
  strings_Contains contentType "application/json" = false ->
  fresh_writer st ->
  exists st', RespondData rev AsEx c contentType (Some (DValue v)) st = Done tt st' /\
    Body (response_of st') =
      Body (response_of st) ++ String.list_byte_of_string "unknown data type" /\
    sent (response_of st') =
      Some (500, header_Set "Content-Type" "text/html; charset=utf-8"
                   (HeaderMap (response_of st))) /\
    code (rw st') = 500 /\ err (rw st') = err (rw st) /\ logger st' = logger st.
Proof.
  intros Hct [Hsent Hbroken].
  rewrite (RespondData_unsent_as rev c contentType (DValue v) st StatusInternalServerError
             (header_Set "Content-Type" "text/html; charset=utf-8" (HeaderMap (response_of st)))
             (Some (String.list_byte_of_string "unknown data type")) Hsent).
  - rewrite Hbroken. eexists. split; [reflexivity|]. by repeat split.
  - unfold plain_response. by rewrite Hct.
  - unfold StatusInternalServerError. lia.
Qed.

(** X5 for a map given with a text content type and the status 200. *)
Lemma X5_other_payload_is_refused_witness :
  exists st', RespondData (Ext := Demo.externals) Current AsEx 200 "text/plain"
                (Some (DValue (AMap ∅))) (Demo.fresh_state tt) = Done tt st' /\
    sent_status (response_of st') = Some 500 /\
    sent_headers (response_of st') !! "Content-Type" = Some ["text/html; charset=utf-8"].
Proof.
  destruct (X5_other_payload_is_refused (Ext := Demo.externals) Current 200 "text/plain"
              (AMap ∅) (Demo.fresh_state tt)) as (st' & Hrun & _ & Hsent & _).
  - reflexivity.
  - split; reflexivity.
  - exists st'. split; [exact Hrun|].
    unfold sent_status, sent_headers. rewrite Hsent. split; reflexivity.
Defined.

(** X6.  A responder called with a writer that is not the capture
    wrapper panics with internal error, whatever its other arguments,
    and leaves the request state as it was: nothing is written, set or
    logged. *)
Theorem X6_bare_writer_is_fatal `{Ext : Externals} {S : Type}
    (rev : Revision) (r : Request) (c : Z) (compType : CompressionType)
    (contentType : string) (data : option Data) (e : error) (st : State S) :
  RespondData rev AsBare c contentType data st = Panicked (PanicString "internal error") st /\
  RespondError rev AsBare c e st = Panicked (PanicString "internal error") st /\
  RespondCompressed rev AsBare r c compType contentType data st =
    Panicked (PanicString "internal error") st.
Proof.
  split; [reflexivity|]. split; [reflexivity|].
  unfold RespondCompressed. by destruct data.
Qed.

(** X7.  When the writer fails the write of the body, [RespondData]
    still returns: the status has gone out, the body is as it was, and
    the write error is handed to the logger in one line (wrapped by
    [nerr.New] in the current revision, as it is in the earlier one).
    This holds whenever there are bytes to write, that is for every
    payload but a nil byte slice under a content type that is not
    JSON. *)
Theorem X7_write_error_is_logged `{Ext : Externals} {S : Type}
    (rev : Revision) (c : Z) (contentType : string) (d : Data) (e : error)
    (st : State S) :
  sent (response_of st) = None ->
  broken (response_of st) = Some e ->
  100 <= c <= 999 ->
  (strings_Contains contentType "application/json" = false -> d <> DBytes None) ->
  exists st', RespondData rev AsEx c contentType (Some d) st = Done tt st' /\
    logger st' = logger st ++ [LogErr (reported rev e)] /\
    Body (response_of st') = Body (response_of st) /\
    is_Some (sent (response_of st')).
Proof.
  intros Hsent Hbroken Hc Hd.
  destruct (plain_response rev c contentType d (HeaderMap (response_of st)))
    as [[c' h'] body] eqn:Hp.
  assert (Hc' : 100 <= c' <= 999 /\ exists b, body = Some b).
  { unfold plain_response, json_response, StatusInternalServerError in Hp.
    destruct (strings_Contains contentType "application/json").
    - destruct (json_Marshal d); injection Hp as <- <- <-; split; eauto; simpl; lia.
    - destruct d as [s|[b|]|v]; injection Hp as <- <- <-; try (split; eauto; lia).
      by destruct Hd. }
  destruct Hc' as [Hc' [b ->]].
  rewrite (RespondData_unsent_as rev c contentType d st c' h' (Some b) Hsent Hp Hc').
  rewrite Hbroken. eexists. split; [reflexivity|]. simpl. by repeat split.
Qed.

(** X7 for a text on a writer whose writes fail. *)
Lemma X7_write_error_is_logged_witness :
  exists st', RespondData (Ext := Demo.externals) Earlier AsEx 200 "text/plain"
                (Some (DString "pong")) broken_state = Done tt st' /\
    logger st' = [LogErr (ErrPlain "broken pipe")] /\
    Body (response_of st') = [].
Proof.
  destruct (X7_write_error_is_logged (Ext := Demo.externals) Earlier 200 "text/plain"
              (DString "pong") (ErrPlain "broken pipe") broken_state)
    as (st' & Hrun & Hlog & Hbody & _).
  - reflexivity.
  - reflexivity.
  - lia.
  - discriminate.
  - exists st'. by repeat split.
Defined.

(** X8.  Once a status has gone out, no responder changes what was
    sent: the status and the headers the client got stay those of the
    first response, whatever is answered after.  The wrapper's captured
    code, however, follows the latest call: a later nil-payload
    response with a positive status records that status. *)
Theorem X8_first_response_wins `{Ext : Externals} {S : Type}
    (rev : Revision) (w : httpResponseWriter) (r : Request) (c : Z)
    (compType : CompressionType) (contentType : string) (data : option Data)
    (e : error) (s : Z * header) (st : State S) :
  sent (response_of st) = Some s ->
  sent (response_of (final (RespondData rev w c contentType data st))) = Some s /\
  sent (response_of (final (RespondError rev w c e st))) = Some s /\
  sent (response_of (final (RespondCompressed rev w r c compType contentType data st))) = Some s /\
  (0 < c -> code (rw (final (RespondData rev AsEx c contentType None st))) = c).
Proof.
  intros Hs.
  destruct (responders_keep (fun st : State S => sent (response_of st) = Some s)
              rev w r c compType contentType data e (sent_kept_by_steps s)) as (HD & HE & HC).
  split; [by apply HD|]. split; [by apply HE|]. split; [by apply HC|].
  intros Hc. unfold RespondData, bind.
  rewrite WriteHeaderAndData_positive by exact Hc.
  unfold inner_WriteHeader, recorder_WriteHeader. unfold response_of in Hs. simpl.
  by rewrite Hs.
Qed.

(** X8 for an error answered after a first response of 200. *)
Lemma X8_first_response_wins_witness :
  let st := final (RespondData (Ext := Demo.externals) Current AsEx 200 "text/plain"
                     (Some (DString "ok")) (Demo.fresh_state tt)) in
  let st' := final (RespondError (Ext := Demo.externals) Current AsEx 500 (ErrPlain "late") st) in
  sent_status (response_of st') = Some 200 /\ code (rw st') = 500.
Proof.
  intros st st'.
  pose proof (X8_first_response_wins (Ext := Demo.externals) Current AsEx (Demo.request EmptyString)
                500 CompressionNo "text/plain" None (ErrPlain "late")
                (200, {["Content-Type" := ["text/plain"]]}) st eq_refl) as (_ & HE & _).
  split.
  - unfold sent_status. fold st' in HE. by rewrite HE.
  - reflexivity.
Defined.

(** X9.  The responders act on the response and the log only: the
    session objects and the state of the session store are as before,
    and the log is the log as before with lines added at its end. *)
Theorem X9_responders_leave_sessions_alone `{Ext : Externals} {S : Type}
    (rev : Revision) (w : httpResponseWriter) (r : Request) (c : Z)
    (compType : CompressionType) (contentType : string) (data : option Data)
    (e : error) (st : State S) :
  responded_from st (final (RespondData rev w c contentType data st)) /\
  responded_from st (final (RespondError rev w c e st)) /\
  responded_from st (final (RespondCompressed rev w r c compType contentType data st)).
Proof.
  assert (H0 : responded_from st st).
  { repeat split. exists []. by rewrite app_nil_r. }
  destruct (responders_keep (responded_from st)
              rev w r c compType contentType data e (responded_from_kept_by_steps st))
    as (HD & HE & HC).
  split; [by apply HD|]. split; [by apply HE|by apply HC].
Qed.

(** * Further properties of the compressed response *)

(** The framing codec of [Demo] has an inverse. *)
Lemma Demo_decompress_compress (deflate : bool) (src out : list byte) :
  CompressData (Externals := Demo.externals) deflate src = inl out ->
  Demo.decompress deflate out = Some src.
Proof.
  simpl. unfold Demo.compress.
  destruct (16 <? length src)%nat; [discriminate|].
  intros [= <-]. simpl. by destruct deflate.
Qed.

(** X10.  With the token of the requested kind among the pieces of the
    Accept-Encoding header, [RespondCompressed] of a byte slice, or of a
    value that marshals, sends the status given with Content-Encoding
    set to the token and Content-Type set to the content type (also
    when that is empty), and writes the output of [CompressData]:
    decompressing the body, with any inverse of [CompressData], gives
    the slice, or the JSON of the value. *)
Theorem X10_compressed_response_roundtrip `{Ext : Externals} {S : Type}
    (Decompress : bool -> list byte -> option (list byte))
    (rev : Revision) (r : Request) (c : Z) (compType : CompressionType)
    (contentType t : string) (d : Data) (src out : list byte) (st : State S) :
  (forall deflate src out, CompressData deflate src = inl out -> Decompress deflate out = Some src) ->
  token_of compType = Some t ->
  t ∈ strings_Split (AcceptEncoding r) comma ->
  match d with
  | DString _ => False
  | DBytes b => src = default [] b
  | DValue _ => json_Marshal d = inl src
  end ->
  CompressData (compType =? CompressionDeflate) src = inl out ->
  fresh_writer st -> Body (response_of st) = [] -> 100 <= c <= 999 ->
  exists st',
    RespondCompressed rev AsEx r c compType contentType (Some d) st = Done tt st' /\
    Decompress (compType =? CompressionDeflate) (Body (response_of st')) = Some src /\
    sent_status (response_of st') = Some c /\
    sent_headers (response_of st') !! "Content-Encoding" = Some [t] /\
    sent_headers (response_of st') !! "Content-Type" = Some [contentType] /\
    code (rw st') = c /\ err (rw st') = err (rw st) /\ logger st' = logger st.
Proof.
  intros Hinv Ht Hin Hd Hout Hfresh Hbody Hc.
  assert (Hsrc : sourceData d = inl src).
  { destruct d; simpl; [done | by subst | done]. }
  rewrite (RespondCompressed_written rev r c compType contentType d src out t st
             Ht Hin Hsrc Hout Hfresh Hc).
  eexists. split; [reflexivity|].
  unfold sent_status, sent_headers, response_of in *. simpl. rewrite Hbody. simpl.
  split; [by apply Hinv|]. split; [reflexivity|].
  unfold header_Set. split.
  - rewrite lookup_insert_ne by done. by rewrite lookup_insert_eq.
  - split; [by rewrite lookup_insert_eq|]. by repeat split.
Qed.

(** X10 for a byte slice, deflate requested and accepted. *)
Lemma X10_compressed_response_roundtrip_witness :
  let payload := String.list_byte_of_string "hello" in
  exists st',
    RespondCompressed (Ext := Demo.externals) Current AsEx (Demo.request "gzip,deflate") 200
      CompressionDeflate EmptyString (Some (DBytes (Some payload))) (Demo.fresh_state tt) =
      Done tt st' /\
    Demo.decompress true (Body (response_of st')) = Some payload /\
    sent_headers (response_of st') !! "Content-Encoding" = Some ["deflate"] /\
    sent_headers (response_of st') !! "Content-Type" = Some [EmptyString].
Proof.
  intros payload.
  destruct (X10_compressed_response_roundtrip (Ext := Demo.externals) Demo.decompress
              Current (Demo.request "gzip,deflate") 200 CompressionDeflate EmptyString "deflate"
              (DBytes (Some payload)) payload (x78 :: payload) (Demo.fresh_state tt))
    as (st' & Hrun & Hd & _ & Hce & Hct & _).
  - apply Demo_decompress_compress.
  - reflexivity.
  - vm_compute. apply list_elem_of_In. simpl. right. by left.
  - reflexivity.
  - reflexivity.
  - split; reflexivity.
  - reflexivity.
  - lia.
  - exists st'. by repeat split.
Defined.

(** X11.  With the token of the requested kind among the pieces of the
    Accept-Encoding header, when the payload is a value that does not
    marshal, [RespondCompressed] answers with the error response for
    status 500: the marshalling error (wrapped by [nerr.New] in the
    current revision) is attached to the wrapper, the body is the
    uncompressed error body, and no Content-Encoding header is added to
    those the response had. *)
Theorem X11_compressed_marshal_failure `{Ext : Externals} {S : Type}
    (rev : Revision) (r : Request) (c : Z) (compType : CompressionType)
    (contentType t : string) (v : any) (errJSON : error) (st : State S) :
  token_of compType = Some t ->
  t ∈ strings_Split (AcceptEncoding r) comma ->
  json_Marshal (DValue v) = inr errJSON ->
  fresh_writer st ->
  let reportedErr := reported rev errJSON in
  exists st',
    RespondCompressed rev AsEx r c compType contentType (Some (DValue v)) st = Done tt st' /\
    sent_status (response_of st') = Some 500 /\
    err (rw st') = Some reportedErr /\
    Body (response_of st') =
      Body (response_of st) ++
      snd (json_response rev StatusInternalServerError (DValue (errorEnvelope rev reportedErr))) /\
    sent_headers (response_of st') !! "Content-Encoding" =
      HeaderMap (response_of st) !! "Content-Encoding".
Proof.
  intros Ht Hin Hm Hfresh reportedErr.
  destruct (chosen_compression_token r compType t Ht Hin) as [Hch Hkind].
  assert (Hrun : RespondCompressed rev AsEx r c compType contentType (Some (DValue v)) st =
                 RespondError rev AsEx StatusInternalServerError reportedErr st).
  { unfold RespondCompressed. rewrite Hch. simpl. rewrite Hm.
    by destruct Hkind as [[-> _]|[-> _]]. }
  rewrite Hrun, RespondError_fresh; [|exact Hfresh|unfold StatusInternalServerError; lia].
  eexists. split; [reflexivity|].
  unfold sent_status, sent_headers, json_response. simpl.
  split; [by destruct (json_Marshal (DValue (errorEnvelope rev reportedErr)))|].
  split; [reflexivity|]. split; [reflexivity|].
  unfold header_Set. by rewrite lookup_insert_ne.
Qed.

(** X11 for a value that does not marshal, gzip requested and accepted. *)
Lemma X11_compressed_marshal_failure_witness :
  exists st',
    RespondCompressed (Ext := Demo.externals) Earlier AsEx (Demo.request "gzip") 200
      CompressionGzip "application/json" (Some (DValue (AOther "func()")))
      (Demo.fresh_state tt) = Done tt st' /\
    sent_status (response_of st') = Some 500 /\
    err (rw st') = Some (ErrPlain "json: unsupported type: func()") /\
    sent_headers (response_of st') !! "Content-Encoding" = None.
Proof.
  destruct (X11_compressed_marshal_failure (Ext := Demo.externals) Earlier (Demo.request "gzip")
              200 CompressionGzip "application/json" "gzip" (AOther "func()")
              (ErrPlain "json: unsupported type: func()") (Demo.fresh_state tt))
    as (st' & Hrun & Hs & He & _ & Hce).
  - reflexivity.
  - vm_compute. apply list_elem_of_In. simpl. by left.
  - reflexivity.
  - split; reflexivity.
  - exists st'. by repeat split.
Defined.

(** X12.  The compression [RespondCompressed] settles on is never a
    kind other than the one requested: it is the requested kind when
    that is gzip or deflate and its token is, exactly, one of the pieces
    of the Accept-Encoding header between commas, and none in every
    other case.  A piece with a space or a parameter around the token
    is not the token. *)
Theorem X12_compression_only_as_requested (r : Request) (compType : CompressionType) :
  (chosen_compression r compType = compType \/
   chosen_compression r compType = CompressionNo) /\
  (chosen_compression r compType <> CompressionNo <->
   exists t, token_of compType = Some t /\ t ∈ strings_Split (AcceptEncoding r) comma) /\
  (forall piece t, token_of compType = Some t ->
     strings_Split (AcceptEncoding r) comma = [piece] -> piece <> t ->
     chosen_compression r compType = CompressionNo).
Proof.
  assert (Hdec : chosen_compression r compType = CompressionNo \/
                 exists t, token_of compType = Some t /\
                           t ∈ strings_Split (AcceptEncoding r) comma).
  { destruct (token_of compType) as [t|] eqn:Ht.
    - destruct (decide (t ∈ strings_Split (AcceptEncoding r) comma)) as [Hin|Hnin].
      + right. eauto.
      + left. apply chosen_compression_No. intros t' Ht'. congruence.
    - left. apply chosen_compression_No. intros t'. rewrite Ht. discriminate. }
  split; [|split].
  - destruct Hdec as [Hno|(t & Ht & Hin)]; [by right|].
    left. by apply (chosen_compression_token r compType t).
  - split.
    + intros Hne. by destruct Hdec.
    + intros (t & Ht & Hin) Hno.
      apply (proj1 (chosen_compression_No r compType)) with (t := t) in Hno; done.
  - intros piece t Ht Hsplit Hne. apply chosen_compression_No.
    intros t' Ht'. rewrite Hsplit. intros Hin. apply list_elem_of_In in Hin.
    destruct Hin as [<-|[]]. congruence.
Qed.

(** X12 for a header whose one piece carries a quality parameter. *)
Lemma X12_compression_only_as_requested_witness :
  chosen_compression (Demo.request "gzip;q=0.8") CompressionGzip = CompressionNo.
Proof.
  apply (proj2 (proj2 (X12_compression_only_as_requested
                         (Demo.request "gzip;q=0.8") CompressionGzip))
           "gzip;q=0.8" "gzip").
  - reflexivity.
  - reflexivity.
  - discriminate.
Defined.

(** * Further properties of the access logger *)

Lemma strip_quotes_chars (s : string) :
  String.list_ascii_of_string (strip_quotes s) =
    List.filter (fun ch => negb (Ascii.eqb ch dquote)) (String.list_ascii_of_string s).
Proof.
  induction s as [|ch s IH]; simpl; [reflexivity|].
  destruct (Ascii.eqb ch dquote); simpl; [exact IH|by rewrite IH].
Qed.

(** X13.  The error text of an access-log line has no double quote: for
    a recorded error it is the message of the error with every double
    quote dropped and every other character kept, in order; without a
    recorded error it is a dash. *)
Theorem X13_error_text_has_no_quote (e : option error) :
  ~ In dquote (String.list_ascii_of_string (errorText e)) /\
  String.list_ascii_of_string (errorText e) =
    match e with
    | Some e =>
        List.filter (fun ch => negb (Ascii.eqb ch dquote)) (String.list_ascii_of_string (Error e))
    | None => String.list_ascii_of_string "-"
    end.
Proof.
  assert (Heq : String.list_ascii_of_string (errorText e) =
    match e with
    | Some e =>
        List.filter (fun ch => negb (Ascii.eqb ch dquote)) (String.list_ascii_of_string (Error e))
    | None => String.list_ascii_of_string "-"
    end).
  { destruct e as [e|]; [apply strip_quotes_chars|reflexivity]. }
  split; [|exact Heq].
  rewrite Heq. destruct e as [e|].
  - intros Hin. apply filter_In in Hin. destruct Hin as [_ Hq].
    by rewrite Ascii.eqb_refl in Hq.
  - simpl. intros [Hq|[]]. discriminate Hq.
Qed.

Section AccessLogMore.
Context `{Ext : Externals} {S : Type}.
Implicit Types (st : State S) (next : Handler S).

Lemma WriteHeaderAndData_sent c d s st :
  sent (response_of st) = Some s -> broken (response_of st) = None -> 0 < c ->
  WriteHeaderAndData c (Some d) st = Done (Z.of_nat (length d), None) (appended c d st).
Proof.
  intros Hs Hb Hc. unfold response_of in *.
  rewrite WriteHeaderAndData_positive by exact Hc.
  unfold inner_WriteHeader, recorder_WriteHeader, inner_Write, recorder_Write. simpl.
  rewrite Hs. simpl. rewrite Hs, Hb. unfold appended, with_rw. simpl. by rewrite Hs.
Qed.

(** [RespondError] once a status has gone out: the error is attached,
    the Content-Type of the header map is changed, and the envelope is
    appended to the body. *)
Lemma RespondError_sent rev c e j s st :
  sent (response_of st) = Some s -> broken (response_of st) = None -> 0 < c ->
  json_Marshal (DValue (errorEnvelope rev e)) = inl j ->
  RespondError rev AsEx c e st =
    Done tt (appended c j
               (with_headers (header_Set "Content-Type" json_content_type
                                (HeaderMap (response_of st)))
                  (with_rw (with_err (Some e)) st))).
Proof.
  intros Hs Hb Hc Hj. unfold RespondError, RespondData.
  change (strings_Contains "application/json; charset=utf-8" "application/json") with true.
  unfold bind, modify. cbv beta iota. rewrite set_content_type_run, Hj.
  rewrite (WriteHeaderAndData_sent c j s); [reflexivity|exact Hs|exact Hb|exact Hc].
Qed.

End AccessLogMore.

(** X14.  [logRequest] starts every request on a new wrapper: what the
    wrapper of the incoming state holds as code and error, and what kind
    of writer the middleware itself is called with, have no effect on
    what it does.  In particular a handler that returns without
    answering leaves the code at 200 and no line is logged. *)
Theorem X14_log_starts_from_a_new_wrapper `{Ext : Externals} {S : Type}
    (next : Handler S) (w w' : httpResponseWriter) (r : Request)
    (c0 : Z) (e0 : option error) (st : State S) :
  logRequest next w r (with_capture c0 e0 st) = logRequest next w' r st /\
  logRequest (fun _ _ => ret tt) w r (with_capture c0 e0 st) = Done tt (wrapped st).
Proof.
  split; [reflexivity|].
  rewrite (logRequest_returns (fun _ _ => ret tt) w r (with_capture c0 e0 st) (wrapped st));
    reflexivity.
Qed.

(** X15.  [logRequest] does not recover: when the handler panics, the
    middleware panics with the same value and in the state the handler
    left, so no access-log line is written for that request. *)
Theorem X15_panic_leaves_no_access_line `{Ext : Externals} {S : Type}
    (next : Handler S) (w : httpResponseWriter) (r : Request)
    (p : panicValue) (st st' : State S) :
  next AsEx r (wrapped st) = Panicked p st' ->
  logRequest next w r st = Panicked p st' /\
  logger (final (logRequest next w r st)) = logger st'.
Proof.
  intros Hnext. rewrite (logRequest_panics next w r st p st' Hnext). by split.
Qed.

(** X15 for a handler that answers with the status 0. *)
Lemma X15_panic_leaves_no_access_line_witness :
  let st := Demo.fresh_state tt in
  logRequest (Ext := Demo.externals) (answering 0 3) AsBare (Demo.request EmptyString) st =
    Panicked (PanicError (nerr_msg (Ext := Demo.externals) "invalid status code"))
      (final (answering 0 3 AsEx (Demo.request EmptyString) (wrapped st))) /\
  logger (final (logRequest (Ext := Demo.externals) (answering 0 3) AsBare
                   (Demo.request EmptyString) st)) = [].
Proof.
  intros st.
  destruct (X15_panic_leaves_no_access_line (Ext := Demo.externals) (answering 0 3) AsBare
              (Demo.request EmptyString)
              (PanicError (nerr_msg (Ext := Demo.externals) "invalid status code"))
              st (final (answering 0 3 AsEx (Demo.request EmptyString) (wrapped st))) eq_refl)
    as [Hrun Hlog].
  split; [exact Hrun|]. rewrite Hlog. reflexivity.
Defined.

(** X16.  A handler that answers with [RespondError] under a status of
    400 or more is logged with the error it passed: [logRequest] hands
    the logger one line, at the error level from 500 and at the warning
    level below, that carries the remote address, the status and its
    text, the time between the two readings of the clock, and the
    message of the error without its double quotes. *)
Theorem X16_error_response_reaches_the_log `{Ext : Externals} {S : Type}
    (rev : Revision) (w : httpResponseWriter) (r : Request) (c : Z) (e : error)
    (j : list byte) (st : State S) :
  fresh_writer st -> 400 <= c <= 999 ->
  json_Marshal (DValue (errorEnvelope rev e)) = inl j ->
  exists st', logRequest (failing_with rev c e) w r st = Done tt st' /\
    logger st' =
      logger st ++
      [LogLevel (if 500 <=? c then LevelError else LevelWarn) logRequest_format
         [ArgStr (RemoteAddr r); ArgInt c; ArgStr (http_StatusText c);
          ArgDuration (clock st' - clock st); ArgStr (strip_quotes (Error e))]] /\
    sent_status (response_of st') = Some c /\
    Body (response_of st') = Body (response_of st) ++ j.
Proof.
  intros Hfresh Hc Hj.
  assert (Hrun : failing_with rev c e AsEx r (wrapped st) =
                 Done tt (written c
                            (header_Set "Content-Type" json_content_type
                               (HeaderMap (response_of st)))
                            j (with_rw (with_err (Some e)) (wrapped st)))).
  { unfold failing_with. rewrite RespondError_fresh; [|exact Hfresh|lia].
    unfold json_response. by rewrite Hj. }
  rewrite (logRequest_returns _ w r st _ Hrun). simpl.
  unfold StatusBadRequest. destruct (Z.leb_spec 400 c) as [_|?]; [|lia].
  eexists. split; [reflexivity|]. simpl.
  unfold access_entry, level_of, StatusInternalServerError, StatusBadRequest. simpl.
  destruct (Z.leb_spec 500 c); [by repeat split|].
  destruct (Z.leb_spec 400 c); [by repeat split|lia].
Qed.

(** X16 for an error whose message has quotes, answered with 404. *)
Lemma X16_error_response_reaches_the_log_witness :
  let e := ErrPlain ("no user " +:+ Demo.quote "bob") in
  exists st', logRequest (Ext := Demo.externals)
                (failing_with (Ext := Demo.externals) Earlier 404 e) AsBare
                (Demo.request EmptyString) (Demo.fresh_state tt) = Done tt st' /\
    logger st' =
      [LogLevel LevelWarn logRequest_format
         [ArgStr "10.0.0.1:4242"; ArgInt 404; ArgStr "Not Found"; ArgDuration 0;
          ArgStr "no user bob"]].
Proof.
  intros e.
  destruct (X16_error_response_reaches_the_log (Ext := Demo.externals) Earlier AsBare
              (Demo.request EmptyString) 404 e
              (String.list_byte_of_string (Demo.render 8 (errorEnvelope Earlier e)))
              (Demo.fresh_state tt)) as (st' & Hrun & Hlog & _).
  - split; reflexivity.
  - lia.
  - reflexivity.
  - exists st'. split; [exact Hrun|]. rewrite Hlog.
    injection Hrun as Hst. rewrite <- Hst. reflexivity.
Defined.

(** X17.  The status in the access log is the one of the latest answer,
    not the one the client received.  A handler that answers with a
    text under [c1] and then with [RespondError] under [c2] has sent
    [c1] with the text's headers, has the error envelope appended to
    the body, and is logged with [c2] and the error. *)
Theorem X17_log_has_the_latest_status `{Ext : Externals} {S : Type}
    (rev : Revision) (w : httpResponseWriter) (r : Request) (c1 c2 : Z)
    (contentType text : string) (e : error) (j : list byte) (st : State S) :
  fresh_writer st ->
  strings_Contains contentType "application/json" = false ->
  100 <= c1 <= 999 -> 400 <= c2 ->
  json_Marshal (DValue (errorEnvelope rev e)) = inl j ->
  exists st',
    logRequest (answering_twice rev c1 contentType text c2 e) w r st = Done tt st' /\
    sent (response_of st') =
      Some (c1, with_content_type contentType (HeaderMap (response_of st))) /\
    Body (response_of st') =
      Body (response_of st) ++ String.list_byte_of_string text ++ j /\
    logger st' =
      logger st ++
      [LogLevel (if 500 <=? c2 then LevelError else LevelWarn) logRequest_format
         [ArgStr (RemoteAddr r); ArgInt c2; ArgStr (http_StatusText c2);
          ArgDuration (clock st' - clock st); ArgStr (strip_quotes (Error e))]].
Proof.
  intros [Hsent Hbroken] Hct Hc1 Hc2 Hj.
  set (h := with_content_type contentType (HeaderMap (response_of st))).
  assert (Hfirst : RespondData rev AsEx c1 contentType (Some (DString text)) (wrapped st) =
                   Done tt (written c1 h (String.list_byte_of_string text) (wrapped st))).
  { rewrite (RespondData_unsent_as rev c1 contentType (DString text) (wrapped st) c1 h
               (Some (String.list_byte_of_string text))); [|exact Hsent| |exact Hc1].
    - unfold response_of in *. simpl. by rewrite Hbroken.
    - unfold plain_response. by rewrite Hct. }
  assert (Hrun : answering_twice rev c1 contentType text c2 e AsEx r (wrapped st) =
                 Done tt (appended c2 j
                            (with_headers (header_Set "Content-Type" json_content_type h)
                               (with_rw (with_err (Some e))
                                  (written c1 h (String.list_byte_of_string text) (wrapped st)))))).
  { unfold answering_twice, bind. rewrite Hfirst.
    by rewrite (RespondError_sent rev c2 e j (c1, h)); [| | |lia|]. }
  rewrite (logRequest_returns _ w r st _ Hrun). simpl.
  unfold StatusBadRequest. destruct (Z.leb_spec 400 c2) as [_|?]; [|lia].
  eexists. split; [reflexivity|]. simpl.
  split; [reflexivity|]. split; [by rewrite <- app_assoc|].
  unfold access_entry, level_of, StatusInternalServerError, StatusBadRequest. simpl.
  destruct (Z.leb_spec 500 c2); [reflexivity|].
  destruct (Z.leb_spec 400 c2); [reflexivity|lia].
Qed.

(** X17 for a 200 followed by a 500. *)
Lemma X17_log_has_the_latest_status_witness :
  exists st',
    logRequest (Ext := Demo.externals)
      (answering_twice (Ext := Demo.externals) Earlier 200 "text/plain" "ok" 500
         (ErrPlain "late")) AsBare
      (Demo.request EmptyString) (Demo.fresh_state tt) = Done tt st' /\
    sent_status (response_of st') = Some 200 /\
    logger st' =
      [LogLevel LevelError logRequest_format
         [ArgStr "10.0.0.1:4242"; ArgInt 500; ArgStr "Internal Server Error"; ArgDuration 0;
          ArgStr "late"]].
Proof.
  destruct (X17_log_has_the_latest_status (Ext := Demo.externals) Earlier AsBare
              (Demo.request EmptyString) 200 500 "text/plain" "ok" (ErrPlain "late")
              (String.list_byte_of_string
                 (Demo.render 8 (errorEnvelope Earlier (ErrPlain "late"))))
              (Demo.fresh_state tt)) as (st' & Hrun & Hsent & _ & Hlog).
  - split; reflexivity.
  - reflexivity.
  - lia.
  - lia.
  - reflexivity.
  - exists st'. split; [exact Hrun|]. split.
    + unfold sent_status. by rewrite Hsent.
    + rewrite Hlog. injection Hrun as Hst. rewrite <- Hst. reflexivity.
Defined.

(** * Further properties of the session manager *)

Section SessionMore.
Context `{Ext : Externals} {S : Type} (sessionStore : Store S).
Implicit Types (st : State S) (r : Request).

Lemma CloseSession_returns w r cookieName cookieKey st :
  CloseSession sessionStore w r cookieName cookieKey st =
    Done tt (final (CloseSession sessionStore w r cookieName cookieKey st)).
Proof.
  destruct (store_Get sessionStore r cookieName st) as [[[p|] e] st1] eqn:Hget.
  - rewrite (CloseSession_retrieved sessionStore w r cookieName cookieKey st p e st1 Hget).
    simpl. by destruct (store_Save _ _ _ _ _) as [[e'|] st3].
  - by rewrite (CloseSession_nil sessionStore w r cookieName cookieKey st e st1 Hget).
Qed.

(** [StartSession] in the current revision, by what the store answers
    after the previous session has been closed. *)
Lemma StartSession_run w r userID sessionAge cookieName cookieKey secure httpOnly st p e1 st1 :
  store_New sessionStore r cookieName
    (final (CloseSession sessionStore w r cookieName cookieKey st)) = ((p, e1), st1) ->
  StartSession sessionStore w r userID sessionAge cookieName cookieKey secure httpOnly st =
    match p with
    | None => Done (Some (ErrNerr (nerr_New (NCode eno_ErrInternal)))) st1
    | Some session =>
        match store_Save sessionStore r w session
                (with_sessions (alter (login_session cookieKey (VString userID)
                                         (login_options sessionAge secure httpOnly)) session) st1)
        with
        | (Some e, st3) => Done (Some (nerr_wrap e)) st3
        | (None, st3) => Done None st3
        end
    end.
Proof.
  intros Hnew. unfold StartSession. unfold bind at 1.
  rewrite CloseSession_returns. unfold bind, call, modify. rewrite Hnew. simpl.
  destruct p as [session|]; [|reflexivity].
  unfold login_options.
  by destruct (store_Save _ _ _ _ _) as [[e|] st3].
Qed.

(** What the login leaves in the session object. *)
Lemma login_written (key : string) (v : sessionValue) (o : Options) (p : nat) st (s0 : Session) :
  sessions st !! p = Some s0 ->
  sessions (with_sessions (alter (login_session key v o) p) st) !! p =
    Some (login_session key v o s0).
Proof. intros Hp. simpl. by rewrite lookup_alter_eq, Hp. Qed.

End SessionMore.

(** X18.  When the store's [Get] returns an error, [CheckSession]
    returns that error (wrapped by [nerr.New] in the current revision,
    as it is in the earlier one) with the zero identifier, whatever the
    session holds, and leaves the state as [Get] left it. *)
Theorem X18_retrieval_error_is_returned `{Ext : Externals} {S : Type}
    (sessionStore : Store S) (r : Request) (cookieName cookieKey : string)
    (p : option nat) (e : error) (st st1 : State S) :
  (store_Get sessionStore r cookieName st = ((p, Some e), st1) ->
   CheckSession sessionStore r cookieName cookieKey st =
     Done (EmptyString, Some (nerr_wrap e)) st1) /\
  (store_Get sessionStore r Legacy.sessionName st = ((p, Some e), st1) ->
   Legacy.CheckSession sessionStore r st = Done (0, Some e) st1).
Proof.
  split; intros Hget.
  - unfold CheckSession, bind, call. by rewrite Hget.
  - unfold Legacy.CheckSession, bind, call. by rewrite Hget.
Qed.

(** X18 on the store whose backend is down, after a login. *)
Lemma X18_retrieval_error_is_returned_witness :
  CheckSession (Ext := Demo.externals) Demo.failing_store (Demo.request EmptyString)
      "sid" "uid" logged_in =
    Done (EmptyString, Some (nerr_wrap (Ext := Demo.externals) (ErrPlain "backend down")))
      logged_in.
Proof.
  apply (proj1 (X18_retrieval_error_is_returned (Ext := Demo.externals) Demo.failing_store
                  (Demo.request EmptyString) "sid" "uid" (Some 1%nat)
                  (ErrPlain "backend down") logged_in logged_in)).
  reflexivity.
Defined.

(** X19.  [CheckSession] only reads: in every case, a panic included,
    the state it ends in is the state the store's [Get] left.  It
    changes no session object, saves nothing, logs nothing and writes
    nothing to the response. *)
Theorem X19_CheckSession_only_reads `{Ext : Externals} {S : Type}
    (sessionStore : Store S) (r : Request) (cookieName cookieKey : string) (st : State S) :
  final (CheckSession sessionStore r cookieName cookieKey st) =
    snd (store_Get sessionStore r cookieName st) /\
  final (Legacy.CheckSession sessionStore r st) =
    snd (store_Get sessionStore r Legacy.sessionName st).
Proof.
  split.
  - unfold CheckSession, bind, call, deref.
    destruct (store_Get sessionStore r cookieName st) as [[p [e|]] st1]; simpl; [reflexivity|].
    destruct p as [l|]; [|reflexivity].
    destruct (sessions st1 !! l) as [s|]; [|reflexivity].
    destruct (Values s !! cookieKey) as [ID|]; [|reflexivity].
    destruct (SessionOptions s) as [o|]; [|reflexivity].
    destruct (MaxAge o <? 0); [reflexivity|]. by destruct ID.
  - unfold Legacy.CheckSession, bind, call, deref.
    destruct (store_Get sessionStore r Legacy.sessionName st) as [[p [e|]] st1]; simpl;
      [reflexivity|].
    destruct p as [l|]; [|reflexivity].
    destruct (sessions st1 !! l) as [s|]; [|reflexivity].
    destruct (Values s !! Legacy.userIDKeyName) as [ID|]; [|reflexivity].
    destruct (SessionOptions s) as [o|]; [|reflexivity].
    destruct (MaxAge o <? 0); [reflexivity|]. by destruct ID.
Qed.

(** X20.  [StartSession] in the current revision first closes the
    session under the cookie, then asks the store for a new one.  With
    no session handed out it returns the internal error and saves
    nothing.  With a session handed out, an error of [New] beside it is
    ignored: the user identifier is stored under the key as a string,
    the options are path /, the given max-age, secure and http-only
    flags, and the store's [Save] is called on the session in that
    state; the result is nil when [Save] succeeds and the error of
    [Save], wrapped by [nerr.New], when it fails. *)
Theorem X20_StartSession_outcome `{Ext : Externals} {S : Type}
    (sessionStore : Store S) (w : httpResponseWriter) (r : Request)
    (userID : string) (sessionAge : Z) (cookieName cookieKey : string)
    (secure httpOnly : bool) (p : option nat) (e1 : option error) (st st1 : State S) :
  store_New sessionStore r cookieName
    (final (CloseSession sessionStore w r cookieName cookieKey st)) = ((p, e1), st1) ->
  match p with
  | None =>
      StartSession sessionStore w r userID sessionAge cookieName cookieKey secure httpOnly st =
        Done (Some (ErrNerr (nerr_New (NCode eno_ErrInternal)))) st1
  | Some session =>
      let st2 := with_sessions (alter (login_session cookieKey (VString userID)
                                         (login_options sessionAge secure httpOnly)) session) st1 in
      StartSession sessionStore w r userID sessionAge cookieName cookieKey secure httpOnly st =
        Done (nerr_wrap <$> fst (store_Save sessionStore r w session st2))
             (snd (store_Save sessionStore r w session st2)) /\
      (forall s, sessions st2 !! session = Some s ->
         Values s !! cookieKey = Some (VString userID) /\
         SessionOptions s =
           Some {| Path := "/"; Domain := EmptyString; MaxAge := sessionAge;
                   Secure := secure; HttpOnly := httpOnly; SameSite := 0 |})
  end.
Proof.
  intros Hnew.
  rewrite (StartSession_run sessionStore w r userID sessionAge cookieName cookieKey
             secure httpOnly st p e1 st1 Hnew).
  destruct p as [session|]; [|reflexivity].
  split.
  - by destruct (store_Save _ _ _ _ _) as [[e|] st3].
  - intros s. simpl. rewrite lookup_alter_eq.
    destruct (sessions st1 !! session) as [s0|]; simpl; [|discriminate].
    intros [= <-]. simpl. split; [apply lookup_insert_eq|reflexivity].
Qed.

(** X20 on the store whose backend is down, which still hands out the
    session: the login fails with the error of [Save]. *)
Lemma X20_StartSession_outcome_witness :
  exists st',
    StartSession (Ext := Demo.externals) Demo.failing_store AsEx (Demo.request EmptyString)
      "u2" 60 "sid" "uid" true true logged_in =
      Done (Some (nerr_wrap (Ext := Demo.externals) (ErrPlain "backend down"))) st' /\
    (Values <$> sessions st' !! 1%nat) = Some {["uid" := VString "u2"]}.
Proof.
  pose proof (X20_StartSession_outcome (Ext := Demo.externals) Demo.failing_store AsEx
                (Demo.request EmptyString) "u2" 60 "sid" "uid" true true (Some 1%nat)
                (Some (ErrPlain "backend down")) logged_in
                (final (CloseSession Demo.failing_store AsEx (Demo.request EmptyString)
                          "sid" "uid" logged_in)) eq_refl) as [Hrun _].
  eexists. split; [exact Hrun|]. reflexivity.
Defined.

(** X21.  [StartSession] in the earlier revision does not close the
    previous session.  An error of the store's [New] is returned as it
    is, and then nothing is stored or saved; without one, the user
    identifier is stored under the fixed key as a [uint64] and the
    result is the result of the store's [Save], as it is. *)
Theorem X21_Legacy_StartSession_outcome `{Ext : Externals} {S : Type}
    (sessionStore : Store S) (w : httpResponseWriter) (r : Request)
    (userID sessionAge : Z) (p : option nat) (st st1 : State S) :
  (forall e, store_New sessionStore r Legacy.sessionName st = ((p, Some e), st1) ->
     Legacy.StartSession sessionStore w r userID sessionAge st = Done (Some e) st1) /\
  (forall session,
     store_New sessionStore r Legacy.sessionName st = ((Some session, None), st1) ->
     let st2 := with_sessions (alter (login_session Legacy.userIDKeyName (VUint64 userID)
                                        {| Path := "/"; Domain := EmptyString;
                                           MaxAge := sessionAge; Secure := false;
                                           HttpOnly := false; SameSite := 0 |}) session) st1 in
     Legacy.StartSession sessionStore w r userID sessionAge st =
       Done (fst (store_Save sessionStore r w session st2))
            (snd (store_Save sessionStore r w session st2)) /\
     (forall s, sessions st2 !! session = Some s ->
        Values s !! Legacy.userIDKeyName = Some (VUint64 userID))).
Proof.
  split.
  - intros e Hnew. unfold Legacy.StartSession, bind, call. by rewrite Hnew.
  - intros session Hnew st2. split.
    + unfold Legacy.StartSession, bind, call, modify. rewrite Hnew. simpl. fold st2.
      by destruct (store_Save sessionStore r w session st2).
    + intros s. unfold st2. simpl. rewrite lookup_alter_eq.
      destruct (sessions st1 !! session) as [s0|]; simpl; [|discriminate].
      intros [= <-]. simpl. apply lookup_insert_eq.
Qed.

(** X21 on the store whose backend is down and on the in-memory store. *)
Lemma X21_Legacy_StartSession_outcome_witness :
  Legacy.StartSession Demo.failing_store AsEx (Demo.request EmptyString) 42 60 logged_in =
    Done (Some (ErrPlain "backend down")) logged_in /\
  Legacy.StartSession Demo.memory_store AsEx (Demo.request EmptyString) 42 3600
      (Demo.fresh_state ∅) = Done None legacy_logged_in.
Proof.
  split.
  - apply (proj1 (X21_Legacy_StartSession_outcome (Ext := Demo.externals) Demo.failing_store
                    AsEx (Demo.request EmptyString) 42 60 None logged_in logged_in)).
    reflexivity.
  - destruct (proj2 (X21_Legacy_StartSession_outcome (Ext := Demo.externals) Demo.memory_store
                       AsEx (Demo.request EmptyString) 42 3600 (Some 0%nat)
                       (Demo.fresh_state ∅)
                       (snd (store_New Demo.memory_store (Demo.request EmptyString)
                               Legacy.sessionName (Demo.fresh_state ∅))))
                0%nat eq_refl) as [Hrun _].
    rewrite Hrun. reflexivity.
Defined.

(** X22.  A login followed by a check gives the identifier back, unless
    the session was started with a negative max-age.  When the store
    hands out a session for the login and saves it, and hands out for
    the check a session with the content the login wrote,
    [StartSession] returns nil and [CheckSession] under the same cookie
    key returns the user identifier with a nil error when the max-age
    given to [StartSession] is zero or more, and the unauthorized error
    when it is negative. *)
Theorem X22_login_then_check `{Ext : Externals} {S : Type}
    (sessionStore : Store S) (w : httpResponseWriter) (r r' : Request)
    (userID : string) (sessionAge : Z) (cookieName cookieKey : string)
    (secure httpOnly : bool) (p p' : nat) (e1 : option error) (s0 : Session)
    (st st1 st3 st4 : State S) :
  let st2 := with_sessions (alter (login_session cookieKey (VString userID)
                                     (login_options sessionAge secure httpOnly)) p) st1 in
  store_New sessionStore r cookieName
    (final (CloseSession sessionStore w r cookieName cookieKey st)) = ((Some p, e1), st1) ->
  sessions st1 !! p = Some s0 ->
  store_Save sessionStore r w p st2 = (None, st3) ->
  store_Get sessionStore r' cookieName st3 = ((Some p', None), st4) ->
  sessions st4 !! p' = sessions st2 !! p ->
  StartSession sessionStore w r userID sessionAge cookieName cookieKey secure httpOnly st =
    Done None st3 /\
  CheckSession sessionStore r' cookieName cookieKey st3 =
    if sessionAge <? 0 then Done (EmptyString, Some (nerr_msg "unauthorized")) st4
    else Done (userID, None) st4.
Proof.
  intros st2 Hnew Hp Hsave Hget Hsame. split.
  - rewrite (StartSession_run sessionStore w r userID sessionAge cookieName cookieKey
               secure httpOnly st (Some p) e1 st1 Hnew).
    fold st2. by rewrite Hsave.
  - assert (Hs : sessions st4 !! p' =
                 Some (login_session cookieKey (VString userID)
                         (login_options sessionAge secure httpOnly) s0)).
    { rewrite Hsame. by apply login_written. }
    rewrite (CheckSession_retrieved sessionStore r' cookieName cookieKey st3 st4 p' _ Hget Hs).
    simpl. by rewrite lookup_insert_eq.
Qed.

(** X22 on the in-memory store: a login with a max-age of one hour and
    one with a negative max-age. *)
Lemma X22_login_then_check_witness :
  let r := Demo.request EmptyString in
  CheckSession (Ext := Demo.externals) Demo.memory_store r "sid" "uid" logged_in =
    Done ("u1", None) logged_in /\
  exists st3,
    StartSession (Ext := Demo.externals) Demo.memory_store AsEx r "u1" (-1) "sid" "uid"
      false true (Demo.fresh_state ∅) = Done None st3 /\
    CheckSession (Ext := Demo.externals) Demo.memory_store r "sid" "uid" st3 =
      Done (EmptyString, Some (nerr_msg (Ext := Demo.externals) "unauthorized")) st3.
Proof.
  intros r.
  set (closed := final (CloseSession Demo.memory_store AsEx r "sid" "uid" (Demo.fresh_state ∅))).
  set (st1 := snd (store_New Demo.memory_store r "sid" closed)).
  assert (Hs0 : sessions st1 !! 1%nat =
                Some {| Values := ∅; SessionOptions := Some (demo_options (86400 * 30) false) |})
    by reflexivity.
  split.
  - pose proof (X22_login_then_check (Ext := Demo.externals) Demo.memory_store AsEx r r
                  "u1" 3600 "sid" "uid" false true 1%nat 1%nat None _
                  (Demo.fresh_state ∅) st1 logged_in logged_in eq_refl Hs0 eq_refl eq_refl
                  eq_refl) as [_ Hcheck].
    exact Hcheck.
  - pose proof (X22_login_then_check (Ext := Demo.externals) Demo.memory_store AsEx r r
                  "u1" (-1) "sid" "uid" false true 1%nat 1%nat None _
                  (Demo.fresh_state ∅) st1 _ _ eq_refl Hs0 eq_refl eq_refl eq_refl)
      as [Hstart Hcheck].
    eexists. split; [exact Hstart|exact Hcheck].
Defined.

(** X23.  A check after a logout is unauthorized.  When the store hands
    out a session to [CloseSession] and hands out for the following
    check a session with the content [CloseSession] left, [CheckSession]
    under the same key returns the unauthorized error, whether the
    [Save] of the logout succeeded or failed. *)
Theorem X23_logout_then_check `{Ext : Externals} {S : Type}
    (sessionStore : Store S) (w : httpResponseWriter) (r r' : Request)
    (cookieName cookieKey : string) (p p' : nat) (e0 : option error) (s0 : Session)
    (st st1 st4 : State S) :
  let st2 := with_sessions (alter (delete_value cookieKey) p) st1 in
  let closed := final (CloseSession sessionStore w r cookieName cookieKey st) in
  store_Get sessionStore r cookieName st = ((Some p, e0), st1) ->
  sessions st1 !! p = Some s0 ->
  store_Get sessionStore r' cookieName closed = ((Some p', None), st4) ->
  sessions st4 !! p' = sessions st2 !! p ->
  CheckSession sessionStore r' cookieName cookieKey closed =
    Done (EmptyString, Some (nerr_msg "unauthorized")) st4.
Proof.
  intros st2 closed Hget Hp Hget' Hsame.
  assert (Hs : sessions st4 !! p' = Some (delete_value cookieKey s0)).
  { rewrite Hsame. unfold st2. simpl. by rewrite lookup_alter_eq, Hp. }
  rewrite (CheckSession_retrieved sessionStore r' cookieName cookieKey closed st4 p' _ Hget' Hs).
  simpl. by rewrite lookup_delete_eq.
Qed.

(** X23 on the in-memory store after a login. *)
Lemma X23_logout_then_check_witness :
  let r := Demo.request EmptyString in
  let closed := final (CloseSession Demo.memory_store AsEx r "sid" "uid" logged_in) in
  CheckSession (Ext := Demo.externals) Demo.memory_store r "sid" "uid" closed =
    Done (EmptyString, Some (nerr_msg (Ext := Demo.externals) "unauthorized")) closed.
Proof.
  intros r closed.
  apply (X23_logout_then_check (Ext := Demo.externals) Demo.memory_store AsEx r r "sid" "uid"
           1%nat 1%nat None
           {| Values := {["uid" := VString "u1"]};
              SessionOptions := Some (demo_options 3600 true) |}
           logged_in logged_in closed).
  - reflexivity.
  - reflexivity.
  - reflexivity.
  - reflexivity.
Defined.

(** X24.  [CloseSession] removes the one key and nothing else.  When
    the store hands out a session and its [Save] leaves the session
    objects as they are, then after [CloseSession] every other entry of
    that session and its options are as [Get] left them, and so is
    every other session object. *)
Theorem X24_logout_removes_only_the_key `{Ext : Externals} {S : Type}
    (sessionStore : Store S) (w : httpResponseWriter) (r : Request)
    (cookieName cookieKey : string) (p : nat) (e0 : option error) (s0 : Session)
    (st st1 : State S) :
  let st2 := with_sessions (alter (delete_value cookieKey) p) st1 in
  let closed := final (CloseSession sessionStore w r cookieName cookieKey st) in
  store_Get sessionStore r cookieName st = ((Some p, e0), st1) ->
  sessions st1 !! p = Some s0 ->
  sessions (snd (store_Save sessionStore r w p st2)) = sessions st2 ->
  (exists s, sessions closed !! p = Some s /\
     Values s !! cookieKey = None /\
     (forall k, k <> cookieKey -> Values s !! k = Values s0 !! k) /\
     SessionOptions s = SessionOptions s0) /\
  (forall q, q <> p -> sessions closed !! q = sessions st1 !! q).
Proof.
  intros st2 closed Hget Hp Hsave.
  assert (Hclosed : sessions closed = sessions st2).
  { unfold closed.
    rewrite (CloseSession_retrieved sessionStore w r cookieName cookieKey st p e0 st1 Hget).
    simpl. fold st2. by destruct (store_Save sessionStore r w p st2) as [[e|] st3]. }
  rewrite Hclosed. unfold st2. simpl. split.
  - exists (delete_value cookieKey s0). rewrite lookup_alter_eq, Hp. simpl.
    split; [reflexivity|]. split; [apply lookup_delete_eq|]. split; [|reflexivity].
    intros k Hk. by apply lookup_delete_ne.
  - intros q Hq. by apply lookup_alter_ne.
Qed.

(** X24 on the store whose backend is down, after a login. *)
Lemma X24_logout_removes_only_the_key_witness :
  let closed := final (CloseSession Demo.failing_store AsEx (Demo.request EmptyString)
                         "sid" "other" logged_in) in
  (exists s, sessions closed !! 1%nat = Some s /\
     Values s !! "uid" = Some (VString "u1")) /\
  sessions closed !! 0%nat = sessions logged_in !! 0%nat.
Proof.
  intros closed.
  destruct (X24_logout_removes_only_the_key (Ext := Demo.externals) Demo.failing_store AsEx
              (Demo.request EmptyString) "sid" "other" 1%nat (Some (ErrPlain "backend down"))
              {| Values := {["uid" := VString "u1"]};
                 SessionOptions := Some (demo_options 3600 true) |}
              logged_in logged_in eq_refl eq_refl eq_refl)
    as [(s & Hs & _ & Hother & _) Hrest].
  split.
  - exists s. split; [exact Hs|]. by rewrite Hother.
  - by apply Hrest.
Defined.

(** * Further properties of the registrar *)

Section RegistrarMore.
Context {H : Type}.
Implicit Types (d : RouterData H) (op : registration H) (ops : list (registration H))
  (builtin : list (H -> H)) (path : string).

(** A registration never drops or moves a cached group. *)
Lemma register_keeps_cache d op path sr :
  subrouters d !! path = Some sr -> subrouters (register d op) !! path = Some sr.
Proof.
  intros Hl. rewrite register_on_group. unfold on_group.
  destruct (String.length (subroute_of op) =? 0)%nat; [exact Hl|].
  unfold getSubrouter.
  destruct (subrouters d !! subroute_of op) as [sr'|] eqn:Hop; simpl; [exact Hl|].
  rewrite lookup_insert_ne; [exact Hl|]. intros Heq. congruence.
Qed.

End RegistrarMore.

(** X25.  After any sequence of [AddRoute] and [AddMiddleware] calls on
    a new router, the cache of groups is sound: the empty sub-path has
    no group; every other prefix has at most one sub-router on the root,
    and it is the cached one; two prefixes never share a group; and
    [getSubrouter] of a cached prefix returns its group, which exists,
    and changes nothing. *)
Theorem X25_group_cache_is_sound {H : Type} (builtin : list (H -> H))
    (ops : list (registration H)) :
  let d := register_all ops (New builtin) in
  subrouters d !! EmptyString = None /\
  (forall path, groups_under path d = option_list (subrouters d !! path)) /\
  (forall p1 p2 sr, subrouters d !! p1 = Some sr -> subrouters d !! p2 = Some sr -> p1 = p2) /\
  (forall path sr, subrouters d !! path = Some sr ->
     getSubrouter path d = (sr, d) /\ is_Some (routers d !! sr)).
Proof.
  intros d. pose proof (agrees_register_all builtin ops) as Hd. fold d in Hd.
  split; [apply (agrees_root_key _ _ _ Hd)|].
  split; [apply (agrees_groups _ _ _ Hd)|].
  split; [apply (agrees_inj _ _ _ Hd)|].
  intros path sr Hl. split.
  - unfold getSubrouter. by rewrite Hl.
  - rewrite (agrees_cached _ _ _ Hd _ _ Hl). eauto.
Qed.

(** X25 for routes under two prefixes and on the root. *)
Lemma X25_group_cache_is_sound_witness :
  let d := register_all
             [RegRoute "/api" "/users" ["users"] ["GET"];
              RegRoute EmptyString "/health" ["health"] ["GET"];
              RegRoute "/admin" "/stats" ["stats"] ["GET"];
              RegRoute "/api" "/items" ["items"] ["GET"; "POST"]] (New []) in
  groups_under "/api" d = [0%nat] /\ groups_under "/admin" d = [1%nat] /\
  groups_under EmptyString d = [] /\
  getSubrouter "/api" d = (0%nat, d).
Proof.
  intros d.
  destruct (X25_group_cache_is_sound (H := list string) []
              [RegRoute "/api" "/users" ["users"] ["GET"];
               RegRoute EmptyString "/health" ["health"] ["GET"];
               RegRoute "/admin" "/stats" ["stats"] ["GET"];
               RegRoute "/api" "/items" ["items"] ["GET"; "POST"]])
    as (Hroot & Hgroups & _ & Hget).
  fold d in Hroot, Hgroups, Hget.
  split; [by rewrite Hgroups|]. split; [by rewrite Hgroups|].
  split; [by rewrite Hgroups, Hroot|].
  by apply Hget.
Defined.

(** X26.  When every call of [AddMiddleware] passes at most one
    function, middleware is applied as registered: after any sequence
    of registrations on a new router, each handler added under a
    sub-path, before or after the middleware, is served wrapped in the
    functions passed for that sub-path, the first passed outermost, and
    around them in the root's middlewares: those [New] installs, then
    those passed for the empty sub-path. *)
Theorem X26_single_function_calls_apply_in_order {H : Type} (builtin : list (H -> H))
    (ops : list (registration H)) (path : string) (sr : nat) :
  let d := register_all ops (New builtin) in
  (forall subroute mwf, RegMiddleware subroute mwf ∈ ops -> (length mwf <= 1)%nat) ->
  subrouters d !! path = Some sr ->
  served d sr =
    map (fun h => chain (builtin ++ passed EmptyString ops) (chain (passed path ops) h))
      (added path ops).
Proof.
  intros d Hone Hsr.
  rewrite (served_spec builtin ops d path sr (agrees_register_all builtin ops) Hsr).
  by rewrite !(installed_single_calls _ ops Hone).
Qed.

(** X26 with handlers written as the list of names wrapped around them:
    two middlewares registered in two calls, one before and one after
    the route, and one on the root. *)
Lemma X26_single_function_calls_apply_in_order_witness :
  let d := register_all
             [RegMiddleware "/api" [cons "m1"];
              RegRoute "/api" "/users" ["h"] ["GET"];
              RegMiddleware EmptyString [cons "root"];
              RegMiddleware "/api" [cons "m2"]] (New [cons "log"]) in
  served d 0%nat = [["log"; "root"; "m1"; "m2"; "h"]].
Proof.
  intros d. unfold d.
  rewrite (X26_single_function_calls_apply_in_order (H := list string) [cons "log"]
             [RegMiddleware "/api" [cons "m1"];
              RegRoute "/api" "/users" ["h"] ["GET"];
              RegMiddleware EmptyString [cons "root"];
              RegMiddleware "/api" [cons "m2"]] "/api" 0%nat).
  - reflexivity.
  - intros subroute mwf Hin. apply list_elem_of_In in Hin. simpl in Hin.
    destruct Hin as [Heq|[Heq|[Heq|[Heq|[]]]]]; try discriminate Heq;
      injection Heq as _ <-; simpl; lia.
  - reflexivity.
Defined.

(** X27.  A call of [AddMiddleware] with several functions under a
    sub-path adds to the group's middlewares, after those already
    installed, as many functions as were passed, and each of them is
    the last function of the call. *)
Theorem X27_call_installs_copies_of_the_last {H : Type} (builtin : list (H -> H))
    (ops : list (registration H)) (path : string) (mwf : list (H -> H)) (f : H -> H) :
  let d := register_all (ops ++ [RegMiddleware path mwf]) (New builtin) in
  path <> EmptyString ->
  last mwf = Some f ->
  exists sr m, subrouters d !! path = Some sr /\ routers d !! sr = Some m /\
    middlewares m = installed path ops ++ replicate (length mwf) f.
Proof.
  intros d Hpath Hlast.
  pose proof (agrees_register_all builtin (ops ++ [RegMiddleware path mwf])) as Hd.
  fold d in Hd.
  assert (Hsr : is_Some (subrouters d !! path)).
  { unfold d. rewrite register_all_snoc.
    apply (register_caches (RegMiddleware path mwf)). exact Hpath. }
  destruct Hsr as [sr Hsr].
  exists sr, (view mux_NewRouter path (ops ++ [RegMiddleware path mwf])).
  split; [exact Hsr|]. split; [apply (agrees_cached _ _ _ Hd _ _ Hsr)|].
  rewrite view_middlewares, installed_snoc. simpl.
  rewrite decide_True by done. by rewrite captured_funcs_spec, Hlast.
Qed.

(** X27 for a call with three functions after one with a single one. *)
Lemma X27_call_installs_copies_of_the_last_witness :
  let d := register_all
             ([RegMiddleware "/api" [cons "auth"]] ++
              [RegMiddleware "/api" [cons "a"; cons "b"; cons "c"]]) (New []) in
  exists sr m, subrouters d !! "/api" = Some sr /\ routers d !! sr = Some m /\
    (fun g => g []) <$> middlewares m = [["auth"]; ["c"]; ["c"]; ["c"]].
Proof.
  intros d.
  destruct (X27_call_installs_copies_of_the_last (H := list string) []
              [RegMiddleware "/api" [cons "auth"]] "/api" [cons "a"; cons "b"; cons "c"]
              (cons "c")) as (sr & m & Hsr & Hm & Hmw).
  - discriminate.
  - reflexivity.
  - exists sr, m. split; [exact Hsr|]. split; [exact Hm|]. rewrite Hmw. reflexivity.
Defined.

(** X28.  Groups are isolated: a registration under one sub-path (or on
    the root) leaves the group of every other prefix as it was, its
    routes and its middlewares, and cached under the same pointer. *)
Theorem X28_registration_leaves_other_groups {H : Type} (builtin : list (H -> H))
    (ops : list (registration H)) (op : registration H) (other : string) (sr : nat) :
  let d := register_all ops (New builtin) in
  subrouters d !! other = Some sr ->
  subroute_of op <> other ->
  subrouters (register d op) !! other = Some sr /\
  routers (register d op) !! sr = routers d !! sr.
Proof.
  intros d Hsr Hne.
  pose proof (agrees_register_all builtin ops) as Hd. fold d in Hd.
  pose proof (agrees_register builtin ops op d Hd) as Hd'.
  pose proof (register_keeps_cache d op other sr Hsr) as Hsr'.
  split; [exact Hsr'|].
  rewrite (agrees_cached _ _ _ Hd' _ _ Hsr'), (agrees_cached _ _ _ Hd _ _ Hsr).
  by rewrite view_snoc, decide_False.
Qed.

(** X28 for a middleware registered under another prefix. *)
Lemma X28_registration_leaves_other_groups_witness :
  let d := register_all [RegRoute "/api" "/users" ["h"] ["GET"]] (New []) in
  let d' := AddMiddleware "/admin" [cons "auth"] d in
  subrouters d' !! "/api" = Some 0%nat /\ served d' 0%nat = [["h"]].
Proof.
  intros d d'.
  destruct (X28_registration_leaves_other_groups (H := list string) []
              [RegRoute "/api" "/users" ["h"] ["GET"]]
              (RegMiddleware "/admin" [cons "auth"]) "/api" 0%nat eq_refl)
    as [Hsr Hrouters].
  - discriminate.
  - split; [exact Hsr|]. unfold served. fold d in Hrouters.
    change (register d (RegMiddleware "/admin" [cons "auth"])) with d' in Hrouters.
    rewrite Hrouters. reflexivity.
Defined.

(** X29.  The routes registered with an empty sub-path are served by the
    root: after any sequence of registrations on a new router, each
    handler added with an empty sub-path is wrapped in the middlewares
    [New] installs followed by those installed with an empty sub-path,
    and in no middleware of any group. *)
Theorem X29_root_routes {H : Type} (builtin : list (H -> H)) (ops : list (registration H)) :
  served_root (register_all ops (New builtin)) =
    map (chain (builtin ++ installed EmptyString ops)) (added EmptyString ops).
Proof.
  pose proof (agrees_register_all builtin ops) as Hd.
  unfold served_root.
  rewrite (agrees_root_mw _ _ _ Hd), (agrees_root_handlers _ _ _ Hd).
  by rewrite view_middlewares, view_handlers.
Qed.

(** * A status that is zero or negative *)

(** X30.  A responder given a status that is zero or negative panics
    with invalid status code instead of responding, and nothing goes
    out: [RespondData] with a nil payload leaves the state as it was;
    [RespondError], whose envelope marshals, has by then attached the
    error to the wrapper and set the Content-Type of the header map,
    and has sent and written nothing. *)
Theorem X30_nonpositive_status_sends_nothing `{Ext : Externals} {S : Type}
    (rev : Revision) (c : Z) (contentType : string) (e : error) (j : list byte)
    (st : State S) :
  c <= 0 ->
  json_Marshal (DValue (errorEnvelope rev e)) = inl j ->
  RespondData rev AsEx c contentType None st =
    Panicked (PanicError (nerr_msg "invalid status code")) st /\
  exists st', RespondError rev AsEx c e st =
      Panicked (PanicError (nerr_msg "invalid status code")) st' /\
    err (rw st') = Some e /\ code (rw st') = code (rw st) /\
    sent (response_of st') = sent (response_of st) /\
    Body (response_of st') = Body (response_of st) /\
    HeaderMap (response_of st') !! "Content-Type" = Some [json_content_type] /\
    logger st' = logger st.
Proof.
  intros Hc Hj. split.
  - unfold RespondData, bind. by rewrite WriteHeaderAndData_nonpositive.
  - unfold RespondError, RespondData.
    change (strings_Contains "application/json; charset=utf-8" "application/json") with true.
    unfold bind, modify. cbv beta iota. rewrite set_content_type_run, Hj.
    rewrite WriteHeaderAndData_nonpositive by exact Hc.
    eexists. split; [reflexivity|]. simpl.
    repeat split. unfold with_content_type, header_Set. simpl. by rewrite lookup_insert_eq.
Qed.

(** X30 for the status 0. *)
Lemma X30_nonpositive_status_sends_nothing_witness :
  exists st', RespondError (Ext := Demo.externals) Current AsEx 0 (ErrPlain "boom")
                (Demo.fresh_state tt) =
      Panicked (PanicError (nerr_msg (Ext := Demo.externals) "invalid status code")) st' /\
    err (rw st') = Some (ErrPlain "boom") /\
    sent (response_of st') = None /\ Body (response_of st') = [].
Proof.
  destruct (X30_nonpositive_status_sends_nothing (Ext := Demo.externals) Current 0 "text/plain"
              (ErrPlain "boom")
              (String.list_byte_of_string
                 (Demo.render 8 (errorEnvelope Current (ErrPlain "boom"))))
              (Demo.fresh_state tt)) as [_ (st' & Hrun & He & _ & Hs & Hb & _)].
  - lia.
  - reflexivity.
  - exists st'. by repeat split.
Defined.
